(** * Spam_Detector_App: the classification and notification services

    A shallow embedding of the TypeScript services of the repository

      - [src/services/nlpClassifierService.ts]   (feature extractor, scorer)
      - [src/utils/textPreprocessing.ts]         (tokenizer, keyword ratio)
      - [src/services/classificationService.ts]  (AI adjudicator, fallback)
      - [src/services/telegramService.ts]        (notification queue)
      - [src/services/databaseService.ts]        (message store)
      - [src/services/smsMonitoringService.ts]   (ingestion coordinator)

    Conventions of the embedding.

      - A JavaScript string is the list of its UTF-16 code units.
      - A JavaScript number is an exact rational ([Q]); the numbers JSON can
        produce additionally contain the two infinities.  The arithmetic of
        the services (sums of multiples of 0.05, ratios of lengths) is taken
        exactly, not in binary64.
      - A regular expression is a first-order syntax tree run by a
        backtracking matcher that follows the ECMAScript pattern semantics
        for the constructs the repository uses; a RegExp object carries its
        [lastIndex], which [test] and [String.prototype.match] read and
        write as the language specifies.
      - A method that can throw returns a [Completion]; mutable service
        objects are passed explicitly.
      - What the runtime or a third-party package computes and the
        repository does not define ([String.prototype.toLowerCase] beyond
        ASCII, the compromise document lookup, [JSON.parse]) is a field of
        the [Host] class; the network is an explicit oracle argument. *)

From Stdlib Require Import String Ascii List ZArith NArith QArith Qround Qminmax Qabs Lia Bool.
From Stdlib Require Import DecimalString.
From Stdlib Require Import Lqa Permutation.
From stdpp Require Import gmap.
Import ListNotations.

Local Open Scope string_scope.
Local Open Scope list_scope.
Local Open Scope nat_scope.
Local Set Warnings "-register-all".

(** ** JavaScript strings *)

Module JsString.

(** A string is its sequence of UTF-16 code units. *)
Definition jstr := list N.

Definition js (s : string) : jstr :=
  List.map N_of_ascii (list_ascii_of_string s).

Definition cu_eqb (a b : N) : bool := N.eqb a b.

Fixpoint jstr_eqb (a b : jstr) : bool :=
  match a, b with
  | [], [] => true
  | x :: a', y :: b' => cu_eqb x y && jstr_eqb a' b'
  | _, _ => false
  end.

(** [prefix.length <= s.length && s.startsWith(prefix)] *)
Fixpoint startsWith (s p : jstr) : bool :=
  match p, s with
  | [], _ => true
  | x :: p', y :: s' => cu_eqb x y && startsWith s' p'
  | _ :: _, [] => false
  end.

(** [String.prototype.includes]: [needle] occurs somewhere in [s]. *)
Fixpoint includes (s needle : jstr) : bool :=
  startsWith s needle ||
  match s with
  | [] => false
  | _ :: s' => includes s' needle
  end.

(** [String.prototype.substring(0, n)] *)
Definition substring0 (s : jstr) (n : nat) : jstr := firstn n s.

(** ASCII part of [toLowerCase]: A-Z to a-z, everything else unchanged. *)
Definition lower_cu (c : N) : N :=
  if (65 <=? c)%N && (c <=? 90)%N then (c + 32)%N else c.

Definition asciiLower (s : jstr) : jstr := List.map lower_cu s.

(** Decimal rendering of a non-negative integer, as template literals
    and [String(n)] print it. *)
Definition digits_of_nat (n : nat) : jstr :=
  js (NilEmpty.string_of_uint (Nat.to_uint n)).

Definition str_of_nat (n : nat) : jstr := digits_of_nat n.

Definition str_of_Z (z : Z) : jstr :=
  match z with
  | Z0 => js "0"
  | Zpos p => digits_of_nat (Pos.to_nat p)
  | Zneg p => js "-" ++ digits_of_nat (Pos.to_nat p)
  end.

(** [Array.prototype.join(sep)] *)
Fixpoint join (sep : jstr) (parts : list jstr) : jstr :=
  match parts with
  | [] => []
  | [p] => p
  | p :: rest => p ++ sep ++ join sep rest
  end.

End JsString.
Export JsString.


(** ** Regular expressions

    The pattern constructs the repository uses: literals, character
    classes, [\b], sequence, alternation and greedy quantifiers.  The [i]
    flag is applied when a pattern is written down ([liti]): outside
    Unicode mode an ASCII letter of a pattern matches exactly its two
    ASCII cases, and the escapes [\w], [\d], [\s], [\b] are unaffected by
    it. *)

Module Regex.

Inductive regex : Type :=
| Empty
| Cls (neg : bool) (ranges : list (N * N))
| WordB
| Seq (r1 r2 : regex)
| Alt (r1 r2 : regex)
| Rep (min : nat) (extra : option nat) (r : regex).

Definition in_ranges (c : N) (rs : list (N * N)) : bool :=
  existsb (fun lh => (fst lh <=? c)%N && (c <=? snd lh)%N) rs.

(** [\w], [\d], [\s] and the complement of [.] *)
Definition word_ranges : list (N * N) :=
  [(48, 57); (65, 90); (95, 95); (97, 122)]%N.
Definition digit_ranges : list (N * N) := [(48, 57)]%N.
Definition space_ranges : list (N * N) :=
  [(9, 13); (32, 32); (160, 160); (5760, 5760); (8192, 8202);
   (8232, 8233); (8239, 8239); (8287, 8287); (12288, 12288);
   (65279, 65279)]%N.
Definition line_terminators : list (N * N) :=
  [(10, 10); (13, 13); (8232, 8233)]%N.

Definition isWordChar (c : option N) : bool :=
  match c with
  | Some x => in_ranges x word_ranges
  | None => false
  end.

Definition progress (before after : jstr) : bool :=
  length after <? length before.

(** The two loops of a quantifier over the matcher [step] of its body,
    with [k] the continuation behind the quantifier.  [optional n] runs at
    most [n] further iterations, greedily; an iteration that consumes
    nothing is rejected, as RepeatMatcher does.  [mandatory extra n] runs
    the [n] iterations that are required and then the optional ones:
    [extra] of them, or, when the quantifier has no upper bound, as many
    as there are code units left, which is all that iterations that each
    consume something can ever be. *)
Section Loops.
Variable step :
  option N -> jstr -> (option N -> jstr -> option nat) -> option nat.
Variable k : option N -> jstr -> option nat.

Fixpoint optional (n : nat) (p : option N) (t : jstr) {struct n}
    : option nat :=
  match n with
  | O => k p t
  | S n' =>
      match step p t
              (fun p' t' => if progress t t' then optional n' p' t' else None)
      with
      | Some e => Some e
      | None => k p t
      end
  end.

Fixpoint mandatory (extra : option nat) (n : nat) (p : option N) (t : jstr)
    {struct n} : option nat :=
  match n with
  | O =>
      optional (match extra with
                | Some e => e
                | None => length t
                end) p t
  | S n' => step p t (fun p' t' => mandatory extra n' p' t')
  end.
End Loops.

(** [rmatch r prev s k]: match [r] at the head of [s] ([prev] is the code
    unit just before it, for [\b]) and hand the rest to the continuation
    [k]; alternatives are tried in the order of the ECMAScript
    backtracking semantics. *)
Fixpoint rmatch (r : regex) (prev : option N) (s : jstr)
    (k : option N -> jstr -> option nat) {struct r} : option nat :=
  match r with
  | Empty => k prev s
  | Cls neg rs =>
      match s with
      | c :: s' => if xorb neg (in_ranges c rs) then k (Some c) s' else None
      | [] => None
      end
  | WordB =>
      if xorb (isWordChar prev) (isWordChar (head s)) then k prev s else None
  | Seq r1 r2 => rmatch r1 prev s (fun p' s' => rmatch r2 p' s' k)
  | Alt r1 r2 =>
      match rmatch r1 prev s k with
      | Some e => Some e
      | None => rmatch r2 prev s k
      end
  | Rep min extra r' => mandatory (rmatch r') k extra min prev s
  end.

(** Number of code units of the match of [r] at the head of [s]. *)
Definition matchHere (r : regex) (prev : option N) (s : jstr) : option nat :=
  match rmatch r prev s (fun _ rest => Some (length rest)) with
  | Some remaining => Some (length s - remaining)
  | None => None
  end.

(** Leftmost match at or after the current position [pos]. *)
Fixpoint searchFrom (r : regex) (prev : option N) (s : jstr) (pos : nat)
    : option (nat * nat) :=
  match matchHere r prev s with
  | Some n => Some (pos, pos + n)
  | None =>
      match s with
      | [] => None
      | c :: s' => searchFrom r (Some c) s' (S pos)
      end
  end.

(** Move to index [i] first; there is no match when [i] lies beyond the
    end of the string. *)
Fixpoint execAt (r : regex) (prev : option N) (s : jstr) (pos i : nat)
    : option (nat * nat) :=
  match i with
  | O => searchFrom r prev s pos
  | S i' =>
      match s with
      | [] => None
      | c :: s' => execAt r (Some c) s' (S pos) i'
      end
  end.

(** All matches of a global scan from the current position: after a match
    of [n > 0] units the scan resumes behind it, after an empty match one
    unit further. *)
Fixpoint scan (r : regex) (prev : option N) (s : jstr) (pos skip : nat)
    {struct s} : list (nat * nat) :=
  match skip with
  | S skip' =>
      match s with
      | [] => []
      | c :: s' => scan r (Some c) s' (S pos) skip'
      end
  | O =>
      match matchHere r prev s with
      | Some n =>
          (pos, pos + n) ::
          match s with
          | [] => []
          | c :: s' => scan r (Some c) s' (S pos) (n - 1)
          end
      | None =>
          match s with
          | [] => []
          | c :: s' => scan r (Some c) s' (S pos) 0
          end
      end
  end.

(** [s.replace(/r/g, repl)] for a replacement without [$] patterns *)
Fixpoint replaceScan (r : regex) (repl : jstr) (prev : option N) (s : jstr)
    (skip : nat) {struct s} : jstr :=
  match skip with
  | S skip' =>
      match s with
      | [] => []
      | c :: s' => replaceScan r repl (Some c) s' skip'
      end
  | O =>
      match matchHere r prev s with
      | Some n =>
          repl ++
          match s with
          | [] => []
          | c :: s' =>
              if n =? 0 then c :: replaceScan r repl (Some c) s' 0
              else replaceScan r repl (Some c) s' (n - 1)
          end
      | None =>
          match s with
          | [] => []
          | c :: s' => c :: replaceScan r repl (Some c) s' 0
          end
      end
  end.

(** *** RegExp objects *)

Record RegExp : Type := mkRegExp {
  source : regex;
  global : bool;
  lastIndex : nat
}.

Definition setLastIndex (re : RegExp) (i : nat) : RegExp :=
  {| source := source re; global := global re; lastIndex := i |}.

(** A regular-expression literal evaluates to a fresh object. *)
Definition literal_g (r : regex) : RegExp :=
  {| source := r; global := true; lastIndex := 0 |}.
Definition literal (r : regex) : RegExp :=
  {| source := r; global := false; lastIndex := 0 |}.

(** RegExpBuiltinExec: a global expression starts at its [lastIndex] and
    stores the end of the match there, or 0 when there is none. *)
Definition exec (re : RegExp) (s : jstr) : option (nat * nat) * RegExp :=
  let start := if global re then lastIndex re else 0 in
  match execAt (source re) None s 0 start with
  | Some m => (Some m, if global re then setLastIndex re (snd m) else re)
  | None => (None, if global re then setLastIndex re 0 else re)
  end.

(** [re.test(s)] *)
Definition test (re : RegExp) (s : jstr) : bool * RegExp :=
  let (m, re') := exec re s in
  (match m with Some _ => true | None => false end, re').

(** [s.match(re)]: with the [g] flag [lastIndex] is first set to 0, every
    match is collected, and the failing last [exec] leaves [lastIndex] 0;
    the result is [null] when nothing matched.  Without the flag it is the
    first match. *)
Definition str_match (s : jstr) (re : RegExp)
    : option (list (nat * nat)) * RegExp :=
  if global re then
    match scan (source re) None s 0 0 with
    | [] => (None, setLastIndex re 0)
    | ms => (Some ms, setLastIndex re 0)
    end
  else
    match exec re s with
    | (Some m, re') => (Some [m], re')
    | (None, re') => (None, re')
    end.

(** [(s.match(re) || []).length] *)
Definition match_count (s : jstr) (re : RegExp) : nat * RegExp :=
  let (m, re') := str_match s re in
  (match m with Some ms => length ms | None => 0 end, re').

(** [s.replace(re, repl)] for a global [re] *)
Definition str_replace (s : jstr) (re : RegExp) (repl : jstr) : jstr :=
  replaceScan (source re) repl None s 0.

(** *** Writing patterns *)

Definition cu (a : ascii) : N := N_of_ascii a.

Definition one (c : N) : regex := Cls false [(c, c)].

Definition upper_cu (c : N) : N :=
  if (97 <=? c)%N && (c <=? 122)%N then (c - 32)%N else c.

(** One pattern character under the [i] flag *)
Definition one_i (c : N) : regex :=
  if N.eqb (lower_cu c) (upper_cu c) then one c
  else Cls false [(lower_cu c, lower_cu c); (upper_cu c, upper_cu c)].

Fixpoint seqs (rs : list regex) : regex :=
  match rs with
  | [] => Empty
  | [r] => r
  | r :: rest => Seq r (seqs rest)
  end.

Fixpoint alts (rs : list regex) : regex :=
  match rs with
  | [] => Cls false []
  | [r] => r
  | r :: rest => Alt r (alts rest)
  end.

Definition lit (s : string) : regex := seqs (List.map one (js s)).
Definition liti (s : string) : regex := seqs (List.map one_i (js s)).
Definition words_i (ws : list string) : regex := alts (List.map liti ws).

Definition star (r : regex) : regex := Rep 0 None r.
Definition plus (r : regex) : regex := Rep 1 None r.
Definition opt (r : regex) : regex := Rep 0 (Some 1) r.
Definition times (n : nat) (r : regex) : regex := Rep n (Some 0) r.
Definition between (n m : nat) (r : regex) : regex := Rep n (Some (m - n)) r.

Definition digit : regex := Cls false digit_ranges.
Definition wordc : regex := Cls false word_ranges.
Definition space : regex := Cls false space_ranges.
Definition dot : regex := Cls true line_terminators.
Definition singles (s : string) : list (N * N) :=
  List.map (fun c => (c, c)) (js s).

End Regex.
Export Regex.


(** ** The host: runtime and third-party functions *)

Module Runtime.

(** The numbers [JSON.parse] can return: finite ones, and the infinities a
    literal beyond the binary64 range overflows to ([NaN] has no JSON
    spelling). *)
Inductive JsNumber : Type :=
| Finite (q : Q)
| PosInf
| NegInf.

Inductive JsValue : Type :=
| JNull
| JBool (b : bool)
| JNum (n : JsNumber)
| JStr (s : jstr)
| JArr (items : list JsValue)
| JObj (fields : list (jstr * JsValue)).

(** [typeof v] restricted to what the services compare it with *)
Inductive JsType : Type := TUndefined | TBoolean | TNumber | TString | TObject.

Class Host : Type := {
  (** [String.prototype.toLowerCase] *)
  toLowerCase : jstr -> jstr;
  (** [nlp(text).has(word)] of the compromise package *)
  nlp_has : jstr -> jstr -> bool;
  (** [JSON.parse]; [None] when it throws a SyntaxError *)
  JSON_parse : jstr -> option JsValue
}.

(** [Math.round]: the nearest integer, halves towards plus infinity *)
Definition Math_round (x : Q) : Z := Qfloor (x + (1 # 2)).

(** [Math.max(lo, Math.min(hi, x))] *)
Definition clamp01 (x : Q) : Q := Qmax 0 (Qmin 1 x).

Definition Qgtb (x y : Q) : bool := negb (Qle_bool x y).
Definition Qltb (x y : Q) : bool := negb (Qle_bool y x).

Definition Qnat (n : nat) : Q := inject_Z (Z.of_nat n).

End Runtime.
Export Runtime.


(** ** nlpClassifierService.ts: feature extractor and scorer *)

Module Nlp.

(** *** The pattern tables of the service object

    Every entry carries the flags [gi]; the objects are created once, with
    the service, and shared by all calls. *)

Definition bounded (r : regex) : regex := seqs [WordB; r; WordB].

Record SpamPatterns : Type := {
  promotional : list RegExp;
  financialScam : list RegExp;
  phishing : list RegExp;
  genericSpam : list RegExp
}.

Record LegitimatePatterns : Type := {
  banking : list RegExp;
  otp : list RegExp;
  delivery : list RegExp;
  booking : list RegExp;
  service : list RegExp
}.

Record NLPClassifierService : Type := {
  spamPatterns : SpamPatterns;
  legitimatePatterns : LegitimatePatterns
}.

Definition rupee : N := 8377%N.

(** [(INR|Rs\.?|₹)\s*[\d,]+] behind a [\b] *)
Definition indian_currency : regex :=
  seqs [WordB;
        alts [liti "INR"; Seq (liti "Rs") (opt (lit ".")); one rupee];
        star space;
        plus (Cls false (digit_ranges ++ singles ","))].

Definition promotional_src : list regex :=
  [ bounded (words_i ["free"; "offer"; "discount"; "sale"; "deal";
                      "limited time"; "hurry"; "act now"]);
    bounded (words_i ["click here"; "visit"; "shop now"; "buy now"]);
    bounded (words_i ["congratulations"; "winner"; "prize"; "reward"]) ].

Definition financialScam_src : list regex :=
  [ bounded (words_i ["lottery"; "jackpot"; "million"; "billion"; "won";
                      "claim"]);
    bounded (words_i ["urgent"; "immediate action"; "verify account";
                      "suspended"]);
    bounded (words_i ["refund"; "tax return"; "inheritance";
                      "beneficiary"]) ].

Definition phishing_src : list regex :=
  [ seqs [WordB; words_i ["verify"; "confirm"; "update"; "validate"];
          lit " "; opt (liti "your ");
          words_i ["account"; "password"; "card"; "details"]; WordB];
    seqs [WordB; words_i ["click"; "tap"]; lit " ";
          opt (words_i ["this "; "the "]); words_i ["link"; "url"]; WordB];
    seqs [WordB; words_i ["expire"; "expired"; "suspended"; "locked"];
          lit " "; words_i ["account"; "card"]; WordB] ].

Definition genericSpam_src : list regex :=
  [ bounded (alts [liti "unsubscribe";
                   seqs [liti "opt"; Cls false (singles "- "); liti "out"];
                   liti "reply stop"]);
    bounded (words_i ["earn money"; "work from home"; "make $"]);
    bounded (words_i ["no credit check"; "guaranteed approval"]) ].

Definition banking_src : list regex :=
  [ bounded (words_i ["credited"; "debited"; "transaction"; "balance";
                      "account"]);
    indian_currency;
    bounded (words_i ["UPI"; "NEFT"; "RTGS"; "IMPS"]);
    bounded (words_i ["available balance"; "current balance";
                      "minimum balance"]);
    bounded (Seq (liti "thank you for ")
                 (words_i ["using"; "banking"; "shopping"])) ].

Definition otp_src : list regex :=
  [ bounded (alts [liti "OTP";
                   seqs [liti "one"; Cls false (singles "- ");
                         liti "time password"];
                   liti "verification code"; liti "security code"]);
    seqs [WordB; between 4 6 digit; WordB; star dot; WordB;
          words_i ["code"; "OTP"; "password"; "pin"]; WordB];
    seqs [WordB; liti "do not share "; opt (words_i ["this "; "your "]);
          words_i ["code"; "OTP"; "password"]; WordB];
    seqs [WordB; words_i ["valid for"; "expires in"]; lit " "; plus digit;
          opt space; words_i ["min"; "minutes"; "hour"; "hours"]; WordB] ].

Definition delivery_src : list regex :=
  [ bounded (words_i ["order"; "parcel"; "package"; "delivery"; "shipped";
                      "dispatched"]);
    bounded (alts [Seq (liti "tracking ") (words_i ["id"; "number"; "code"]);
                   liti "AWB"]);
    bounded (words_i ["out for delivery"; "delivered"; "in transit"]);
    bounded (words_i ["expected delivery"; "estimated delivery"]) ].

Definition booking_src : list regex :=
  [ bounded (words_i ["booking"; "reservation"; "confirmed"; "ticket";
                      "PNR"]);
    seqs [WordB; words_i ["flight"; "train"; "bus"; "hotel"; "movie"];
          WordB; star dot; WordB; words_i ["confirmed"; "booked"]; WordB];
    bounded (alts [Seq (liti "seat ") (words_i ["number"; "no"]);
                   liti "berth"]) ].

Definition service_src : list regex :=
  [ bounded (words_i ["appointment"; "reminder"; "scheduled"; "meeting"]);
    bounded (words_i ["bill"; "invoice"; "payment"; "due"; "statement"]);
    bounded (words_i ["subscription"; "renewal"; "plan"]) ].

(** [new NLPClassifierService()] *)
Definition newService : NLPClassifierService :=
  {| spamPatterns :=
       {| promotional := List.map literal_g promotional_src;
          financialScam := List.map literal_g financialScam_src;
          phishing := List.map literal_g phishing_src;
          genericSpam := List.map literal_g genericSpam_src |};
     legitimatePatterns :=
       {| banking := List.map literal_g banking_src;
          otp := List.map literal_g otp_src;
          delivery := List.map literal_g delivery_src;
          booking := List.map literal_g booking_src;
          service := List.map literal_g service_src |} |}.

(** The patterns the detector methods build afresh on every call *)
Definition urlPatterns : list RegExp :=
  List.map literal_g
    [ seqs [liti "http"; opt (liti "s"); lit "://"];
      liti "www.";
      seqs [WordB; plus wordc; lit ".";
            alts [liti "com"; liti "in"; liti "org"; liti "net";
                  liti "co.in"; liti "me"; liti "io"];
            WordB];
      alts [liti "bit.ly"; liti "goo.gl"; liti "tinyurl"] ].

Definition phonePatterns : list RegExp :=
  List.map literal_g
    [ bounded (times 10 digit);
      seqs [lit "+91"; opt (Cls false (space_ranges ++ singles "-"));
            times 10 digit];
      seqs [times 3 digit; Cls false (space_ranges ++ singles "-");
            times 3 digit; Cls false (space_ranges ++ singles "-");
            times 4 digit] ].

Definition moneyPatterns : list RegExp :=
  List.map literal_g
    [ indian_currency;
      seqs [lit "$"; star space;
            plus (Cls false (digit_ranges ++ singles ","))];
      seqs [WordB; plus digit; star space;
            words_i ["crore"; "lakh"; "thousand"; "million"; "billion"];
            WordB] ].

Definition urgentWords : list jstr :=
  List.map js ["urgent"; "immediately"; "now"; "hurry"; "quick"; "fast";
               "expire"; "expires"; "limited"; "today"; "act now";
               "deadline"].

Definition positiveWords : list jstr :=
  List.map js ["free"; "win"; "winner"; "congratulations"; "amazing";
               "best"].
Definition negativeWords : list jstr :=
  List.map js ["expire"; "suspend"; "block"; "urgent"; "warning";
               "alert"].

(** *** Stateful helpers over the shared RegExp objects *)

(** [patterns.some(pattern => pattern.test(text))]: stops at the first
    success; every object tested so far has had its [lastIndex] written. *)
Fixpoint some_test (ps : list RegExp) (text : jstr) : bool * list RegExp :=
  match ps with
  | [] => (false, [])
  | p :: rest =>
      let (hit, p') := test p text in
      if hit then (true, p' :: rest)
      else
        let (found, rest') := some_test rest text in
        (found, p' :: rest')
  end.

(** [patterns.forEach(pattern => { const matches = text.match(pattern);
    if (matches) count += matches.length; })] *)
Fixpoint forEach_count (ps : list RegExp) (text : jstr) (count : nat)
    : nat * list RegExp :=
  match ps with
  | [] => (count, [])
  | p :: rest =>
      let (n, p') := match_count text p in
      let (total, rest') := forEach_count rest text (count + n) in
      (total, p' :: rest')
  end.

(** *** Features *)

Record Features : Type := {
  hasURL : bool;
  hasPhoneNumber : bool;
  hasMoneyAmount : bool;
  urgencyScore : Q;
  sentimentScore : Q;
  spamKeywordCount : nat;
  legitPatternCount : nat;
  hasOTP : bool;
  hasBankingTerms : bool;
  capitalRatio : Q;
  exclamationCount : nat;
  questionCount : nat;
  wordCount : nat
}.

Record Classification : Type := {
  isSpam : bool;
  confidence : Q;
  reason : jstr;
  features : Features
}.

(** [tokenize]: [text.toLowerCase().match(/\b\w+\b/g) || []] *)
Definition tokenize `{Host} (text : jstr) : list (nat * nat) :=
  match fst (str_match (toLowerCase text)
                       (literal_g (seqs [WordB; plus wordc; WordB]))) with
  | Some ms => ms
  | None => []
  end.

Definition detectURLs (text : jstr) : bool :=
  fst (some_test urlPatterns text).

Definition detectPhoneNumbers (text : jstr) : bool :=
  fst (some_test phonePatterns text).

Definition detectMoneyAmounts (text : jstr) : bool :=
  fst (some_test moneyPatterns text).

Local Open Scope Q_scope.

Definition calculateUrgencyScore (text : jstr) : Q :=
  let score :=
    fold_left (fun score word =>
                 if includes text word then score + (1 # 10) else score)
              urgentWords 0 in
  let exclamations := fst (match_count text (literal_g (plus (lit "!")))) in
  let score := score + Qmin (Qnat exclamations * (5 # 100)) (3 # 10) in
  Qmin score 1.

Definition analyzeSentiment `{Host} (text : jstr) : Q :=
  let sentiment :=
    fold_left (fun s word => if nlp_has text word then s + (1 # 10) else s)
              positiveWords 0 in
  fold_left (fun s word => if nlp_has text word then s - (1 # 10) else s)
            negativeWords sentiment.

Definition countSpamKeywords (sp : SpamPatterns) (text : jstr)
    : nat * SpamPatterns :=
  let (c1, f1) := forEach_count (promotional sp) text 0%nat in
  let (c2, f2) := forEach_count (financialScam sp) text c1 in
  let (c3, f3) := forEach_count (phishing sp) text c2 in
  let (c4, f4) := forEach_count (genericSpam sp) text c3 in
  (c4, {| promotional := f1; financialScam := f2; phishing := f3;
          genericSpam := f4 |}).

Definition countLegitimatePatterns (lp : LegitimatePatterns) (text : jstr)
    : nat * LegitimatePatterns :=
  let (c1, f1) := forEach_count (banking lp) text 0%nat in
  let (c2, f2) := forEach_count (otp lp) text c1 in
  let (c3, f3) := forEach_count (delivery lp) text c2 in
  let (c4, f4) := forEach_count (booking lp) text c3 in
  let (c5, f5) := forEach_count (service lp) text c4 in
  (c5, {| banking := f1; otp := f2; delivery := f3; booking := f4;
          service := f5 |}).

Definition detectOTP (lp : LegitimatePatterns) (text : jstr)
    : bool * LegitimatePatterns :=
  let (found, ps) := some_test (otp lp) text in
  (found, {| banking := banking lp; otp := ps; delivery := delivery lp;
             booking := booking lp; service := service lp |}).

Definition detectBankingTerms (lp : LegitimatePatterns) (text : jstr)
    : bool * LegitimatePatterns :=
  let (found, ps) := some_test (banking lp) text in
  (found, {| banking := ps; otp := otp lp; delivery := delivery lp;
             booking := booking lp; service := service lp |}).

Definition calculateCapitalRatio (text : jstr) : Q :=
  let letters :=
    str_replace text (literal_g (Cls true [(97, 122); (65, 90)]%N)) [] in
  if (length letters =? 0)%nat then 0
  else
    let capitals :=
      str_replace text (literal_g (Cls true [(65, 90)]%N)) [] in
    Qnat (length capitals) / Qnat (length letters).

(** *** Scoring *)

Definition calculateSpamScore (f : Features) : Q :=
  let score := 1 # 2 in
  let score :=
    if (0 <? spamKeywordCount f)%nat
    then score + Qnat (spamKeywordCount f) * (15 # 100) else score in
  let score := if Qgtb (urgencyScore f) (1 # 2) then score + (2 # 10) else score in
  let score := if Qgtb (capitalRatio f) (1 # 2) then score + (15 # 100) else score in
  let score := if (2 <? exclamationCount f)%nat then score + (1 # 10) else score in
  let score :=
    if hasURL f && negb (hasBankingTerms f) then score + (2 # 10) else score in
  let score :=
    if (0 <? legitPatternCount f)%nat
    then score - Qnat (legitPatternCount f) * (2 # 10) else score in
  let score := if hasOTP f then score - (4 # 10) else score in
  let score := if hasBankingTerms f then score - (3 # 10) else score in
  let score :=
    if hasMoneyAmount f && hasBankingTerms f then score - (2 # 10) else score in
  Qmax 0 (Qmin 1 score).

Definition push_if (c : bool) (item : jstr) (reasons : list jstr)
    : list jstr :=
  if c then reasons ++ [item] else reasons.

Definition generateReason (f : Features) (isSpam : bool) (score : Q) : jstr :=
  if isSpam then
    let reasons := [] in
    let reasons :=
      push_if (0 <? spamKeywordCount f)%nat
              (str_of_nat (spamKeywordCount f) ++ js " spam keyword(s)")
              reasons in
    let reasons :=
      push_if (Qgtb (urgencyScore f) (1 # 2)) (js "urgent language") reasons in
    let reasons :=
      push_if (Qgtb (capitalRatio f) (1 # 2)) (js "excessive capitalization")
              reasons in
    let reasons := push_if (hasURL f) (js "contains suspicious link") reasons in
    let reasons :=
      push_if (2 <? exclamationCount f)%nat (js "multiple exclamation marks")
              reasons in
    if (0 <? length reasons)%nat
    then js "Spam detected: " ++ join (js ", ") reasons
    else js "Spam pattern detected"
  else
    let reasons := [] in
    let reasons := push_if (hasOTP f) (js "OTP/verification code") reasons in
    let reasons :=
      push_if (hasBankingTerms f) (js "banking transaction") reasons in
    let reasons :=
      push_if (0 <? legitPatternCount f)%nat
              (str_of_nat (legitPatternCount f) ++ js " legitimate pattern(s)")
              reasons in
    if (0 <? length reasons)%nat
    then js "Legitimate: " ++ join (js ", ") reasons
    else js "No spam indicators found".

(** The object literal of [classifyMessage]: its properties are evaluated
    in source order, on the one service object. *)
Definition extractFeatures `{Host} (svc : NLPClassifierService)
    (message : jstr) : Features * NLPClassifierService :=
  let text := toLowerCase message in
  let f_hasURL := detectURLs text in
  let f_hasPhoneNumber := detectPhoneNumbers text in
  let f_hasMoneyAmount := detectMoneyAmounts text in
  let f_urgencyScore := calculateUrgencyScore text in
  let f_sentimentScore := analyzeSentiment text in
  let (f_spamKeywordCount, sp) := countSpamKeywords (spamPatterns svc) text in
  let (f_legitPatternCount, lp) :=
    countLegitimatePatterns (legitimatePatterns svc) text in
  let (f_hasOTP, lp) := detectOTP lp text in
  let (f_hasBankingTerms, lp) := detectBankingTerms lp text in
  let f_capitalRatio := calculateCapitalRatio message in
  let f_exclamationCount := fst (match_count message (literal_g (lit "!"))) in
  let f_questionCount := fst (match_count message (literal_g (lit "?"))) in
  let f_wordCount := length (tokenize text) in
  ({| hasURL := f_hasURL;
      hasPhoneNumber := f_hasPhoneNumber;
      hasMoneyAmount := f_hasMoneyAmount;
      urgencyScore := f_urgencyScore;
      sentimentScore := f_sentimentScore;
      spamKeywordCount := f_spamKeywordCount;
      legitPatternCount := f_legitPatternCount;
      hasOTP := f_hasOTP;
      hasBankingTerms := f_hasBankingTerms;
      capitalRatio := f_capitalRatio;
      exclamationCount := f_exclamationCount;
      questionCount := f_questionCount;
      wordCount := f_wordCount |},
   {| spamPatterns := sp; legitimatePatterns := lp |}).

(** The tail of [classifyMessage], from the score on *)
Definition score_features (f : Features) : Classification :=
  let score := calculateSpamScore f in
  let isSpam := Qgtb score (1 # 2) in
  let confidence := Qabs (score - (1 # 2)) * 2 in
  let reason := generateReason f isSpam score in
  {| isSpam := isSpam;
     confidence := inject_Z (Math_round (confidence * 100)) / 100;
     reason := reason;
     features := f |}.

Definition classifyMessage `{Host} (svc : NLPClassifierService)
    (message : jstr) : Classification * NLPClassifierService :=
  let (f, svc') := extractFeatures svc message in
  (score_features f, svc').

End Nlp.


(** ** Completions and a state-and-exception monad

    A JavaScript call either returns or throws; whichever it does, the
    writes it made to the objects it can reach stay. *)

Module Eff.

Inductive Completion (A : Type) : Type :=
| Normal (a : A)
| Throw (message : jstr).
Arguments Normal {A} a.
Arguments Throw {A} message.

Definition M (S A : Type) : Type := S -> Completion A * S.

Definition ret {S A : Type} (a : A) : M S A := fun s => (Normal a, s).

Definition throw {S A : Type} (message : jstr) : M S A :=
  fun s => (Throw message, s).

Definition bind {S A B : Type} (c : M S A) (k : A -> M S B) : M S B :=
  fun s =>
    match c s with
    | (Normal a, s') => k a s'
    | (Throw e, s') => (Throw e, s')
    end.

(** [try { c } catch (error) { handler }] *)
Definition try_catch {S A : Type} (c : M S A) (handler : jstr -> M S A)
    : M S A :=
  fun s =>
    match c s with
    | (Normal a, s') => (Normal a, s')
    | (Throw e, s') => handler e s'
    end.

Definition get {S : Type} : M S S := fun s => (Normal s, s).
Definition put {S : Type} (s : S) : M S unit := fun _ => (Normal tt, s).
Definition modify {S : Type} (f : S -> S) : M S unit :=
  fun s => (Normal tt, f s).

(** Run a computation on one component of a larger state. *)
Definition zoom {S T A : Type} (proj : S -> T) (inj : T -> S -> S)
    (c : M T A) : M S A :=
  fun s => let (r, t') := c (proj s) in (r, inj t' s).

(** [for (const x of xs) { body }] *)
Fixpoint for_of {S A : Type} (xs : list A) (body : A -> M S unit)
    : M S unit :=
  match xs with
  | [] => ret tt
  | x :: rest => bind (body x) (fun _ => for_of rest body)
  end.

Definition returned {A : Type} (c : Completion A) : bool :=
  match c with
  | Normal _ => true
  | Throw _ => false
  end.

(** [triple P c Q E]: started in a state of [P], the computation [c]
    returns some [a] in a state of [Q a], or throws in a state of [E]. *)
Definition triple {S A : Type} (P : S -> Prop) (c : M S A)
    (Q : A -> S -> Prop) (E : S -> Prop) : Prop :=
  forall s, P s ->
    match c s with
    | (Normal a, s') => Q a s'
    | (Throw _, s') => E s'
    end.

(** [c] keeps [I], however it ends. *)
Definition keeps {S A : Type} (I : S -> Prop) (c : M S A) : Prop :=
  triple I c (fun _ => I) I.

End Eff.
Export Eff.

Notation "'let*' x ':=' c 'in' k" := (bind c (fun x => k))
  (at level 10, x pattern, c at level 100, k at level 200).
Notation "'run' c 'then' k" := (bind c (fun _ => k))
  (at level 10, c at level 100, k at level 200).


(** ** utils/textPreprocessing.ts *)

Module TextPreprocessing.

Definition url_re : RegExp :=
  literal_g (seqs [lit "http"; opt (lit "s"); lit "://";
                   plus (Cls true space_ranges)]).

Definition email_re : RegExp :=
  let name := Cls false (word_ranges ++ singles ".-") in
  literal_g (seqs [plus name; lit "@"; plus name; lit "."; plus wordc]).

Definition phone_re : RegExp :=
  let sep := opt (Cls false (singles "-." ++ space_ranges)) in
  literal_g
    (seqs [opt (seqs [opt (lit "+"); between 1 3 digit; sep]);
           opt (lit "("); times 3 digit; opt (lit ")"); sep;
           times 3 digit; sep; times 4 digit]).

Definition punctuation_re : RegExp :=
  literal_g (Cls true (word_ranges ++ space_ranges ++ singles "'")).

Definition spaces_re : RegExp := literal_g (plus space).

Definition isSpace (c : N) : bool := in_ranges c space_ranges.

Fixpoint trimStart (s : jstr) : jstr :=
  match s with
  | c :: s' => if isSpace c then trimStart s' else s
  | [] => []
  end.

(** [String.prototype.trim] *)
Definition trim (s : jstr) : jstr := rev (trimStart (rev (trimStart s))).

Definition preprocessText `{Host} (text : jstr) : jstr :=
  match text with
  | [] => []
  | _ =>
      let processed := toLowerCase text in
      let processed := str_replace processed url_re (js " ") in
      let processed := str_replace processed email_re (js " ") in
      let processed := str_replace processed phone_re (js " ") in
      let processed := str_replace processed punctuation_re (js " ") in
      trim (str_replace processed spaces_re (js " "))
  end.

(** [s.split(' ')]: the pieces between single spaces; the accumulator
    holds the piece being read, reversed. *)
Fixpoint split_space (s : jstr) (piece : jstr) : list jstr :=
  match s with
  | [] => [rev piece]
  | c :: s' =>
      if cu_eqb c 32 then rev piece :: split_space s' []
      else split_space s' (c :: piece)
  end.

Definition tokenize `{Host} (text : jstr) : list jstr :=
  List.filter (fun word => 0 <? length word)
              (split_space (preprocessText text) []).

Definition containsSpamKeywords `{Host} (text : jstr) (keywords : list jstr)
    : bool :=
  let processed := preprocessText text in
  existsb (fun keyword => includes processed (toLowerCase keyword)) keywords.

Definition calculateKeywordSpamScore `{Host} (text : jstr)
    (keywords : list jstr) : Q :=
  let tokens := tokenize text in
  if length tokens =? 0 then 0%Q
  else
    let processedKeywords := List.map toLowerCase keywords in
    let matchCount :=
      fold_left
        (fun matchCount token =>
           if existsb (fun keyword =>
                         includes keyword token || includes token keyword)
                      processedKeywords
           then S matchCount else matchCount)
        tokens 0 in
    Qmin (Qnat matchCount / Qnat (length tokens)) 1.

Definition truncateText (text : jstr) (maxLength : nat) : jstr :=
  if length text <=? maxLength then text
  else substring0 text maxLength ++ js "...".

End TextPreprocessing.


(** ** services/classificationService.ts: AI adjudicator and fallback *)

Module Classification.

Import TextPreprocessing.

Record ClassificationResult : Type := {
  isSpam : bool;
  confidence : Q;
  reason : jstr
}.

(** [SPAM_KEYWORDS] of [types/index.ts] *)
Definition SPAM_KEYWORDS : list jstr :=
  List.map js
    ["lottery"; "winner"; "congratulations"; "claim"; "prize"; "urgent";
     "limited time"; "act now"; "click here"; "free"; "cash"; "discount";
     "offer"; "deal"; "credit"; "loan"; "debt"; "investment"; "earn money";
     "work from home"; "bitcoin"; "crypto"; "viagra"; "pharmacy"; "pills";
     "weight loss"; "enlarge"; "singles"; "dating"; "verify account";
     "suspended"; "confirm"; "reset password"; "bank account";
     "social security"; "irs"; "refund"; "tax"; "gift card"].

(** The service object.  The two SDK handles are opaque to the service;
    they are represented by the key and the model name they were made
    from. *)
Record ClassificationService : Type := {
  genAI : option jstr;
  model : option jstr;
  apiKey : option jstr;
  rateLimitMs : Z;
  lastCallTime : Z
}.

Definition newService : ClassificationService :=
  {| genAI := None; model := None; apiKey := None;
     rateLimitMs := 2000; lastCallTime := 0 |}.

(** What one call of the generative model does: it answers with a text,
    or the request (or reading the answer) throws. *)
Inductive AiReply : Type :=
| ReplyText (responseText : jstr)
| ReplyFails (error : jstr).

(** The surroundings of one adjudication: the model behind the network
    and the two readings of [Date.now()] in [waitForRateLimit]. *)
Record Network : Type := {
  generateContent : jstr -> AiReply;
  now_before : Z;
  now_after : Z
}.

(** The service together with the requests that have left it *)
Record World : Type := {
  svc : ClassificationService;
  prompts : list jstr
}.

Definition on_svc (f : ClassificationService -> ClassificationService)
    (w : World) : World :=
  {| svc := f (svc w); prompts := prompts w |}.

Definition initialize (key : jstr) (rateLimit : Z) : M World unit :=
  match key with
  | [] => throw (js "Gemini API key is required")
  | _ =>
      modify (on_svc (fun s =>
        {| genAI := Some key; model := Some (js "gemini-1.5-flash");
           apiKey := Some key; rateLimitMs := rateLimit;
           lastCallTime := lastCallTime s |}))
  end.

Definition isInitialized (s : ClassificationService) : bool :=
  match genAI s, model s with
  | Some _, Some _ => true
  | _, _ => false
  end.


Definition waitForRateLimit (net : Network) : M World unit :=
  modify (on_svc (fun s =>
    {| genAI := genAI s; model := model s; apiKey := apiKey s;
       rateLimitMs := rateLimitMs s; lastCallTime := now_after net |})).

Definition quote : jstr := [34%N].
Definition nl : jstr := [10%N].

Definition prompt_of (truncated : jstr) : jstr :=
  js "You are an SMS spam detector. Analyze the following SMS message and classify it as spam or ham (not spam)."
  ++ nl ++ nl ++ js "SMS Message: " ++ quote ++ truncated ++ quote
  ++ nl ++ nl
  ++ js "Classify this message and respond with ONLY valid JSON in this exact format:"
  ++ nl ++ js "{" ++ nl
  ++ js "  " ++ quote ++ js "isSpam" ++ quote ++ js ": true or false," ++ nl
  ++ js "  " ++ quote ++ js "confidence" ++ quote ++ js ": 0.0 to 1.0," ++ nl
  ++ js "  " ++ quote ++ js "reason" ++ quote ++ js ": " ++ quote
  ++ js "brief one-sentence explanation" ++ quote ++ nl
  ++ js "}" ++ nl ++ nl
  ++ js "Consider these spam indicators:" ++ nl
  ++ js "- Unsolicited offers, prizes, or giveaways" ++ nl
  ++ js "- Urgent calls to action (limited time, act now)" ++ nl
  ++ js "- Requests for personal/financial information" ++ nl
  ++ js "- Suspicious links or phone numbers" ++ nl
  ++ js "- Poor grammar or excessive capital letters" ++ nl
  ++ js "- Financial schemes (loans, investments, crypto)" ++ nl
  ++ js "- Phishing attempts" ++ nl ++ nl
  ++ js "Respond ONLY with the JSON object, no other text.".

(** [model.generateContent(prompt)], [result.response], [response.text()] *)
Definition callModel (net : Network) (prompt : jstr) : M World jstr :=
  run modify (fun w => {| svc := svc w; prompts := prompts w ++ [prompt] |})
  then match generateContent net prompt with
       | ReplyText t => ret t
       | ReplyFails e => throw e
       end.

(** [/\{[\s\S]*\}/]: from the first opening brace to the last closing one *)
Definition json_re : RegExp :=
  literal (seqs [lit "{"; star (Cls true []); lit "}"]).

Definition slice (s : jstr) (m : nat * nat) : jstr :=
  firstn (snd m - fst m) (skipn (fst m) s).

(** [parsed.name]: reading a property of [null] throws a TypeError, a
    missing property is [undefined]. *)
Definition getProp {S : Type} (v : JsValue) (name : string)
    : M S (option JsValue) :=
  match v with
  | JNull => throw (js "TypeError: Cannot read properties of null")
  | JObj fields =>
      ret (match List.find (fun kv => jstr_eqb (fst kv) (js name)) fields with
           | Some kv => Some (snd kv)
           | None => None
           end)
  | _ => ret None
  end.

Definition typeof (v : option JsValue) : JsType :=
  match v with
  | None => TUndefined
  | Some (JBool _) => TBoolean
  | Some (JNum _) => TNumber
  | Some (JStr _) => TString
  | Some _ => TObject
  end.

(** [Math.max(0, Math.min(1, x))] on a number of JSON *)
Definition clampNumber (n : JsNumber) : Q :=
  match n with
  | Finite q => clamp01 q
  | PosInf => 1%Q
  | NegInf => 0%Q
  end.

(** The body of the [try] block that reads the model's answer *)
Definition parseResponse `{Host} {S : Type} (responseText : jstr)
    : M S ClassificationResult :=
  match fst (exec json_re responseText) with
  | None => throw (js "No JSON found in response")
  | Some jsonMatch =>
      match JSON_parse (slice responseText jsonMatch) with
      | None => throw (js "SyntaxError")
      | Some parsed =>
          let* p_isSpam := getProp parsed "isSpam" in
          let* p_confidence := getProp parsed "confidence" in
          let* p_reason := getProp parsed "reason" in
          match p_isSpam, p_confidence, p_reason with
          | Some (JBool b), Some (JNum n), Some (JStr r) =>
              ret {| isSpam := b; confidence := clampNumber n; reason := r |}
          | _, _, _ => throw (js "Invalid response structure")
          end
      end
  end.

Definition classifyWithAI `{Host} (net : Network) (text : jstr)
    : M World ClassificationResult :=
  let* w := get in
  match model (svc w) with
  | None => throw (js "Classification service not initialized")
  | Some _ =>
      run waitForRateLimit net
      then let processed := preprocessText text in
           let truncated := truncateText processed 500 in
           let prompt := prompt_of truncated in
           let* responseText := callModel net prompt in
           try_catch (parseResponse responseText)
                     (fun parseError => throw (js "Invalid AI response format"))
  end.

Definition classifyWithKeywords `{Host} (text : jstr) : ClassificationResult :=
  let score := calculateKeywordSpamScore text SPAM_KEYWORDS in
  let isSpam := Qgtb score (15 # 100) in
  {| isSpam := isSpam;
     confidence := Qmin (score * 2) (85 # 100);
     reason :=
       if isSpam
       then js "Detected spam keywords ("
            ++ str_of_Z (Math_round (score * 100))
            ++ js "% match). Using fallback detection."
       else js "No significant spam keywords detected. Using fallback detection."
  |}.

Definition classifyMessage `{Host} (net : Network) (text : jstr)
    : M World ClassificationResult :=
  let* w := get in
  if isInitialized (svc w)
  then try_catch (classifyWithAI net text)
                 (fun error => ret (classifyWithKeywords text))
  else ret (classifyWithKeywords text).

(** [reset()] *)
Definition reset : M World unit :=
  modify (on_svc (fun s =>
    {| genAI := None; model := None; apiKey := None;
       rateLimitMs := rateLimitMs s; lastCallTime := 0 |})).


(** The elements of the argument and of the result of [classifyBatch]:
    [{ id, text }] and [{ id, result }] *)
Record BatchMessage : Type := {
  msg_id : jstr;
  msg_text : jstr
}.

Record BatchResult : Type := {
  res_id : jstr;
  res_result : ClassificationResult
}.

(** The loop of [classifyBatch], [results] being the array built so far.
    [nets k] is the network as it is for the request that follows the
    first [k] ones. *)
Fixpoint classifyBatch_from `{Host} (nets : nat -> Network)
    (messages : list BatchMessage) (results : list BatchResult)
    : M World (list BatchResult) :=
  match messages with
  | [] => ret results
  | message :: rest =>
      let* w := get in
      let* results' :=
        try_catch
          (let* result :=
             classifyMessage (nets (length (prompts w))) (msg_text message) in
           ret (results ++ [{| res_id := msg_id message;
                               res_result := result |}]))
          (fun error =>
             ret (results ++
                  [{| res_id := msg_id message;
                      res_result := classifyWithKeywords (msg_text message) |}]))
      in
      classifyBatch_from nets rest results'
  end.

Definition classifyBatch `{Host} (nets : nat -> Network)
    (messages : list BatchMessage) : M World (list BatchResult) :=
  classifyBatch_from nets messages [].

(** What [testClassification] resolves to *)
Record TestOutcome : Type := {
  success : bool;
  error : option jstr;
  result : option ClassificationResult
}.

Definition testMessage : jstr :=
  js "URGENT! You have won $1,000,000! Click here to claim your prize now!".

Definition testClassification `{Host} (net : Network) : M World TestOutcome :=
  try_catch
    (let* r := classifyMessage net testMessage in
     ret {| success := true; error := None; result := Some r |})
    (fun message =>
       ret {| success := false; error := Some message; result := None |}).

End Classification.


(** ** types/index.ts *)

Module Types.

(** [isSpam] is [null] until the message is classified; the optional
    properties are [undefined] until then. *)
Record SMSMessage : Type := {
  id : jstr;
  sender : jstr;
  body : jstr;
  timestamp : Z;
  isSpam : option bool;
  confidence : option Q;
  reason : option jstr;
  classifiedAt : option Z
}.

Record MessageStats : Type := {
  totalMessages : nat;
  spamCount : nat;
  hamCount : nat;
  unclassifiedCount : nat;
  lastUpdated : Z
}.

End Types.


(** ** services/telegramService.ts: notifications and the offline queue *)

Module Telegram.

Import Types.

Record TelegramConfig : Type := {
  botToken : jstr;
  chatId : jstr;
  enabled : bool
}.

Record QueueItem : Type := {
  message : SMSMessage;
  retries : nat
}.

(** The service object; the HTTP client is represented by its base URL. *)
Record TelegramService : Type := {
  config : option TelegramConfig;
  client : option jstr;
  queue : list QueueItem;
  isProcessing : bool
}.

Definition newService : TelegramService :=
  {| config := None; client := None; queue := []; isProcessing := false |}.

(** The channel: whether the [n]-th POST to [/sendMessage] (counted from
    0) comes back with [ok: true]; a transport error and an answer
    without [ok] both make [sendMessage] throw.  [formatTimestamp] reads
    the wall clock and the locale, so its text is the channel's too. *)
Record Channel : Type := {
  acknowledges : nat -> bool;
  formatTimestamp : Z -> jstr
}.

(** The service and the number of requests that have left it *)
Record World : Type := {
  tg : TelegramService;
  posts : nat
}.

Definition on_tg (f : TelegramService -> TelegramService) (w : World)
    : World :=
  {| tg := f (tg w); posts := posts w |}.

Definition set_queue (q : list QueueItem) (s : TelegramService)
    : TelegramService :=
  {| config := config s; client := client s; queue := q;
     isProcessing := isProcessing s |}.

Definition set_isProcessing (b : bool) (s : TelegramService)
    : TelegramService :=
  {| config := config s; client := client s; queue := queue s;
     isProcessing := b |}.

Definition initialize (token chat : jstr) (enable : bool) : M World unit :=
  match token, chat with
  | _ :: _, _ :: _ =>
      modify (on_tg (fun s =>
        {| config := Some {| botToken := token; chatId := chat;
                             enabled := enable |};
           client := Some (js "https://api.telegram.org/bot" ++ token);
           queue := queue s; isProcessing := isProcessing s |}))
  | _, _ => throw (js "Telegram bot token and chat ID are required")
  end.

Definition isInitialized (s : TelegramService) : bool :=
  match config s, client s with
  | Some _, Some _ => true
  | _, _ => false
  end.

(** [this.config?.enabled ?? false] *)
Definition isEnabled (s : TelegramService) : bool :=
  match config s with
  | Some c => enabled c
  | None => false
  end.

Definition sendMessage (ch : Channel) (text : jstr) : M World unit :=
  let* w := get in
  match client (tg w), config (tg w) with
  | Some _, Some _ =>
      run put {| tg := tg w; posts := S (posts w) |}
      then if acknowledges ch (posts w) then ret tt
           else throw (js "Telegram API error")
  | _, _ => throw (js "Telegram service not initialized")
  end.

(** [truncateText] of [utils/helpers.ts] *)
Definition truncateText (text : jstr) (maxLength : nat) : jstr :=
  if length text <=? maxLength then text
  else substring0 text maxLength ++ js "...".

Definition nl : jstr := [10%N].
Definition siren : jstr := [55357; 57000]%N.

Definition formatSpamMessage (ch : Channel) (m : SMSMessage) : jstr :=
  let sender := match sender m with [] => js "Unknown" | s => s end in
  let timestamp := formatTimestamp ch (timestamp m) in
  let confidence :=
    match confidence m with
    | Some c =>
        if Qeq_bool c 0 then js "N/A"
        else str_of_Z (Math_round (c * 100)) ++ js "%"
    | None => js "N/A"
    end in
  let body := truncateText (body m) 200 in
  let reason :=
    match reason m with
    | Some ((_ :: _) as r) => truncateText r 100
    | _ => js "N/A"
    end in
  siren ++ js " *Spam Detected*" ++ nl ++ nl
  ++ js "*From:* " ++ sender ++ nl
  ++ js "*Time:* " ++ timestamp ++ nl
  ++ js "*Confidence:* " ++ confidence ++ nl ++ nl
  ++ js "*Message:*" ++ nl ++ body ++ nl ++ nl
  ++ js "*Reason:*" ++ nl ++ reason ++ nl ++ nl
  ++ js "---" ++ nl ++ js "SMS Spam Detector RN".

(** The queue holds at most 50 items; the oldest makes room. *)
Definition addToQueue (m : SMSMessage) : M World unit :=
  modify (on_tg (fun s =>
    let q := if 50 <=? length (queue s) then tl (queue s) else queue s in
    set_queue (q ++ [{| message := m; retries := 0 |}]) s)).

Definition sendSpamNotification (ch : Channel) (m : SMSMessage)
    : M World bool :=
  let* w := get in
  if negb (isInitialized (tg w)) || negb (isEnabled (tg w)) then ret false
  else
    try_catch
      (let text := formatSpamMessage ch m in
       run sendMessage ch text then ret true)
      (fun error => run addToQueue m then ret false).

Record Counts : Type := {
  sent : nat;
  failed : nat
}.

Definition no_counts : Counts := {| sent := 0; failed := 0 |}.

(** The synchronous head of [processQueue]: the guard, the flag, the
    snapshot of the queue and its emptying.  [None] stands for the early
    [return { sent: 0, failed: 0 }]. *)
Definition processQueue_begin : M World (option (list QueueItem)) :=
  let* w := get in
  if negb (isInitialized (tg w)) || negb (isEnabled (tg w))
     || isProcessing (tg w)
  then ret None
  else
    run modify (on_tg (set_isProcessing true))
    then let itemsToProcess := queue (tg w) in
         run modify (on_tg (set_queue []))
         then ret (Some itemsToProcess).

(** One turn of the [for] loop: the [try] with its [catch] *)
Definition processItem (ch : Channel) (item : QueueItem) (c : Counts)
    : M World Counts :=
  try_catch
    (run sendSpamNotification ch (message item)
     then ret {| sent := S (sent c); failed := failed c |})
    (fun error =>
       let item' := {| message := message item;
                       retries := S (retries item) |} in
       if retries item' <? 3
       then run modify (on_tg (fun s => set_queue (queue s ++ [item']) s))
            then ret c
       else ret {| sent := sent c; failed := S (failed c) |}).

Fixpoint processItems (ch : Channel) (items : list QueueItem) (c : Counts)
    : M World Counts :=
  match items with
  | [] => ret c
  | item :: rest =>
      let* c' := processItem ch item c in
      processItems ch rest c'
  end.

Definition processQueue_end (c : Counts) : M World Counts :=
  run modify (on_tg (set_isProcessing false)) then ret c.

Definition processQueue (ch : Channel) : M World Counts :=
  let* started := processQueue_begin in
  match started with
  | None => ret no_counts
  | Some itemsToProcess =>
      let* c := processItems ch itemsToProcess no_counts in
      processQueue_end c
  end.

Definition getQueueSize (s : TelegramService) : nat := length (queue s).

(** [setEnabled(enabled)]: nothing to set before [initialize] *)
Definition setEnabled (enable : bool) : M World unit :=
  modify (on_tg (fun s =>
    match config s with
    | Some c =>
        {| config := Some {| botToken := botToken c; chatId := chatId c;
                             enabled := enable |};
           client := client s; queue := queue s;
           isProcessing := isProcessing s |}
    | None => s
    end)).

Definition clearQueue : M World unit := modify (on_tg (set_queue [])).

(** [reset()] *)
Definition reset : M World unit := modify (on_tg (fun _ => newService)).

(** What [testNotification] resolves to *)
Record TestOutcome : Type := {
  success : bool;
  error : option jstr
}.

Definition check_mark : jstr := [9989%N].

Definition testNotification (ch : Channel) : M World TestOutcome :=
  let* w := get in
  if negb (isInitialized (tg w))
  then ret {| success := false;
              error := Some (js "Service not initialized") |}
  else
    try_catch
      (run sendMessage ch
             (check_mark ++ js " Test notification from SMS Spam Detector RN")
       then ret {| success := true; error := None |})
      (fun message => ret {| success := false; error := Some message |}).

End Telegram.


(** ** services/databaseService.ts: the message store *)

Module Database.

Import Types.

(** A row of [sms_messages]; the primary key [id] is the key of the map. *)
Record Row : Type := {
  r_sender : jstr;
  r_body : jstr;
  r_timestamp : Z;
  is_spam : option bool;
  r_confidence : option Q;
  r_reason : option jstr;
  classified_at : option Z;
  created_at : Z
}.

(** The service holds a handle ([db !== null]); the table is on disk. *)
Record World : Type := {
  opened : bool;
  sms_messages : gmap (list N) Row
}.

(** What the store depends on: whether the database can be opened, and
    the clock that [Date.now()] and the [created_at] default read. *)
Record Storage : Type := {
  canOpen : bool;
  clock : Z
}.

Definition set_rows (rows : gmap (list N) Row) (w : World) : World :=
  {| opened := opened w; sms_messages := rows |}.

Definition ensureInitialized (st : Storage) : M World unit :=
  let* w := get in
  if opened w then ret tt
  else if canOpen st
       then put {| opened := true; sms_messages := sms_messages w |}
       else throw (js "Database failed to initialize").

(** [INSERT OR REPLACE INTO sms_messages ...]: a row with the same key
    is replaced as a whole. *)
Definition insertMessage (st : Storage) (m : SMSMessage) : M World unit :=
  run ensureInitialized st
  then modify (fun w =>
         set_rows (<[ id m :=
                      {| r_sender := sender m; r_body := body m;
                         r_timestamp := timestamp m; is_spam := isSpam m;
                         r_confidence := confidence m; r_reason := reason m;
                         classified_at := classifiedAt m;
                         created_at := clock st |} ]> (sms_messages w)) w).

(** [UPDATE sms_messages SET ... WHERE id = ?] *)
Definition updateClassification (st : Storage) (messageId : jstr)
    (spam : bool) (conf : Q) (why : jstr) : M World unit :=
  run ensureInitialized st
  then modify (fun w =>
         set_rows (alter (fun r =>
                      {| r_sender := r_sender r; r_body := r_body r;
                         r_timestamp := r_timestamp r; is_spam := Some spam;
                         r_confidence := Some conf; r_reason := Some why;
                         classified_at := Some (clock st);
                         created_at := created_at r |})
                    messageId (sms_messages w)) w).

Definition mapRowToMessage (key : jstr) (r : Row) : SMSMessage :=
  {| id := key; sender := r_sender r; body := r_body r;
     timestamp := r_timestamp r; isSpam := is_spam r;
     confidence := r_confidence r; reason := r_reason r;
     classifiedAt := classified_at r |}.

(** [SELECT * FROM sms_messages WHERE id = ? LIMIT 1] *)
Definition getMessage (st : Storage) (messageId : jstr)
    : M World (option SMSMessage) :=
  run ensureInitialized st
  then let* w := get in
       ret (match sms_messages w !! messageId with
            | Some r => Some (mapRowToMessage messageId r)
            | None => None
            end).

(** [DELETE FROM sms_messages WHERE id = ?] *)
Definition deleteMessage (st : Storage) (messageId : jstr) : M World unit :=
  run ensureInitialized st
  then modify (fun w => set_rows (delete messageId (sms_messages w)) w).

(** [DELETE FROM sms_messages] *)
Definition clearAllMessages (st : Storage) : M World unit :=
  run ensureInitialized st
  then modify (set_rows (empty : gmap (list N) Row)).

(** [SUM(CASE WHEN ... THEN 1 ELSE 0 END)] over the table; the [NULL] of
    a sum over no rows is read as 0 by [result?.x || 0]. *)
Definition count_where (p : Row -> bool) (rows : gmap (list N) Row) : nat :=
  length (List.filter (fun kr => p (snd kr)) (map_to_list rows)).

Definition getStats (st : Storage) : M World MessageStats :=
  run ensureInitialized st
  then let* w := get in
       let rows := sms_messages w in
       ret {| totalMessages := length (map_to_list rows);
              spamCount :=
                count_where (fun r => match is_spam r with
                                      | Some true => true
                                      | _ => false
                                      end) rows;
              hamCount :=
                count_where (fun r => match is_spam r with
                                      | Some false => true
                                      | _ => false
                                      end) rows;
              unclassifiedCount :=
                count_where (fun r => match is_spam r with
                                      | None => true
                                      | _ => false
                                      end) rows;
              lastUpdated := clock st |}.

(** [ORDER BY timestamp DESC].  SQL leaves the order of rows with equal
    timestamps to the engine; here they keep the order of the scan. *)
Fixpoint insert_desc (x : jstr * Row) (l : list (jstr * Row))
    : list (jstr * Row) :=
  match l with
  | [] => [x]
  | y :: l' =>
      if (r_timestamp (snd y) <? r_timestamp (snd x))%Z then x :: l
      else y :: insert_desc x l'
  end.

Definition order_by_timestamp_desc (l : list (jstr * Row))
    : list (jstr * Row) :=
  fold_right insert_desc [] l.

(** [SELECT * FROM sms_messages WHERE is_spam IS NULL
     ORDER BY timestamp DESC LIMIT ?] *)
Definition getUnclassifiedMessages (st : Storage) (limit : nat)
    : M World (list SMSMessage) :=
  run ensureInitialized st
  then let* w := get in
       let results :=
         firstn limit
           (order_by_timestamp_desc
              (List.filter (fun kr => match is_spam (snd kr) with
                                      | None => true
                                      | Some _ => false
                                      end)
                           (map_to_list (sms_messages w)))) in
       ret (List.map (fun kr => mapRowToMessage (fst kr) (snd kr)) results).

End Database.


(** ** services/smsMonitoringService.ts: the ingestion coordinator *)

Module Monitoring.

Import Types.

Record NativeSmsMessage : Type := {
  n_id : jstr;
  n_sender : jstr;
  n_body : jstr;
  n_timestamp : Z
}.

(** Everything outside the process: the device inbox, the disk, the
    clock, the generative model as it answers the [k]-th request, the
    Telegram channel, and the identifier [generateId] draws. *)
Record Env : Type := {
  getAllMessages : nat -> Completion (list NativeSmsMessage);
  storage : Database.Storage;
  network : nat -> Classification.Network;
  channel : Telegram.Channel;
  generateId : jstr
}.

(** The singletons of the application, and what the two callbacks of the
    monitoring service have been handed so far *)
Record App : Type := {
  database : Database.World;
  classifier : Classification.World;
  telegram : Telegram.World;
  onMessageCallback : bool;
  onStatsUpdateCallback : bool;
  delivered : list SMSMessage;
  statsUpdates : nat
}.

Definition set_database (d : Database.World) (a : App) : App :=
  {| database := d; classifier := classifier a; telegram := telegram a;
     onMessageCallback := onMessageCallback a;
     onStatsUpdateCallback := onStatsUpdateCallback a;
     delivered := delivered a; statsUpdates := statsUpdates a |}.

Definition set_classifier (c : Classification.World) (a : App) : App :=
  {| database := database a; classifier := c; telegram := telegram a;
     onMessageCallback := onMessageCallback a;
     onStatsUpdateCallback := onStatsUpdateCallback a;
     delivered := delivered a; statsUpdates := statsUpdates a |}.

Definition set_telegram (t : Telegram.World) (a : App) : App :=
  {| database := database a; classifier := classifier a; telegram := t;
     onMessageCallback := onMessageCallback a;
     onStatsUpdateCallback := onStatsUpdateCallback a;
     delivered := delivered a; statsUpdates := statsUpdates a |}.

Definition in_database {A : Type} (c : M Database.World A) : M App A :=
  zoom database set_database c.
Definition in_classifier {A : Type} (c : M Classification.World A)
    : M App A :=
  zoom classifier set_classifier c.
Definition in_telegram {A : Type} (c : M Telegram.World A) : M App A :=
  zoom telegram set_telegram c.

(** [if (this.onMessageCallback) this.onMessageCallback(message)] *)
Definition notifyMessage (m : SMSMessage) : M App unit :=
  modify (fun a =>
    if onMessageCallback a
    then {| database := database a; classifier := classifier a;
            telegram := telegram a;
            onMessageCallback := onMessageCallback a;
            onStatsUpdateCallback := onStatsUpdateCallback a;
            delivered := delivered a ++ [m];
            statsUpdates := statsUpdates a |}
    else a).

(** [if (this.onStatsUpdateCallback) this.onStatsUpdateCallback()] *)
Definition notifyStats : M App unit :=
  modify (fun a =>
    if onStatsUpdateCallback a
    then {| database := database a; classifier := classifier a;
            telegram := telegram a;
            onMessageCallback := onMessageCallback a;
            onStatsUpdateCallback := onStatsUpdateCallback a;
            delivered := delivered a;
            statsUpdates := S (statsUpdates a) |}
    else a).

(** [classificationService.classifyMessage(body)], over the network as
    it is for the request about to be made *)
Definition classify `{Host} (env : Env) (text : jstr)
    : M App Classification.ClassificationResult :=
  let* a := get in
  in_classifier
    (Classification.classifyMessage
       (network env (length (Classification.prompts (classifier a)))) text).

Definition classified (env : Env) (m : SMSMessage)
    (r : Classification.ClassificationResult) (stamped : bool) : SMSMessage :=
  {| id := id m; sender := sender m; body := body m;
     timestamp := timestamp m;
     isSpam := Some (Classification.isSpam r);
     confidence := Some (Classification.confidence r);
     reason := Some (Classification.reason r);
     classifiedAt :=
       if stamped then Some (Database.clock (storage env))
       else classifiedAt m |}.

Definition classifyAndNotify `{Host} (env : Env) (m : SMSMessage)
    : M App unit :=
  try_catch
    (let* result := classify env (body m) in
     run in_database
           (Database.updateClassification (storage env) (id m)
              (Classification.isSpam result)
              (Classification.confidence result)
              (Classification.reason result))
     then let m' := classified env m result true in
          run (if Classification.isSpam result
               then run in_telegram
                          (Telegram.sendSpamNotification (channel env) m')
                    then ret tt
               else ret tt)
          then notifyMessage m')
    (fun error => ret tt).

Definition handleIncomingSms `{Host} (env : Env)
    (ev_sender ev_body : jstr) (ev_timestamp : Z) : M App unit :=
  try_catch
    (let m := {| id := generateId env; sender := ev_sender;
                 body := ev_body; timestamp := ev_timestamp;
                 isSpam := None; confidence := None; reason := None;
                 classifiedAt := None |} in
     run in_database (Database.insertMessage (storage env) m)
     then run notifyMessage m
     then run classifyAndNotify env m
     then notifyStats)
    (fun error => ret tt).

(** The body of the loop of [loadAndClassifyInbox], with its own [try]:
    a message already stored is skipped. *)
Definition ingestNative `{Host} (env : Env) (nativeMsg : NativeSmsMessage)
    (processedCount : nat) : M App nat :=
  try_catch
    (let* existing :=
       in_database (Database.getMessage (storage env) (n_id nativeMsg)) in
     match existing with
     | Some _ => ret processedCount
     | None =>
         let m := {| id := n_id nativeMsg; sender := n_sender nativeMsg;
                     body := n_body nativeMsg;
                     timestamp := n_timestamp nativeMsg;
                     isSpam := None; confidence := None; reason := None;
                     classifiedAt := None |} in
         run in_database (Database.insertMessage (storage env) m)
         then let* result := classify env (body m) in
              run in_database
                    (Database.updateClassification (storage env) (id m)
                       (Classification.isSpam result)
                       (Classification.confidence result)
                       (Classification.reason result))
              then run (if Classification.isSpam result
                        then run in_telegram
                                   (Telegram.sendSpamNotification
                                      (channel env)
                                      (classified env m result false))
                             then ret tt
                        else ret tt)
              then run notifyMessage (classified env m result true)
              then ret (S processedCount)
     end)
    (fun error => ret processedCount).

Fixpoint ingestAll `{Host} (env : Env) (msgs : list NativeSmsMessage)
    (processedCount : nat) : M App nat :=
  match msgs with
  | [] => ret processedCount
  | nativeMsg :: rest =>
      let* n := ingestNative env nativeMsg processedCount in
      ingestAll env rest n
  end.

Definition loadAndClassifyInbox `{Host} (env : Env) (limit : nat)
    : M App nat :=
  match getAllMessages env limit with
  | Throw e => throw e
  | Normal nativeMessages =>
      let* processedCount := ingestAll env nativeMessages 0 in
      run notifyStats then ret processedCount
  end.

(** [processNotificationQueue] *)
Definition processNotificationQueue (env : Env) : M App Telegram.Counts :=
  in_telegram (Telegram.processQueue (channel env)).

(** The body of the loop of [classifyPendingMessages], with its [try] *)
Definition classifyPending `{Host} (env : Env) (m : SMSMessage)
    : M App unit :=
  try_catch
    (let* result := classify env (body m) in
     run in_database
           (Database.updateClassification (storage env) (id m)
              (Classification.isSpam result)
              (Classification.confidence result)
              (Classification.reason result))
     then if Classification.isSpam result
          then run in_telegram
                     (Telegram.sendSpamNotification (channel env)
                        (classified env m result false))
               then ret tt
          else ret tt)
    (fun error => ret tt).

Definition classifyPendingMessages `{Host} (env : Env) (limit : nat)
    : M App nat :=
  let* messages :=
    in_database (Database.getUnclassifiedMessages (storage env) limit) in
  run for_of messages (classifyPending env)
  then run notifyStats
  then ret (length messages).

End Monitoring.


(** ** Concrete surroundings for the worked examples *)

Module Examples.

Import Types.

Definition quote : jstr := [34%N].

(** An answer of the model that has the agreed shape and an empty
    explanation: [{"isSpam": true, "confidence": 0.9, "reason": ""}] *)
Definition reply_empty_reason : jstr :=
  js "{" ++ quote ++ js "isSpam" ++ quote ++ js ": true, "
  ++ quote ++ js "confidence" ++ quote ++ js ": 0.9, "
  ++ quote ++ js "reason" ++ quote ++ js ": " ++ quote ++ quote ++ js "}".

(** [{"isSpam": true, "confidence": 0.9, "reason": "prize scam"}] *)
Definition reply_spam : jstr :=
  js "{" ++ quote ++ js "isSpam" ++ quote ++ js ": true, "
  ++ quote ++ js "confidence" ++ quote ++ js ": 0.9, "
  ++ quote ++ js "reason" ++ quote ++ js ": " ++ quote ++ js "prize scam"
  ++ quote ++ js "}".

Definition parsed_reply (why : jstr) : JsValue :=
  JObj [(js "isSpam", JBool true);
        (js "confidence", JNum (Finite (9 # 10)));
        (js "reason", JStr why)].

(** A host for ASCII messages: [toLowerCase] on ASCII, a document that
    has a word when the text contains it, and [JSON.parse] on the two
    answers above (any other text of the examples is not JSON). *)
#[local] Instance asciiHost : Host := {|
  toLowerCase := asciiLower;
  nlp_has := fun text word => includes text word;
  JSON_parse := fun s =>
    if jstr_eqb s reply_empty_reason then Some (parsed_reply [])
    else if jstr_eqb s reply_spam then Some (parsed_reply (js "prize scam"))
    else None
|}.

Definition otp_message : jstr :=
  js "Your OTP is 654321. Do not share. Valid for 10 min.".

Definition prize_message : jstr :=
  js "URGENT! You won $1,000,000! Click here NOW!!!".

Definition plain_message : jstr := js "hello there".

(** A network whose model always gives the same answer *)
Definition answering (t : jstr) : Classification.Network :=
  {| Classification.generateContent := fun _ => Classification.ReplyText t;
     Classification.now_before := 5000;
     Classification.now_after := 5000 |}.

Definition unreachable : Classification.Network :=
  {| Classification.generateContent :=
       fun _ => Classification.ReplyFails (js "timeout");
     Classification.now_before := 5000;
     Classification.now_after := 5000 |}.

(** The classification service after [initialize(key, 2000)] *)
Definition initialized : Classification.World :=
  snd (Classification.initialize (js "key") 2000
         {| Classification.svc := Classification.newService;
            Classification.prompts := [] |}).

Definition uninitialized : Classification.World :=
  {| Classification.svc := Classification.newService;
     Classification.prompts := [] |}.

(** A channel on which every request fails, and one on which all succeed *)
Definition dead_channel : Telegram.Channel :=
  {| Telegram.acknowledges := fun _ => false;
     Telegram.formatTimestamp := fun _ => js "Just now" |}.

Definition live_channel : Telegram.Channel :=
  {| Telegram.acknowledges := fun _ => true;
     Telegram.formatTimestamp := fun _ => js "Just now" |}.

Definition spam_sms : SMSMessage :=
  {| id := js "m1"; sender := js "+15550100"; body := prize_message;
     timestamp := 1000; isSpam := Some true; confidence := Some (9 # 10);
     reason := Some (js "prize scam"); classifiedAt := Some 1001%Z |}.

(** The Telegram service after [initialize(token, chat)], with one
    notification waiting in the queue *)
Definition one_queued : Telegram.World :=
  let w := snd (Telegram.initialize (js "token") (js "chat") true
                  {| Telegram.tg := Telegram.newService;
                     Telegram.posts := 0 |}) in
  snd (Telegram.addToQueue spam_sms w).

(** A stored, classified message, and an application whose store holds
    it under the id [m1] *)
Definition stored_row : Database.Row :=
  {| Database.r_sender := js "+15550100"; Database.r_body := prize_message;
     Database.r_timestamp := 1000; Database.is_spam := Some true;
     Database.r_confidence := Some (9 # 10);
     Database.r_reason := Some (js "prize scam");
     Database.classified_at := Some 1001%Z; Database.created_at := 1000 |}.

Definition app_with_m1 : Monitoring.App :=
  {| Monitoring.database :=
       {| Database.opened := true;
          Database.sms_messages := {[ js "m1" := stored_row ]} |};
     Monitoring.classifier := initialized;
     Monitoring.telegram := one_queued;
     Monitoring.onMessageCallback := true;
     Monitoring.onStatsUpdateCallback := true;
     Monitoring.delivered := [];
     Monitoring.statsUpdates := 0 |}.

(** A device inbox that offers [m1] again (with another body) and a
    message [m2] that is new; the model and the channel are unreachable. *)
Definition inbox_env : Monitoring.Env :=
  {| Monitoring.getAllMessages := fun _ =>
       Normal [ {| Monitoring.n_id := js "m1";
                   Monitoring.n_sender := js "+15550100";
                   Monitoring.n_body := js "edited";
                   Monitoring.n_timestamp := 1000 |};
                {| Monitoring.n_id := js "m2";
                   Monitoring.n_sender := js "+15550101";
                   Monitoring.n_body := prize_message;
                   Monitoring.n_timestamp := 1500 |} ];
     Monitoring.storage :=
       {| Database.canOpen := true; Database.clock := 2000 |};
     Monitoring.network := fun _ => unreachable;
     Monitoring.channel := dead_channel;
     Monitoring.generateId := js "2000-abcdefghi" |}.

(** [n] calls of [processQueue] in a row *)
Fixpoint drains (ch : Telegram.Channel) (n : nat) (w : Telegram.World)
    : list Telegram.Counts * Telegram.World :=
  match n with
  | O => ([], w)
  | S n' =>
      match Telegram.processQueue ch w with
      | (Normal c, w') =>
          let (cs, w'') := drains ch n' w' in (c :: cs, w'')
      | (Throw _, w') => ([], w')
      end
  end.

(** An answer of the model that is no JSON at all *)
Definition plain_answer : jstr := js "Sorry, I cannot classify this.".

(** The two messages of the inbox of [inbox_env] *)
Definition inbox_messages : list Monitoring.NativeSmsMessage :=
  [ {| Monitoring.n_id := js "m1";
       Monitoring.n_sender := js "+15550100";
       Monitoring.n_body := js "edited";
       Monitoring.n_timestamp := 1000 |};
    {| Monitoring.n_id := js "m2";
       Monitoring.n_sender := js "+15550101";
       Monitoring.n_body := prize_message;
       Monitoring.n_timestamp := 1500 |} ].

(** A disk on which the database can be opened, and one on which it
    cannot *)
Definition disk : Database.Storage :=
  {| Database.canOpen := true; Database.clock := 2000 |}.

Definition no_disk : Database.Storage :=
  {| Database.canOpen := false; Database.clock := 2000 |}.

(** The store before it has been opened, holding [m1] and a message [m3]
    that has not been classified *)
Definition pending_row : Database.Row :=
  {| Database.r_sender := js "+15550102"; Database.r_body := plain_message;
     Database.r_timestamp := 1200; Database.is_spam := None;
     Database.r_confidence := None; Database.r_reason := None;
     Database.classified_at := None; Database.created_at := 1200 |}.

Definition closed_store : Database.World :=
  {| Database.opened := false;
     Database.sms_messages :=
       <[ js "m3" := pending_row ]> {[ js "m1" := stored_row ]} |}.

Definition app_with_backlog : Monitoring.App :=
  {| Monitoring.database := closed_store;
     Monitoring.classifier := initialized;
     Monitoring.telegram := one_queued;
     Monitoring.onMessageCallback := true;
     Monitoring.onStatsUpdateCallback := true;
     Monitoring.delivered := [];
     Monitoring.statsUpdates := 0 |}.

(** The surroundings of [inbox_env] with a disk that cannot be opened *)
Definition offline_env : Monitoring.Env :=
  {| Monitoring.getAllMessages := Monitoring.getAllMessages inbox_env;
     Monitoring.storage := no_disk;
     Monitoring.network := Monitoring.network inbox_env;
     Monitoring.channel := Monitoring.channel inbox_env;
     Monitoring.generateId := Monitoring.generateId inbox_env |}.

End Examples.


(** ** Vocabulary of the statements *)

Module Vocabulary.

Import Types.


(** No indicator of either kind fires. *)
Definition neutral (f : Nlp.Features) : Prop :=
  Nlp.spamKeywordCount f = 0 /\
  (Nlp.urgencyScore f <= 1 # 2)%Q /\
  (Nlp.capitalRatio f <= 1 # 2)%Q /\
  Nlp.exclamationCount f <= 2 /\
  Nlp.hasURL f = false /\
  Nlp.legitPatternCount f = 0 /\
  Nlp.hasOTP f = false /\
  Nlp.hasBankingTerms f = false.

Definition isAsciiLetter (c : N) : bool :=
  in_ranges c [(97, 122); (65, 90)]%N.

(** Forget the position a RegExp object has been left at. *)
Definition rewind (re : RegExp) : RegExp := setLastIndex re 0.

Definition rewind_spam (sp : Nlp.SpamPatterns) : Nlp.SpamPatterns :=
  {| Nlp.promotional := List.map rewind (Nlp.promotional sp);
     Nlp.financialScam := List.map rewind (Nlp.financialScam sp);
     Nlp.phishing := List.map rewind (Nlp.phishing sp);
     Nlp.genericSpam := List.map rewind (Nlp.genericSpam sp) |}.

Definition rewind_legit (lp : Nlp.LegitimatePatterns)
    : Nlp.LegitimatePatterns :=
  {| Nlp.banking := List.map rewind (Nlp.banking lp);
     Nlp.otp := List.map rewind (Nlp.otp lp);
     Nlp.delivery := List.map rewind (Nlp.delivery lp);
     Nlp.booking := List.map rewind (Nlp.booking lp);
     Nlp.service := List.map rewind (Nlp.service lp) |}.

Definition rewind_service (svc : Nlp.NLPClassifierService)
    : Nlp.NLPClassifierService :=
  {| Nlp.spamPatterns := rewind_spam (Nlp.spamPatterns svc);
     Nlp.legitimatePatterns := rewind_legit (Nlp.legitimatePatterns svc) |}.

Definition all_global (ps : list RegExp) : Prop :=
  Forall (fun p => global p = true) ps.

Definition spam_global (sp : Nlp.SpamPatterns) : Prop :=
  all_global (Nlp.promotional sp) /\ all_global (Nlp.financialScam sp) /\
  all_global (Nlp.phishing sp) /\ all_global (Nlp.genericSpam sp).

Definition legit_global (lp : Nlp.LegitimatePatterns) : Prop :=
  all_global (Nlp.banking lp) /\ all_global (Nlp.otp lp) /\
  all_global (Nlp.delivery lp) /\ all_global (Nlp.booking lp) /\
  all_global (Nlp.service lp).

Definition service_global (svc : Nlp.NLPClassifierService) : Prop :=
  spam_global (Nlp.spamPatterns svc) /\
  legit_global (Nlp.legitimatePatterns svc).

(** The scorer's service object after the calls [history], oldest first *)
Definition after_calls `{Host} (history : list jstr)
    : Nlp.NLPClassifierService :=
  fold_left (fun svc m => snd (Nlp.classifyMessage svc m)) history
            Nlp.newService.

(** In the words of the specification: a token matches the keyword list
    when it lies within a keyword or a keyword lies within it ... *)
Definition tokenMatches (keywords : list jstr) (token : jstr) : bool :=
  existsb (fun keyword => includes keyword token || includes token keyword)
          keywords.

(** ... and the ratio is the fraction of the tokens that match (0 for a
    text without tokens). *)
Definition matchingFraction `{Host} (text : jstr) : Q :=
  let tokens := TextPreprocessing.tokenize text in
  let keywords := List.map toLowerCase Classification.SPAM_KEYWORDS in
  match tokens with
  | [] => 0%Q
  | _ => (Qnat (length (List.filter (tokenMatches keywords) tokens))
          / Qnat (length tokens))%Q
  end.

(** The request that an adjudication of [text] sends *)
Definition request_for `{Host} (text : jstr) : jstr :=
  Classification.prompt_of
    (TextPreprocessing.truncateText
       (TextPreprocessing.preprocessText text) 500).

(** The classification service once that request has left *)
Definition requested `{Host} (net : Classification.Network) (text : jstr)
    (w : Classification.World) : Classification.World :=
  {| Classification.svc :=
       {| Classification.genAI := Classification.genAI (Classification.svc w);
          Classification.model := Classification.model (Classification.svc w);
          Classification.apiKey :=
            Classification.apiKey (Classification.svc w);
          Classification.rateLimitMs :=
            Classification.rateLimitMs (Classification.svc w);
          Classification.lastCallTime := Classification.now_after net |};
     Classification.prompts :=
       Classification.prompts w ++ [request_for text] |}.

(** The stored row of [key] is [row]. *)
Definition stored (key : jstr) (row : Database.Row) (a : Monitoring.App)
    : Prop :=
  Database.sms_messages (Monitoring.database a) !! key = Some row.

(** *** The scorer's indicators *)

(** No spam indicator fires; a link does not count when banking terms
    are present. *)
Definition no_spam_indicator (f : Nlp.Features) : Prop :=
  Nlp.spamKeywordCount f = 0 /\
  (Nlp.urgencyScore f <= 1 # 2)%Q /\
  (Nlp.capitalRatio f <= 1 # 2)%Q /\
  Nlp.exclamationCount f <= 2 /\
  (Nlp.hasURL f = false \/ Nlp.hasBankingTerms f = true).

Definition some_spam_indicator (f : Nlp.Features) : Prop :=
  0 < Nlp.spamKeywordCount f \/
  (1 # 2 < Nlp.urgencyScore f)%Q \/
  (1 # 2 < Nlp.capitalRatio f)%Q \/
  2 < Nlp.exclamationCount f \/
  Nlp.hasURL f = true.

Definition no_legit_indicator (f : Nlp.Features) : Prop :=
  Nlp.legitPatternCount f = 0 /\
  Nlp.hasOTP f = false /\
  Nlp.hasBankingTerms f = false.

(** The feature set [f] with another count of spam keywords, or of
    legitimate patterns *)
Definition with_spamKeywordCount (n : nat) (f : Nlp.Features)
    : Nlp.Features :=
  {| Nlp.hasURL := Nlp.hasURL f;
     Nlp.hasPhoneNumber := Nlp.hasPhoneNumber f;
     Nlp.hasMoneyAmount := Nlp.hasMoneyAmount f;
     Nlp.urgencyScore := Nlp.urgencyScore f;
     Nlp.sentimentScore := Nlp.sentimentScore f;
     Nlp.spamKeywordCount := n;
     Nlp.legitPatternCount := Nlp.legitPatternCount f;
     Nlp.hasOTP := Nlp.hasOTP f;
     Nlp.hasBankingTerms := Nlp.hasBankingTerms f;
     Nlp.capitalRatio := Nlp.capitalRatio f;
     Nlp.exclamationCount := Nlp.exclamationCount f;
     Nlp.questionCount := Nlp.questionCount f;
     Nlp.wordCount := Nlp.wordCount f |}.

Definition with_legitPatternCount (n : nat) (f : Nlp.Features)
    : Nlp.Features :=
  {| Nlp.hasURL := Nlp.hasURL f;
     Nlp.hasPhoneNumber := Nlp.hasPhoneNumber f;
     Nlp.hasMoneyAmount := Nlp.hasMoneyAmount f;
     Nlp.urgencyScore := Nlp.urgencyScore f;
     Nlp.sentimentScore := Nlp.sentimentScore f;
     Nlp.spamKeywordCount := Nlp.spamKeywordCount f;
     Nlp.legitPatternCount := n;
     Nlp.hasOTP := Nlp.hasOTP f;
     Nlp.hasBankingTerms := Nlp.hasBankingTerms f;
     Nlp.capitalRatio := Nlp.capitalRatio f;
     Nlp.exclamationCount := Nlp.exclamationCount f;
     Nlp.questionCount := Nlp.questionCount f;
     Nlp.wordCount := Nlp.wordCount f |}.

(** The pattern [p] has a match somewhere in [text]. *)
Definition matches_somewhere (text : jstr) (p : RegExp) : Prop :=
  scan (source p) None text 0 0 <> [].

(** *** Texts *)

(** A unit a token can consist of: [\w] or an apostrophe *)
Definition isTokenUnit (c : N) : bool :=
  in_ranges c word_ranges || cu_eqb c 39.

(** The code unit [c] does not occur in [s]. *)
Definition lacks (c : N) (s : jstr) : bool :=
  forallb (fun x => negb (cu_eqb x c)) s.

(** *** The notification queue *)

Definition queue_bounded (w : Telegram.World) : Prop :=
  length (Telegram.queue (Telegram.tg w)) <= 50.

(** Notifications are sent: the service is initialized and enabled. *)
Definition notifying (s : Telegram.TelegramService) : bool :=
  Telegram.isInitialized s && Telegram.isEnabled s.

(** The queue [q] once [m] has been added to it *)
Definition enqueued (m : SMSMessage) (q : list Telegram.QueueItem)
    : list Telegram.QueueItem :=
  (if 50 <=? length q then tl q else q)
  ++ [{| Telegram.message := m; Telegram.retries := 0 |}].

(** Of the [items], sent in this order as the requests number [n],
    [n + 1], ..., those whose request is not acknowledged, their retry
    counters at 0 *)
Fixpoint unacknowledged (ch : Telegram.Channel) (n : nat)
    (items : list Telegram.QueueItem) : list Telegram.QueueItem :=
  match items with
  | [] => []
  | item :: rest =>
      if Telegram.acknowledges ch n then unacknowledged ch (S n) rest
      else {| Telegram.message := Telegram.message item;
              Telegram.retries := 0 |} :: unacknowledged ch (S n) rest
  end.

(** The confidence of a message, when it has one, is a probability. *)
Definition confidence_in_unit (m : SMSMessage) : Prop :=
  match confidence m with
  | Some c => (0 <= c <= 1)%Q
  | None => True
  end.

(** *** The store *)

(** The database is open or can be opened. *)
Definition available (st : Database.Storage) (w : Database.World) : bool :=
  Database.opened w || Database.canOpen st.

(** The open database over the table [rows] *)
Definition open_with (rows : gmap (list N) Database.Row) : Database.World :=
  {| Database.opened := true; Database.sms_messages := rows |}.


(** The row that [insertMessage] writes for [m] *)
Definition row_of (st : Database.Storage) (m : SMSMessage) : Database.Row :=
  {| Database.r_sender := sender m; Database.r_body := body m;
     Database.r_timestamp := timestamp m;
     Database.is_spam := isSpam m;
     Database.r_confidence := confidence m;
     Database.r_reason := reason m;
     Database.classified_at := classifiedAt m;
     Database.created_at := Database.clock st |}.

(** The row [r] once [updateClassification] has written a verdict to it *)
Definition verdict_row (st : Database.Storage) (spam : bool) (conf : Q)
    (why : jstr) (r : Database.Row) : Database.Row :=
  {| Database.r_sender := Database.r_sender r;
     Database.r_body := Database.r_body r;
     Database.r_timestamp := Database.r_timestamp r;
     Database.is_spam := Some spam;
     Database.r_confidence := Some conf;
     Database.r_reason := Some why;
     Database.classified_at := Some (Database.clock st);
     Database.created_at := Database.created_at r |}.

Definition unclassified (r : Database.Row) : bool :=
  match Database.is_spam r with
  | None => true
  | Some _ => false
  end.

(** The number of rows that have no verdict yet *)
Definition pending (rows : gmap (list N) Database.Row) : nat :=
  Database.count_where unclassified rows.

(** *** The coordinator *)

Definition rows_of (a : Monitoring.App) : gmap (list N) Database.Row :=
  Database.sms_messages (Monitoring.database a).

(** The message [handleIncomingSms] makes of an event *)
Definition incoming (env : Monitoring.Env) (ev_sender ev_body : jstr)
    (ev_timestamp : Z) : SMSMessage :=
  {| id := Monitoring.generateId env; sender := ev_sender;
     body := ev_body; timestamp := ev_timestamp;
     isSpam := None; confidence := None; reason := None;
     classifiedAt := None |}.

(** The message [loadAndClassifyInbox] makes of a message of the inbox *)
Definition unstamped (nativeMsg : Monitoring.NativeSmsMessage) : SMSMessage :=
  {| id := Monitoring.n_id nativeMsg; sender := Monitoring.n_sender nativeMsg;
     body := Monitoring.n_body nativeMsg;
     timestamp := Monitoring.n_timestamp nativeMsg;
     isSpam := None; confidence := None; reason := None;
     classifiedAt := None |}.

End Vocabulary.
Export Vocabulary.


(** * Properties *)

(** ** The matcher: the iteration bound of a quantifier is enough *)

Section LoopFacts.
Variable step :
  option N -> jstr -> (option N -> jstr -> option nat) -> option nat.

(** [step] looks at its continuation only through the answers it gives. *)
Hypothesis step_ext :
  forall p t k1 k2,
    (forall p' t', k1 p' t' = k2 p' t') -> step p t k1 = step p t k2.

Lemma optional_ext k1 k2 n p t :
  (forall p' t', k1 p' t' = k2 p' t') ->
  optional step k1 n p t = optional step k2 n p t.
Proof.
  intros Hk. revert p t. induction n as [|n IH]; intros p t; cbn [optional]; [apply Hk|].
  rewrite (step_ext p t _
             (fun p' t' =>
                if progress t t' then optional step k2 n p' t' else None)).
  - now rewrite Hk.
  - intros p' t'. destruct (progress t t'); [apply IH | reflexivity].
Qed.

Lemma mandatory_ext k1 k2 extra n p t :
  (forall p' t', k1 p' t' = k2 p' t') ->
  mandatory step k1 extra n p t = mandatory step k2 extra n p t.
Proof.
  intros Hk. revert p t. induction n as [|n IH]; intros p t; cbn [mandatory].
  - now apply optional_ext.
  - apply step_ext. intros p' t'. apply IH.
Qed.

(** With a continuation that always fails, [step] fails. *)
Hypothesis step_fail : forall p t, step p t (fun _ _ => None) = None.

(** Iterations beyond the number of code units left are never used. *)
Lemma optional_bound k n m p t :
  length t <= n -> length t <= m ->
  optional step k n p t = optional step k m p t.
Proof.
  revert m p t. induction n as [|n IH]; intros m p t Hn Hm.
  - destruct t; [|cbn in Hn; lia].
    destruct m as [|m]; [reflexivity|]. cbn [optional].
    rewrite (step_ext p [] _ (fun _ _ => None)); [now rewrite step_fail|].
    intros p' t'. reflexivity.
  - destruct m as [|m].
    + destruct t; [|cbn in Hm; lia]. cbn [optional].
      rewrite (step_ext p [] _ (fun _ _ => None)); [now rewrite step_fail|].
      intros p' t'. reflexivity.
    + cbn [optional].
      rewrite (step_ext p t _
                 (fun p' t' =>
                    if progress t t' then optional step k m p' t' else None));
        [reflexivity|].
      intros p' t'. unfold progress.
      destruct (Nat.ltb_spec (length t') (length t)); [|reflexivity].
      apply IH; lia.
Qed.
End LoopFacts.

Lemma rmatch_ext r : forall p s k1 k2,
  (forall p' s', k1 p' s' = k2 p' s') -> rmatch r p s k1 = rmatch r p s k2.
Proof.
  induction r as [| neg rs | | r1 IH1 r2 IH2 | r1 IH1 r2 IH2 | min extra r IH];
    intros p s k1 k2 Hk; cbn [rmatch].
  - apply Hk.
  - destruct s; [reflexivity|]. destruct (xorb _ _); [apply Hk | reflexivity].
  - destruct (xorb _ _); [apply Hk | reflexivity].
  - apply IH1. intros p' s'. now apply IH2.
  - rewrite (IH1 p s k1 k2 Hk), (IH2 p s k1 k2 Hk). reflexivity.
  - apply mandatory_ext; [exact IH | exact Hk].
Qed.

Lemma optional_fail step n p t :
  (forall p t k1 k2,
     (forall p' t', k1 p' t' = k2 p' t') -> step p t k1 = step p t k2) ->
  (forall p t, step p t (fun _ _ => None) = None) ->
  optional step (fun _ _ => None) n p t = None.
Proof.
  intros Hext Hfail. revert p t. induction n as [|n IH]; intros p t; cbn [optional];
    [reflexivity|].
  rewrite (Hext p t _ (fun _ _ => None)); [now rewrite Hfail|].
  intros p' t'. destruct (progress t t'); [apply IH | reflexivity].
Qed.

Lemma rmatch_fail r : forall p s, rmatch r p s (fun _ _ => None) = None.
Proof.
  induction r as [| neg rs | | r1 IH1 r2 IH2 | r1 IH1 r2 IH2 | min extra r IH];
    intros p s; cbn [rmatch].
  - reflexivity.
  - destruct s; [reflexivity|]. now destruct (xorb _ _).
  - now destruct (xorb _ _).
  - rewrite (rmatch_ext r1 p s _ (fun _ _ => None)); [apply IH1|].
    intros p' s'. apply IH2.
  - now rewrite IH1, IH2.
  - revert p s. induction min as [|n IHn]; intros p s; cbn [mandatory].
    + apply optional_fail; [apply rmatch_ext | exact IH].
    + rewrite (rmatch_ext r p s _ (fun _ _ => None)); [apply IH|].
      intros p' s'. apply IHn.
Qed.

(** The bound on the iterations of an unbounded quantifier loses no
    match: any larger bound gives the same result. *)
Lemma unbounded_quantifier_bound r k more p t :
  optional (rmatch r) k (length t + more) p t
  = optional (rmatch r) k (length t) p t.
Proof.
  apply optional_bound; [apply rmatch_ext | apply rmatch_fail | lia | lia].
Qed.

(** ** The matcher on a one-unit class *)

Lemma matchHere_cls_cons neg rs prev c s :
  matchHere (Cls neg rs) prev (c :: s) =
  if xorb neg (in_ranges c rs) then Some 1 else None.
Proof.
  unfold matchHere; simpl.
  destruct (xorb neg (in_ranges c rs)); [|reflexivity].
  f_equal. lia.
Qed.

(** Deleting what a negated class matches keeps what the class lists. *)
Lemma replace_complement_is_filter rs s prev :
  replaceScan (Cls true rs) [] prev s 0 =
  List.filter (fun c => in_ranges c rs) s.
Proof.
  revert prev; induction s as [|c s IH]; intros prev.
  - reflexivity.
  - cbn [replaceScan List.filter]. rewrite matchHere_cls_cons.
    destruct (in_ranges c rs); cbn.
    + now rewrite IH.
    + apply IH.
Qed.

Lemma filter_length_le {A} (p q : A -> bool) (l : list A) :
  (forall x, p x = true -> q x = true) ->
  length (List.filter p l) <= length (List.filter q l).
Proof.
  intros Hpq; induction l as [|x l IH]; cbn; [lia|].
  destruct (p x) eqn:Hp.
  - rewrite (Hpq _ Hp). cbn. lia.
  - destruct (q x); cbn; lia.
Qed.

Lemma filter_length_bound {A} (p : A -> bool) (l : list A) :
  length (List.filter p l) <= length l.
Proof. induction l as [|x l IH]; cbn; [lia|]. destruct (p x); cbn; lia. Qed.

Lemma fold_count_filter {A} (p : A -> bool) (l : list A) (n : nat) :
  fold_left (fun c x => if p x then S c else c) l n
  = n + length (List.filter p l).
Proof.
  revert n; induction l as [|x l IH]; intros n; cbn; [lia|].
  rewrite IH. destruct (p x); cbn; lia.
Qed.

(** ** Rational arithmetic *)

Section Rationals.
Local Open Scope Q_scope.

Lemma Qnat_nonneg n : 0 <= Qnat n.
Proof. unfold Qnat, Qle; cbn. lia. Qed.

Lemma Qnat_le n m : (n <= m)%nat -> Qnat n <= Qnat m.
Proof. intros; unfold Qnat, Qle; cbn. lia. Qed.

Lemma Qnat_pos n : (0 < n)%nat -> 0 < Qnat n.
Proof. intros; unfold Qnat, Qlt; cbn. lia. Qed.

Lemma ratio_in_unit n m :
  (n <= m)%nat -> (0 < m)%nat -> 0 <= Qnat n / Qnat m <= 1.
Proof.
  intros Hle Hpos. split.
  - apply Qle_shift_div_l; [now apply Qnat_pos|].
    rewrite Qmult_0_l. apply Qnat_nonneg.
  - apply Qle_shift_div_r; [now apply Qnat_pos|].
    rewrite Qmult_1_l. now apply Qnat_le.
Qed.

Lemma Qadd_nonneg (a b : Q) : 0 <= a -> 0 <= b -> 0 <= a + b.
Proof.
  intros Ha Hb. apply (Qle_trans _ (0 + 0)); [discriminate|].
  now apply Qplus_le_compat.
Qed.

Lemma fold_bonus_nonneg {A} (hit : A -> bool) (b : Q) (l : list A) (acc : Q) :
  0 <= b -> 0 <= acc ->
  0 <= fold_left (fun s x => if hit x then s + b else s) l acc.
Proof.
  intros Hb; revert acc; induction l as [|x l IH]; intros acc Hacc; cbn;
    [exact Hacc|].
  apply IH. destruct (hit x); [|exact Hacc]. now apply Qadd_nonneg.
Qed.

Lemma Qgtb_lt (x y : Q) : Qgtb x y = true <-> y < x.
Proof.
  unfold Qgtb. rewrite negb_true_iff, <- not_true_iff_false, Qle_bool_iff.
  split; [apply Qnot_le_lt | apply Qlt_not_le].
Qed.

Lemma Qgtb_le (x y : Q) : x <= y -> Qgtb x y = false.
Proof.
  intros Hle. apply not_true_is_false. intros Hgt.
  apply Qgtb_lt in Hgt. exact (Qlt_not_le _ _ Hgt Hle).
Qed.

Lemma Qmin_eq_l (x x' y : Q) : x == x' -> Qmin x y == Qmin x' y.
Proof.
  intros E.
  destruct (Q.min_spec x y) as [[Hlt ->]|[Hle ->]];
  destruct (Q.min_spec x' y) as [[Hlt' ->]|[Hle' ->]];
    try reflexivity; try exact E.
  - rewrite E in Hlt. exfalso. exact (Qlt_not_le _ _ Hlt Hle').
  - rewrite E in Hle. exfalso. exact (Qlt_not_le _ _ Hlt' Hle).
Qed.

Lemma clamp01_range (x : Q) : 0 <= clamp01 x <= 1.
Proof.
  unfold clamp01. split; [apply Q.le_max_l|].
  apply Q.max_lub; [discriminate | apply Q.le_min_l].
Qed.


End Rationals.

(** ** The scorer: the score lives on a grid of twentieths *)

Section ScoreGrid.
Local Open Scope Q_scope.














End ScoreGrid.

(** ** The scorer on a message without indicators *)

Section Neutral.
Local Open Scope Q_scope.

Lemma neutral_score (f : Nlp.Features) :
  neutral f -> Nlp.calculateSpamScore f = 1 # 2.
Proof.
  intros (Hk & Hu & Hc & He & Hurl & Hl & Ho & Hb).
  unfold Nlp.calculateSpamScore.
  rewrite Hk, Hl, Hurl, Ho, Hb, (Qgtb_le _ _ Hu), (Qgtb_le _ _ Hc).
  replace (2 <? Nlp.exclamationCount f)%nat with false
    by (symmetry; apply Nat.ltb_ge; exact He).
  cbn. rewrite andb_false_r. reflexivity.
Qed.

Lemma neutral_result (f : Nlp.Features) :
  neutral f ->
  Nlp.isSpam (Nlp.score_features f) = false /\
  Nlp.confidence (Nlp.score_features f) == 0 /\
  Nlp.reason (Nlp.score_features f) = js "No spam indicators found".
Proof.
  intros Hn. pose proof (neutral_score f Hn) as Hs.
  destruct Hn as (Hk & Hu & Hc & He & Hurl & Hl & Ho & Hb).
  unfold Nlp.score_features. rewrite Hs.
  cbn [Nlp.isSpam Nlp.confidence Nlp.reason].
  split; [reflexivity|]. split; [reflexivity|].
  unfold Nlp.generateReason.
  change (Qgtb (1 # 2) (1 # 2)) with false. cbv iota.
  rewrite Ho, Hb, Hl. reflexivity.
Qed.

Context `{Host}.

(** C9. When the features extracted from a message fire no spam
    indicator and no legitimacy indicator, the scorer answers ham with
    confidence 0 and the default reason, which is not empty. *)
Theorem C9_no_indicator_is_neutral_ham
    (svc : Nlp.NLPClassifierService) (message : jstr) :
  neutral (fst (Nlp.extractFeatures svc message)) ->
  let r := fst (Nlp.classifyMessage svc message) in
  Nlp.isSpam r = false /\
  Nlp.confidence r == 0 /\
  Nlp.reason r = js "No spam indicators found" /\
  Nlp.reason r <> [].
Proof.
  intros Hn. unfold Nlp.classifyMessage.
  destruct (Nlp.extractFeatures svc message) as [f svc']. cbn [fst] in *.
  destruct (neutral_result f Hn) as (H1 & H2 & H3).
  repeat split; try assumption.
  rewrite H3. discriminate.
Qed.

End Neutral.

(** ** The feature extractor *)

Section FeatureRanges.
Local Open Scope Q_scope.

Lemma capitalRatio_range text : 0 <= Nlp.calculateCapitalRatio text <= 1.
Proof.
  unfold Nlp.calculateCapitalRatio, str_replace; cbn [source literal_g].
  rewrite !replace_complement_is_filter.
  destruct (Nat.eqb_spec
              (length (List.filter
                         (fun c => in_ranges c [(97, 122); (65, 90)]%N) text))
              0) as [E|E].
  - split; [apply Qle_refl | discriminate].
  - apply ratio_in_unit; [|lia].
    apply filter_length_le. intros x Hx. unfold in_ranges in *; cbn in *.
    rewrite orb_false_r in Hx. rewrite Hx. now rewrite orb_true_r.
Qed.

Lemma capitalRatio_no_letters text :
  forallb (fun c => negb (isAsciiLetter c)) text = true ->
  Nlp.calculateCapitalRatio text = 0.
Proof.
  intros Hnone.
  unfold Nlp.calculateCapitalRatio, str_replace; cbn [source literal_g].
  rewrite !replace_complement_is_filter.
  replace (List.filter (fun c => in_ranges c [(97, 122); (65, 90)]%N) text)
    with (@nil N).
  - reflexivity.
  - symmetry. induction text as [|c t IH]; [reflexivity|].
    cbn [forallb] in Hnone. apply andb_true_iff in Hnone as [Hc Ht].
    cbn [List.filter]. unfold isAsciiLetter in Hc.
    apply negb_true_iff in Hc. rewrite Hc. now apply IH.
Qed.

Lemma urgencyScore_range text : 0 <= Nlp.calculateUrgencyScore text <= 1.
Proof.
  unfold Nlp.calculateUrgencyScore. split.
  - apply Q.min_glb; [|discriminate].
    apply Qadd_nonneg.
    + apply fold_bonus_nonneg; [discriminate | apply Qle_refl].
    + apply Q.min_glb; [|discriminate].
      apply Qmult_le_0_compat; [apply Qnat_nonneg | discriminate].
  - apply Q.le_min_r.
Qed.

Context `{Host}.

Lemma extract_fields svc message :
  let f := fst (Nlp.extractFeatures svc message) in
  Nlp.capitalRatio f = Nlp.calculateCapitalRatio message /\
  Nlp.urgencyScore f = Nlp.calculateUrgencyScore (toLowerCase message).
Proof.
  unfold Nlp.extractFeatures.
  destruct (Nlp.countSpamKeywords _ _) as [n1 sp].
  destruct (Nlp.countLegitimatePatterns _ _) as [n2 lp].
  destruct (Nlp.detectOTP _ _) as [b1 lp1].
  destruct (Nlp.detectBankingTerms _ _) as [b2 lp2].
  cbn. split; reflexivity.
Qed.

(** C10. Feature extraction is a total function of the message, and
    whatever the message: the two ratio features lie between 0 and 1, the
    capital ratio is 0 when the message has no letter, and the count
    features are not negative. *)
Theorem C10_features_in_range
    (svc : Nlp.NLPClassifierService) (message : jstr) :
  let f := fst (Nlp.extractFeatures svc message) in
  (0 <= Nlp.capitalRatio f <= 1) /\
  (0 <= Nlp.urgencyScore f <= 1) /\
  (forallb (fun c => negb (isAsciiLetter c)) message = true ->
   Nlp.capitalRatio f = 0) /\
  (0 <= Nlp.exclamationCount f)%nat /\
  (0 <= Nlp.questionCount f)%nat /\
  (0 <= Nlp.wordCount f)%nat /\
  (0 <= Nlp.spamKeywordCount f)%nat /\
  (0 <= Nlp.legitPatternCount f)%nat.
Proof.
  cbn zeta. destruct (extract_fields svc message) as [Hc Hu].
  rewrite Hc, Hu.
  split; [apply capitalRatio_range|].
  split; [apply urgencyScore_range|].
  split; [apply capitalRatio_no_letters|].
  repeat split; apply Nat.le_0_l.
Qed.

End FeatureRanges.

(** ** The shared RegExp objects and their [lastIndex] *)

Lemma match_count_global text re :
  global re = true -> match_count text re = match_count text (rewind re).
Proof.
  intros Hg. unfold match_count, str_match.
  cbn [global rewind setLastIndex source].
  rewrite Hg. reflexivity.
Qed.

Lemma match_count_rewinds text re :
  global re = true -> snd (match_count text re) = rewind re.
Proof.
  intros Hg. unfold match_count, str_match. rewrite Hg.
  destruct (scan (source re) None text 0 0); reflexivity.
Qed.

(** Counting does not depend on where the patterns had been left ... *)
Lemma forEach_count_global ps text c :
  all_global ps ->
  Nlp.forEach_count ps text c = Nlp.forEach_count (List.map rewind ps) text c.
Proof.
  intros Hg; revert c; induction Hg as [|p ps Hp Hps IH]; intros c;
    [reflexivity|].
  cbn [Nlp.forEach_count List.map].
  rewrite (match_count_global text p Hp).
  destruct (match_count text (rewind p)) as [n p'].
  now rewrite IH.
Qed.

(** ... and leaves every one of them at position 0. *)
Lemma forEach_count_rewinds ps text c :
  all_global ps -> snd (Nlp.forEach_count ps text c) = List.map rewind ps.
Proof.
  intros Hg; revert c; induction Hg as [|p ps Hp Hps IH]; intros c;
    [reflexivity|].
  cbn [Nlp.forEach_count List.map].
  pose proof (match_count_rewinds text p Hp) as Hm.
  destruct (match_count text p) as [n p']. cbn [snd] in Hm. subst p'.
  specialize (IH (c + n)).
  destruct (Nlp.forEach_count ps text (c + n)) as [t r].
  cbn [snd] in *. now subst r.
Qed.

(** [test] moves the position and nothing else. *)
Lemma test_rewind text re :
  rewind (snd (test re text)) = rewind re /\
  global (snd (test re text)) = global re.
Proof.
  unfold test, exec.
  destruct (execAt _ _ _ _ _) as [m|]; destruct (global re) eqn:Hg; cbn;
    rewrite ?Hg; auto.
Qed.

Lemma some_test_rewind ps text :
  List.map rewind (snd (Nlp.some_test ps text)) = List.map rewind ps /\
  (all_global ps -> all_global (snd (Nlp.some_test ps text))).
Proof.
  induction ps as [|p ps [IH1 IH2]]; [split; auto|].
  cbn [Nlp.some_test].
  pose proof (test_rewind text p) as [Hr Hgl].
  destruct (test p text) as [hit p']. cbn [snd] in Hr, Hgl.
  destruct hit.
  - cbn [snd List.map]. split; [now rewrite Hr|].
    intros Hg. inversion Hg; subst. constructor; [congruence | assumption].
  - destruct (Nlp.some_test ps text) as [found rest]. cbn [snd List.map] in *.
    split; [now rewrite Hr, IH1|].
    intros Hg. inversion Hg; subst. constructor; [congruence | now apply IH2].
Qed.

Lemma all_global_rewind ps : all_global ps -> all_global (List.map rewind ps).
Proof. intros Hg. induction Hg; cbn; constructor; auto. Qed.

Lemma map_rewind_idem ps :
  List.map rewind (List.map rewind ps) = List.map rewind ps.
Proof. rewrite List.map_map. reflexivity. Qed.

Lemma spam_global_rewind sp : spam_global sp -> spam_global (rewind_spam sp).
Proof.
  intros (H1 & H2 & H3 & H4). repeat split; now apply all_global_rewind.
Qed.

Lemma legit_global_rewind lp :
  legit_global lp -> legit_global (rewind_legit lp).
Proof.
  intros (H1 & H2 & H3 & H4 & H5). repeat split; now apply all_global_rewind.
Qed.

Lemma rewind_spam_idem sp : rewind_spam (rewind_spam sp) = rewind_spam sp.
Proof. unfold rewind_spam; cbn. now rewrite !map_rewind_idem. Qed.

Lemma rewind_legit_idem lp : rewind_legit (rewind_legit lp) = rewind_legit lp.
Proof. unfold rewind_legit; cbn. now rewrite !map_rewind_idem. Qed.

Lemma countSpamKeywords_global sp text :
  spam_global sp ->
  Nlp.countSpamKeywords sp text = Nlp.countSpamKeywords (rewind_spam sp) text
  /\ snd (Nlp.countSpamKeywords sp text) = rewind_spam sp.
Proof.
  intros (H1 & H2 & H3 & H4). unfold Nlp.countSpamKeywords.
  cbn [rewind_spam Nlp.promotional Nlp.financialScam Nlp.phishing
       Nlp.genericSpam].
  rewrite <- !forEach_count_global by assumption.
  pose proof (forEach_count_rewinds _ text 0 H1) as E1.
  destruct (Nlp.forEach_count (Nlp.promotional sp) text 0) as [c1 f1].
  rewrite <- !forEach_count_global by assumption.
  pose proof (forEach_count_rewinds _ text c1 H2) as E2.
  destruct (Nlp.forEach_count (Nlp.financialScam sp) text c1) as [c2 f2].
  rewrite <- !forEach_count_global by assumption.
  pose proof (forEach_count_rewinds _ text c2 H3) as E3.
  destruct (Nlp.forEach_count (Nlp.phishing sp) text c2) as [c3 f3].
  rewrite <- !forEach_count_global by assumption.
  pose proof (forEach_count_rewinds _ text c3 H4) as E4.
  destruct (Nlp.forEach_count (Nlp.genericSpam sp) text c3) as [c4 f4].
  cbn [snd] in *. subst. split; reflexivity.
Qed.

Lemma countLegitimatePatterns_global lp text :
  legit_global lp ->
  Nlp.countLegitimatePatterns lp text
  = Nlp.countLegitimatePatterns (rewind_legit lp) text
  /\ snd (Nlp.countLegitimatePatterns lp text) = rewind_legit lp.
Proof.
  intros (H1 & H2 & H3 & H4 & H5). unfold Nlp.countLegitimatePatterns.
  cbn [rewind_legit Nlp.banking Nlp.otp Nlp.delivery Nlp.booking Nlp.service].
  rewrite <- !forEach_count_global by assumption.
  pose proof (forEach_count_rewinds _ text 0 H1) as E1.
  destruct (Nlp.forEach_count (Nlp.banking lp) text 0) as [c1 f1].
  rewrite <- !forEach_count_global by assumption.
  pose proof (forEach_count_rewinds _ text c1 H2) as E2.
  destruct (Nlp.forEach_count (Nlp.otp lp) text c1) as [c2 f2].
  rewrite <- !forEach_count_global by assumption.
  pose proof (forEach_count_rewinds _ text c2 H3) as E3.
  destruct (Nlp.forEach_count (Nlp.delivery lp) text c2) as [c3 f3].
  rewrite <- !forEach_count_global by assumption.
  pose proof (forEach_count_rewinds _ text c3 H4) as E4.
  destruct (Nlp.forEach_count (Nlp.booking lp) text c3) as [c4 f4].
  rewrite <- !forEach_count_global by assumption.
  pose proof (forEach_count_rewinds _ text c4 H5) as E5.
  destruct (Nlp.forEach_count (Nlp.service lp) text c4) as [c5 f5].
  cbn [snd] in *. subst. split; reflexivity.
Qed.

Lemma detectOTP_rewind lp text :
  rewind_legit (snd (Nlp.detectOTP lp text)) = rewind_legit lp /\
  (legit_global lp -> legit_global (snd (Nlp.detectOTP lp text))).
Proof.
  unfold Nlp.detectOTP.
  pose proof (some_test_rewind (Nlp.otp lp) text) as [Hr Hg].
  destruct (Nlp.some_test (Nlp.otp lp) text) as [found ps]. cbn [snd] in *.
  split.
  - unfold rewind_legit; cbn. now rewrite Hr.
  - intros (H1 & H2 & H3 & H4 & H5). repeat split; cbn; auto.
Qed.

Lemma detectBankingTerms_rewind lp text :
  rewind_legit (snd (Nlp.detectBankingTerms lp text)) = rewind_legit lp /\
  (legit_global lp -> legit_global (snd (Nlp.detectBankingTerms lp text))).
Proof.
  unfold Nlp.detectBankingTerms.
  pose proof (some_test_rewind (Nlp.banking lp) text) as [Hr Hg].
  destruct (Nlp.some_test (Nlp.banking lp) text) as [found ps]. cbn [snd] in *.
  split.
  - unfold rewind_legit; cbn. now rewrite Hr.
  - intros (H1 & H2 & H3 & H4 & H5). repeat split; cbn; auto.
Qed.

Section Determinism.
Context `{Host}.

(** A call sees the service as if every pattern were at position 0:
    [countLegitimatePatterns] runs before [detectOTP] and
    [detectBankingTerms] and rewinds what they are about to test. *)
Lemma extractFeatures_rewind svc message :
  service_global svc ->
  Nlp.extractFeatures svc message
  = Nlp.extractFeatures (rewind_service svc) message.
Proof.
  intros [Hs Hl]. unfold Nlp.extractFeatures.
  cbn [rewind_service Nlp.spamPatterns Nlp.legitimatePatterns].
  rewrite (proj1 (countSpamKeywords_global _ (toLowerCase message) Hs)).
  rewrite (proj1 (countLegitimatePatterns_global _ (toLowerCase message) Hl)).
  reflexivity.
Qed.

(** A call changes nothing but the positions. *)
Lemma extractFeatures_keeps_patterns svc message :
  service_global svc ->
  service_global (snd (Nlp.extractFeatures svc message)) /\
  rewind_service (snd (Nlp.extractFeatures svc message)) = rewind_service svc.
Proof.
  intros [Hs Hl]. unfold Nlp.extractFeatures.
  pose proof (countSpamKeywords_global _ (toLowerCase message) Hs) as [_ Es].
  destruct (Nlp.countSpamKeywords _ _) as [n1 sp]. cbn [snd] in Es. subst sp.
  pose proof (countLegitimatePatterns_global _ (toLowerCase message) Hl)
    as [_ El].
  destruct (Nlp.countLegitimatePatterns _ _) as [n2 lp].
  cbn [snd] in El. subst lp.
  pose proof (detectOTP_rewind (rewind_legit (Nlp.legitimatePatterns svc))
                (toLowerCase message)) as [Ro Go].
  destruct (Nlp.detectOTP _ _) as [b1 lp1]. cbn [snd] in Ro, Go.
  pose proof (detectBankingTerms_rewind lp1 (toLowerCase message)) as [Rb Gb].
  destruct (Nlp.detectBankingTerms _ _) as [b2 lp2]. cbn [snd] in Rb, Gb.
  cbn [snd]. split.
  - split; cbn.
    + now apply spam_global_rewind.
    + apply Gb, Go. now apply legit_global_rewind.
  - unfold rewind_service; cbn.
    now rewrite rewind_spam_idem, Rb, Ro, rewind_legit_idem.
Qed.

Lemma newService_global : service_global Nlp.newService.
Proof. repeat split; cbn; repeat constructor. Qed.

Lemma after_calls_invariant (history : list jstr) :
  service_global (after_calls history) /\
  rewind_service (after_calls history) = Nlp.newService.
Proof.
  unfold after_calls.
  assert (G : forall svc,
             service_global svc ->
             rewind_service svc = Nlp.newService ->
             service_global
               (fold_left (fun s m => snd (Nlp.classifyMessage s m))
                          history svc) /\
             rewind_service
               (fold_left (fun s m => snd (Nlp.classifyMessage s m))
                          history svc)
             = Nlp.newService).
  { induction history as [|m h IH]; intros svc Hg Hr; [now split|].
    cbn [fold_left]. apply IH.
    - unfold Nlp.classifyMessage.
      pose proof (extractFeatures_keeps_patterns svc m Hg) as [Hg' _].
      destruct (Nlp.extractFeatures svc m); exact Hg'.
    - unfold Nlp.classifyMessage.
      pose proof (extractFeatures_keeps_patterns svc m Hg) as [_ Hr'].
      destruct (Nlp.extractFeatures svc m); cbn [snd] in *. congruence. }
  apply G; [apply newService_global | reflexivity].
Qed.

(** C5 (as amended). Whatever calls the scorer has served before, in
    whatever order, [classifyMessage] returns the same result - verdict,
    confidence, reason and features - for the same message.  The RegExp
    objects shared by [detectOTP] and [detectBankingTerms] do keep a
    [lastIndex] from one call to the next; it never reaches a result,
    because every call rewinds them before it tests them. *)
Theorem C5_scorer_is_deterministic
    (before other : list jstr) (message : jstr) :
  fst (Nlp.classifyMessage (after_calls before) message)
  = fst (Nlp.classifyMessage (after_calls other) message).
Proof.
  destruct (after_calls_invariant before) as [G1 R1].
  destruct (after_calls_invariant other) as [G2 R2].
  unfold Nlp.classifyMessage.
  rewrite (extractFeatures_rewind _ message G1),
          (extractFeatures_rewind _ message G2).
  now rewrite R1, R2.
Qed.

End Determinism.

(** ** The keyword fallback *)

Section Fallback.
Local Open Scope Q_scope.
Context `{Host}.

(** The loop with its counter computes the fraction of matching tokens. *)
Lemma keyword_score_is_fraction text :
  TextPreprocessing.calculateKeywordSpamScore text Classification.SPAM_KEYWORDS
  == matchingFraction text.
Proof.
  unfold TextPreprocessing.calculateKeywordSpamScore, matchingFraction.
  destruct (TextPreprocessing.tokenize text) as [|t ts] eqn:Et; [reflexivity|].
  cbn [length Nat.eqb]. cbv zeta. unfold tokenMatches.
  rewrite fold_count_filter.
  cbn [Nat.add]. apply Q.min_l.
  apply (ratio_in_unit _ (length (t :: ts)));
    [apply filter_length_bound | cbn; lia].
Qed.

Lemma matchingFraction_range text : 0 <= matchingFraction text <= 1.
Proof.
  unfold matchingFraction.
  destruct (TextPreprocessing.tokenize text) as [|t ts];
    [split; discriminate|].
  apply (ratio_in_unit _ (length (t :: ts))).
  - apply filter_length_bound.
  - cbn [length]. lia.
Qed.

(** C8. The keyword fallback says spam exactly when the fraction of the
    tokens of the text that match the keyword list exceeds 0.15, and its
    confidence is min(2 * ratio, 0.85), hence at most 0.85. *)
Theorem C8_keyword_fallback (text : jstr) :
  let ratio := matchingFraction text in
  let r := Classification.classifyWithKeywords text in
  (Classification.isSpam r = true <-> 15 # 100 < ratio) /\
  Classification.confidence r == Qmin (2 * ratio) (85 # 100) /\
  Classification.confidence r <= 85 # 100.
Proof.
  cbn zeta. unfold Classification.classifyWithKeywords.
  cbn [Classification.isSpam Classification.confidence].
  pose proof (keyword_score_is_fraction text) as E.
  split; [|split].
  - rewrite Qgtb_lt. now rewrite E.
  - apply Qmin_eq_l. rewrite E. ring.
  - apply Q.le_min_r.
Qed.

Lemma classifyWithKeywords_confidence (text : jstr) :
  0 <= Classification.confidence (Classification.classifyWithKeywords text)
    <= 1.
Proof.
  unfold Classification.classifyWithKeywords.
  cbn [Classification.confidence]. split.
  - apply Q.min_glb; [|discriminate].
    rewrite keyword_score_is_fraction.
    apply Qmult_le_0_compat; [apply matchingFraction_range | discriminate].
  - apply (Qle_trans _ (85 # 100)); [apply Q.le_min_r | discriminate].
Qed.

Lemma classifyWithKeywords_reason (text : jstr) :
  Classification.reason (Classification.classifyWithKeywords text) <> [].
Proof.
  unfold Classification.classifyWithKeywords. cbn [Classification.reason].
  destruct (Qgtb _ _); discriminate.
Qed.

End Fallback.

(** ** The adjudicator and the orchestrator *)

Section Orchestrator.
Local Open Scope Q_scope.
Import Classification.

Lemma clampNumber_range (n : JsNumber) : 0 <= clampNumber n <= 1.
Proof.
  destruct n; cbn;
    [apply clamp01_range | split; discriminate | split; discriminate].
Qed.

Lemma getProp_pure {S : Type} (v : JsValue) (name : string) (s : S) :
  getProp v name s = (fst (getProp v name tt), s).
Proof. destruct v; reflexivity. Qed.

Context `{Host}.

(** Reading the answer touches no state. *)
Lemma parseResponse_pure {S : Type} (t : jstr) (s : S) :
  parseResponse t s = (fst (parseResponse t tt), s).
Proof.
  unfold parseResponse.
  destruct (fst (exec json_re t)) as [m|]; [|reflexivity].
  destruct (JSON_parse (slice t m)) as [parsed|]; [|reflexivity].
  unfold bind.
  rewrite (getProp_pure parsed "isSpam" s).
  destruct (getProp parsed "isSpam" tt) as [[p1|e1] []]; cbn [fst];
    [|reflexivity].
  rewrite (getProp_pure parsed "confidence" s).
  destruct (getProp parsed "confidence" tt) as [[p2|e2] []]; cbn [fst];
    [|reflexivity].
  rewrite (getProp_pure parsed "reason" s).
  destruct (getProp parsed "reason" tt) as [[p3|e3] []]; cbn [fst];
    [|reflexivity].
  destruct p1 as [[]|]; try reflexivity.
  destruct p2 as [[]|]; try reflexivity.
  destruct p3 as [[]|]; reflexivity.
Qed.

(** An accepted answer has had its confidence clamped. *)
Lemma parseResponse_confidence (t : jstr) (r : ClassificationResult) :
  fst (parseResponse t tt) = Normal r -> 0 <= confidence r <= 1.
Proof.
  unfold parseResponse.
  destruct (fst (exec json_re t)) as [m|]; [|discriminate].
  destruct (JSON_parse (slice t m)) as [parsed|]; [|discriminate].
  unfold bind.
  destruct (getProp parsed "isSpam" tt) as [[p1|e1] []]; [|discriminate].
  destruct (getProp parsed "confidence" tt) as [[p2|e2] []]; [|discriminate].
  destruct (getProp parsed "reason" tt) as [[p3|e3] []]; [|discriminate].
  destruct p1 as [[]|]; try discriminate.
  destruct p2 as [[]|]; try discriminate.
  destruct p3 as [[]|]; try discriminate.
  cbn. intros [= <-]. cbn. apply clampNumber_range.
Qed.

Lemma classifyWithAI_unfold (net : Network) (text : jstr) (w : World) :
  model (svc w) <> None ->
  classifyWithAI net text w =
  match generateContent net (request_for text) with
  | ReplyFails e => (Throw e, requested net text w)
  | ReplyText t =>
      match fst (parseResponse t tt) with
      | Normal r => (Normal r, requested net text w)
      | Throw _ => (Throw (js "Invalid AI response format"),
                    requested net text w)
      end
  end.
Proof.
  intros Hm. unfold classifyWithAI, bind, get.
  destruct (model (svc w)) as [m|] eqn:Em; [|congruence].
  unfold waitForRateLimit, modify, callModel, bind, modify, try_catch, on_svc.
  cbn [svc prompts]. fold (request_for text).
  destruct (generateContent net (request_for text)) as [t|e]; [|reflexivity].
  unfold ret. rewrite parseResponse_pure.
  unfold requested. rewrite Em.
  destruct (fst (parseResponse t tt)); reflexivity.
Qed.

Lemma isInitialized_model (s : ClassificationService) :
  isInitialized s = true -> model s <> None.
Proof. unfold isInitialized. destruct (genAI s), (model s); congruence. Qed.

Lemma classifyMessage_uninitialized net text w :
  isInitialized (svc w) = false ->
  classifyMessage net text w = (Normal (classifyWithKeywords text), w).
Proof. intros Hi. unfold classifyMessage, bind, get. now rewrite Hi. Qed.

Lemma classifyMessage_initialized net text w :
  isInitialized (svc w) = true ->
  classifyMessage net text w =
  (Normal match fst (classifyWithAI net text w) with
          | Normal r => r
          | Throw _ => classifyWithKeywords text
          end,
   requested net text w).
Proof.
  intros Hi. unfold classifyMessage, bind, get. rewrite Hi. unfold try_catch.
  rewrite (classifyWithAI_unfold net text w (isInitialized_model _ Hi)).
  destruct (generateContent net (request_for text)) as [t|e]; [|reflexivity].
  destruct (fst (parseResponse t tt)); reflexivity.
Qed.

(** C1 (as amended). Whatever the text, whether or not the adjudicator
    is initialized, and whatever the model does - answers, fails, or
    answers something that is not the agreed JSON - [classifyMessage]
    returns a result and does not throw, and the confidence of the result
    lies between 0 and 1.  The result is either the answer the
    adjudicator accepted, whose reason is the string the model supplied,
    or the keyword fallback's, whose reason is not empty. *)
Theorem C1_classify_never_throws
    (net : Network) (text : jstr) (w : World) :
  exists (r : ClassificationResult) (w' : World),
    classifyMessage net text w = (Normal r, w') /\
    0 <= confidence r <= 1 /\
    ((isInitialized (svc w) = true /\
      fst (classifyWithAI net text w) = Normal r)
     \/ (r = classifyWithKeywords text /\ reason r <> [])).
Proof.
  destruct (isInitialized (svc w)) eqn:Hi.
  - rewrite (classifyMessage_initialized net text w Hi).
    pose proof (classifyWithAI_unfold net text w (isInitialized_model _ Hi))
      as E.
    destruct (fst (classifyWithAI net text w)) as [r|e] eqn:Er.
    + exists r, (requested net text w).
      split; [reflexivity|]. split; [|left; auto].
      rewrite E in Er.
      destruct (generateContent net (request_for text)) as [t|e];
        [|discriminate].
      destruct (fst (parseResponse t tt)) as [r'|] eqn:Ep; [|discriminate].
      cbn in Er. injection Er as <-. now apply (parseResponse_confidence t).
    + exists (classifyWithKeywords text), (requested net text w).
      split; [reflexivity|]. split; [apply classifyWithKeywords_confidence|].
      right. split; [reflexivity | apply classifyWithKeywords_reason].
  - rewrite (classifyMessage_uninitialized net text w Hi).
    exists (classifyWithKeywords text), w.
    split; [reflexivity|]. split; [apply classifyWithKeywords_confidence|].
    right. split; [reflexivity | apply classifyWithKeywords_reason].
Qed.

(** C2 (as amended). [classifyMessage] does not consult the scorer.
    When the adjudicator is initialized it sends exactly one request,
    whatever the text; an answer it accepts is the final result, and if
    the adjudication throws the result is the keyword fallback's.  When
    the adjudicator is not initialized nothing is sent and the result is
    the keyword fallback's. *)
Theorem C2_adjudicator_first_when_configured
    (net : Network) (text : jstr) (w : World) :
  let out := classifyMessage net text w in
  (isInitialized (svc w) = true ->
   prompts (snd out) = prompts w ++ [request_for text]) /\
  (forall t r,
     isInitialized (svc w) = true ->
     generateContent net (request_for text) = ReplyText t ->
     fst (parseResponse t tt) = Normal r ->
     fst out = Normal r) /\
  (isInitialized (svc w) = true ->
   returned (fst (classifyWithAI net text w)) = false ->
   fst out = Normal (classifyWithKeywords text)) /\
  (isInitialized (svc w) = false ->
   out = (Normal (classifyWithKeywords text), w)).
Proof.
  cbn zeta. repeat split.
  - intros Hi. now rewrite (classifyMessage_initialized net text w Hi).
  - intros t r Hi Hg Hp. rewrite (classifyMessage_initialized net text w Hi).
    rewrite (classifyWithAI_unfold net text w (isInitialized_model _ Hi)),
            Hg, Hp.
    reflexivity.
  - intros Hi Hf. rewrite (classifyMessage_initialized net text w Hi).
    destruct (fst (classifyWithAI net text w)); [discriminate | reflexivity].
  - apply classifyMessage_uninitialized.
Qed.

End Orchestrator.

(** ** The notification queue *)

Section Queue.
Import Telegram.

(** [sendSpamNotification] swallows every failure of the channel ... *)
Lemma sendSpamNotification_returns
    (ch : Channel) (m : Types.SMSMessage) (w : World) :
  exists (b : bool) (w' : World), sendSpamNotification ch m w = (Normal b, w').
Proof.
  unfold sendSpamNotification, bind, get.
  destruct (negb (isInitialized (tg w)) || negb (isEnabled (tg w)));
    [now eexists _, _|].
  unfold try_catch, sendMessage, bind, get.
  destruct (client (tg w)), (config (tg w)); cbn;
    try destruct (acknowledges ch (posts w)); cbn; now eexists _, _.
Qed.

(** ... so the [catch] of the loop of [processQueue] is never entered:
    every item is counted as sent. *)
Lemma processItem_counts_sent
    (ch : Channel) (item : QueueItem) (c : Counts) (w : World) :
  exists w', processItem ch item c w
             = (Normal {| sent := S (sent c); failed := failed c |}, w').
Proof.
  unfold processItem, try_catch, bind.
  destruct (sendSpamNotification_returns ch (message item) w) as (b & w' & ->).
  now eexists.
Qed.

Lemma processItems_counts
    (ch : Channel) (items : list QueueItem) (c : Counts) (w : World) :
  exists w', processItems ch items c w
             = (Normal {| sent := sent c + length items;
                          failed := failed c |}, w').
Proof.
  revert c w; induction items as [|item rest IH]; intros c w.
  - exists w. cbn. unfold ret. destruct c; cbn. now rewrite Nat.add_0_r.
  - cbn [processItems]. unfold bind.
    destruct (processItem_counts_sent ch item c w) as (w1 & ->).
    destruct (IH {| sent := S (sent c); failed := failed c |} w1) as (w2 & ->).
    exists w2. cbn. do 2 f_equal. f_equal. lia.
Qed.

(** No drain ever reports a failed notification. *)
Lemma processQueue_never_reports_failure (ch : Channel) (w : World) :
  exists (c : Counts) (w' : World),
    processQueue ch w = (Normal c, w') /\ failed c = 0.
Proof.
  unfold processQueue, bind, processQueue_begin, bind, get.
  destruct (negb (isInitialized (tg w)) || negb (isEnabled (tg w))
            || isProcessing (tg w)).
  - cbn. now eexists _, _.
  - cbn -[processItems].
    match goal with |- context [processItems ch ?items ?c ?w0] =>
      destruct (processItems_counts ch items c w0) as (w' & ->) end.
    cbn. now eexists _, _.
Qed.

(** C7. A call of [processQueue] made while a drain is in progress
    returns sent = 0 and failed = 0 and leaves the service, its queue
    included, exactly as it was. *)
Theorem C7_drain_is_not_reentrant (ch : Channel) (w : World) :
  isProcessing (tg w) = true ->
  processQueue ch w = (Normal {| sent := 0; failed := 0 |}, w).
Proof.
  intros Hbusy. unfold processQueue, bind, processQueue_begin, bind, get.
  rewrite Hbusy, orb_true_r. reflexivity.
Qed.

End Queue.

(** ** Rules for triples *)

Section Rules.
Context {S : Type}.

Lemma triple_ret {A} (P : S -> Prop) (a : A) (Q : A -> S -> Prop) E :
  (forall s, P s -> Q a s) -> triple P (ret a) Q E.
Proof. intros HQ s Hs. now apply HQ. Qed.

Lemma triple_bind {A B} (P : S -> Prop) (c : M S A) (k : A -> M S B)
    (R : A -> S -> Prop) (Q : B -> S -> Prop) (E : S -> Prop) :
  triple P c R E -> (forall a, triple (R a) (k a) Q E) ->
  triple P (bind c k) Q E.
Proof.
  intros Hc Hk s Hs. unfold bind. specialize (Hc s Hs).
  destruct (c s) as [[a|e] s']; [now apply Hk | exact Hc].
Qed.

Lemma triple_try {A} (P : S -> Prop) (c : M S A) (h : jstr -> M S A)
    (Q : A -> S -> Prop) (R E : S -> Prop) :
  triple P c Q R -> (forall e, triple R (h e) Q E) ->
  triple P (try_catch c h) Q E.
Proof.
  intros Hc Hh s Hs. unfold try_catch. specialize (Hc s Hs).
  destruct (c s) as [[a|e] s']; [exact Hc | now apply Hh].
Qed.

Lemma triple_get (P : S -> Prop) (Q : S -> S -> Prop) E :
  (forall s, P s -> Q s s) -> triple P get Q E.
Proof. intros HQ s Hs. now apply HQ. Qed.

Lemma triple_zoom {T A} (P : S -> Prop) (proj : S -> T) (inj : T -> S -> S)
    (c : M T A) (Q : A -> S -> Prop) (E : S -> Prop)
    (P' : T -> Prop) (Q' : A -> T -> Prop) (E' : T -> Prop) :
  triple P' c Q' E' ->
  (forall s, P s -> P' (proj s)) ->
  (forall s a t, P s -> Q' a t -> Q a (inj t s)) ->
  (forall s t, P s -> E' t -> E (inj t s)) ->
  triple P (zoom proj inj c) Q E.
Proof.
  intros Hc HP HQ HE s Hs. unfold zoom. specialize (Hc (proj s) (HP s Hs)).
  destruct (c (proj s)) as [[a|e] t']; eauto.
Qed.

Lemma keeps_bind {A B} (I : S -> Prop) (c : M S A) (k : A -> M S B) :
  keeps I c -> (forall a, keeps I (k a)) -> keeps I (bind c k).
Proof.
  intros Hc Hk.
  exact (triple_bind I c k (fun _ => I) (fun _ => I) I Hc Hk).
Qed.

Lemma keeps_try {A} (I : S -> Prop) (c : M S A) (h : jstr -> M S A) :
  keeps I c -> (forall e, keeps I (h e)) -> keeps I (try_catch c h).
Proof.
  intros Hc Hh. exact (triple_try I c h (fun _ => I) I I Hc Hh).
Qed.

Lemma keeps_ret {A} (I : S -> Prop) (a : A) : keeps I (ret a).
Proof. intros s Hs. exact Hs. Qed.

Lemma keeps_modify (I : S -> Prop) (f : S -> S) :
  (forall s, I s -> I (f s)) -> keeps I (modify f).
Proof. intros Hf s Hs. now apply Hf. Qed.

(** A computation on one component keeps what is said of the others. *)
Lemma keeps_zoom {T A} (I : S -> Prop) (proj : S -> T) (inj : T -> S -> S)
    (c : M T A) :
  (forall t s, I s -> I (inj t s)) -> keeps I (zoom proj inj c).
Proof.
  intros Hframe s Hs. unfold zoom.
  destruct (c (proj s)) as [[a|e] t']; now apply Hframe.
Qed.

End Rules.

(** ** The message store *)

Section Store.
Import Types Database.

Lemma ensureInitialized_rows (st : Storage) (I : gmap (list N) Row -> Prop) :
  keeps (fun w => I (sms_messages w)) (ensureInitialized st).
Proof.
  intros w Hw. unfold ensureInitialized, bind, get.
  destruct (opened w); cbn; [exact Hw|].
  destruct (canOpen st); cbn; exact Hw.
Qed.

(** A lookup reads the table and leaves it alone. *)
Lemma getMessage_reads (st : Storage) (key : jstr) (rows : gmap (list N) Row) :
  triple (fun w => sms_messages w = rows)
         (getMessage st key)
         (fun existing w =>
            sms_messages w = rows /\
            (existing = None <-> rows !! key = None))
         (fun w => sms_messages w = rows).
Proof.
  unfold getMessage.
  apply (triple_bind _ _ _ (fun _ w => sms_messages w = rows));
    [apply (ensureInitialized_rows st (fun t => t = rows))|]. intros [].
  apply (triple_bind _ _ _ (fun w s => sms_messages s = rows /\ w = s)).
  - apply triple_get. intros s Hs. now split.
  - intros w. apply triple_ret. intros s [Hs <-]. split; [exact Hs|].
    rewrite Hs. destruct (rows !! key); split; congruence.
Qed.

(** Writing the row of one key leaves the rows of the other keys alone. *)
Lemma insertMessage_other (st : Storage) (m : SMSMessage) (key : jstr)
    (row : Row) :
  id m <> key ->
  keeps (fun w => sms_messages w !! key = Some row) (insertMessage st m).
Proof.
  intros Hne. unfold insertMessage. apply keeps_bind.
  - apply (ensureInitialized_rows st (fun t => t !! key = Some row)).
  - intros []. apply keeps_modify. intros w Hw. cbn.
    now rewrite lookup_insert_ne.
Qed.

Lemma updateClassification_other (st : Storage) (key' : jstr) spam conf why
    (key : jstr) (row : Row) :
  key' <> key ->
  keeps (fun w => sms_messages w !! key = Some row)
        (updateClassification st key' spam conf why).
Proof.
  intros Hne. unfold updateClassification. apply keeps_bind.
  - apply (ensureInitialized_rows st (fun t => t !! key = Some row)).
  - intros []. apply keeps_modify. intros w Hw. cbn.
    now rewrite lookup_alter_ne.
Qed.

End Store.

(** ** The ingestion coordinator *)

Section Ingestion.
Import Types Monitoring.
Context `{Host}.
Variables (env : Env) (key : jstr) (row : Database.Row).

Lemma classify_keeps_store text : keeps (stored key row) (classify env text).
Proof.
  unfold classify. apply keeps_bind.
  - intros a Ha. exact Ha.
  - intros a. apply keeps_zoom. intros t s Hs. exact Hs.
Qed.

Lemma telegram_keeps_store {A} (c : M Telegram.World A) :
  keeps (stored key row) (in_telegram c).
Proof. apply keeps_zoom. intros t s Hs. exact Hs. Qed.

Lemma notifyMessage_keeps_store m : keeps (stored key row) (notifyMessage m).
Proof.
  apply keeps_modify. intros s Hs. destruct (onMessageCallback s); exact Hs.
Qed.

Lemma notifyStats_keeps_store : keeps (stored key row) notifyStats.
Proof.
  apply keeps_modify. intros s Hs.
  destruct (onStatsUpdateCallback s); exact Hs.
Qed.

Lemma database_keeps_store {A} (c : M Database.World A) :
  keeps (fun w => Database.sms_messages w !! key = Some row) c ->
  keeps (stored key row) (in_database c).
Proof.
  intros Hc. unfold in_database.
  apply (triple_zoom _ _ _ _ _ _ _ _ _ Hc); auto.
Qed.

Lemma lookup_keeps_store (k : jstr) :
  triple (stored key row)
         (in_database (Database.getMessage (storage env) k))
         (fun existing a => stored key row a /\ (existing = None -> k <> key))
         (stored key row).
Proof.
  intros a Ha. unfold in_database, zoom.
  pose proof (getMessage_reads (storage env) k
                (Database.sms_messages (database a)) (database a) eq_refl)
    as Hg.
  destruct (Database.getMessage (storage env) k (database a))
    as [[existing|e] d']; unfold stored in *; cbn.
  - destruct Hg as [Hrows Hex]. rewrite Hrows. split; [exact Ha|].
    intros Hn Hk. apply Hex in Hn. subst k. congruence.
  - now rewrite Hg.
Qed.

(** A native message under another key goes through the whole pipeline
    without touching the row of [key]. *)
Lemma pipeline_keeps_store (m : SMSMessage) (count : nat) :
  id m <> key ->
  keeps (stored key row)
    (run in_database (Database.insertMessage (storage env) m)
     then let* result := classify env (body m) in
          run in_database
                (Database.updateClassification (storage env) (id m)
                   (Classification.isSpam result)
                   (Classification.confidence result)
                   (Classification.reason result))
          then run (if Classification.isSpam result
                    then run in_telegram
                               (Telegram.sendSpamNotification
                                  (channel env)
                                  (classified env m result false))
                         then ret tt
                    else ret tt)
          then run notifyMessage (classified env m result true)
          then ret (S count)).
Proof.
  intros Hne.
  apply keeps_bind;
    [apply database_keeps_store, insertMessage_other; exact Hne|]; intros _.
  apply keeps_bind; [apply classify_keeps_store|]; intros result.
  apply keeps_bind;
    [apply database_keeps_store, updateClassification_other; exact Hne|];
    intros _.
  apply keeps_bind.
  { destruct (Classification.isSpam result); [|apply keeps_ret].
    apply keeps_bind; [apply telegram_keeps_store | intros; apply keeps_ret]. }
  intros _. apply keeps_bind; [apply notifyMessage_keeps_store|].
  intros _. apply keeps_ret.
Qed.

Lemma ingestNative_keeps_store nativeMsg count :
  keeps (stored key row) (ingestNative env nativeMsg count).
Proof.
  unfold ingestNative. apply keeps_try; [|intros; apply keeps_ret].
  apply (triple_bind _ _ _
           (fun existing a =>
              stored key row a /\ (existing = None -> n_id nativeMsg <> key)));
    [apply lookup_keeps_store|].
  intros [m|].
  - apply triple_ret. now intros s [Hs _].
  - intros s [Hs Hne].
    exact (pipeline_keeps_store
             {| id := n_id nativeMsg; sender := n_sender nativeMsg;
                body := n_body nativeMsg; timestamp := n_timestamp nativeMsg;
                isSpam := None; confidence := None; reason := None;
                classifiedAt := None |} count (Hne eq_refl) s Hs).
Qed.

Lemma ingestAll_keeps_store msgs count :
  keeps (stored key row) (ingestAll env msgs count).
Proof.
  revert count; induction msgs as [|m rest IH]; intros count;
    cbn [ingestAll].
  - apply keeps_ret.
  - apply keeps_bind; [apply ingestNative_keeps_store | exact IH].
Qed.

Lemma loadAndClassifyInbox_keeps_store limit :
  keeps (stored key row) (loadAndClassifyInbox env limit).
Proof.
  unfold loadAndClassifyInbox.
  destruct (getAllMessages env limit) as [msgs|e].
  - apply keeps_bind; [apply ingestAll_keeps_store|]. intros n.
    apply keeps_bind; [apply notifyStats_keeps_store | intros; apply keeps_ret].
  - intros s Hs. exact Hs.
Qed.

(** A message whose id is stored is skipped outright. *)
Lemma ingestNative_skips_stored nativeMsg count a :
  n_id nativeMsg = key -> stored key row a ->
  exists a',
    ingestNative env nativeMsg count a = (Normal count, a') /\
    Database.sms_messages (database a') = Database.sms_messages (database a) /\
    classifier a' = classifier a /\
    telegram a' = telegram a /\
    delivered a' = delivered a.
Proof.
  intros Hk Hs. unfold stored in Hs.
  unfold ingestNative, try_catch, bind, in_database, zoom,
    Database.getMessage, Database.ensureInitialized, bind, get.
  rewrite Hk.
  destruct (Database.opened (database a)) eqn:Ho; cbn.
  - rewrite Hs. cbn. eexists; split; [reflexivity|]. now cbn.
  - destruct (Database.canOpen (storage env)); cbn.
    + rewrite Hs. cbn. eexists; split; [reflexivity|]. now cbn.
    + eexists; split; [reflexivity|]. now cbn.
Qed.

(** C6. When the store already holds a row under an id, ingesting a
    message with that id again writes nothing: the message is skipped
    without being classified, notified or counted and the table is left
    as it was; and after a whole scan of the inbox, whatever else the
    inbox contains, the row stored under that id - verdict, confidence
    and reason included - is the one that was there before. *)
Theorem C6_reingestion_is_a_storage_noop (limit : nat) (a : App) :
  stored key row a ->
  (forall nativeMsg count,
     n_id nativeMsg = key ->
     exists a',
       ingestNative env nativeMsg count a = (Normal count, a') /\
       Database.sms_messages (database a')
       = Database.sms_messages (database a) /\
       classifier a' = classifier a /\
       telegram a' = telegram a /\
       delivered a' = delivered a) /\
  stored key row (snd (loadAndClassifyInbox env limit a)).
Proof.
  intros Hs. split.
  - intros nativeMsg count Hk. now apply ingestNative_skips_stored.
  - pose proof (loadAndClassifyInbox_keeps_store limit a Hs) as Hk.
    destruct (loadAndClassifyInbox env limit a) as [[n|e] a']; exact Hk.
Qed.

End Ingestion.

(** ** The scorer: verdicts and indicators *)

Section Verdicts.
Local Open Scope Q_scope.
Import Nlp.

Lemma generateReason_nonempty (f : Features) (spam : bool) (score : Q) :
  generateReason f spam score <> [].
Proof.
  unfold generateReason.
  destruct spam; match goal with |- (if ?c then _ else _) <> _ => destruct c end;
    discriminate.
Qed.

Lemma clamp_le_half (r : Q) : r <= 1 # 2 -> Qmax 0 (Qmin 1 r) <= 1 # 2.
Proof.
  intros Hr. apply Q.max_lub; [discriminate|].
  apply (Qle_trans _ r); [apply Q.le_min_r | exact Hr].
Qed.

Lemma clamp_gt_half (r : Q) : 6 # 10 <= r -> 1 # 2 < Qmax 0 (Qmin 1 r).
Proof.
  intros Hr. apply (Qlt_le_trans _ (Qmin 1 r)); [|apply Q.le_max_r].
  apply Q.min_glb_lt; [reflexivity | lra].
Qed.

Lemma Qgtb_false_le (x y : Q) : Qgtb x y = false -> x <= y.
Proof.
  unfold Qgtb. rewrite negb_false_iff. apply Qle_bool_imp_le.
Qed.

(** X2. A feature set on which no spam indicator fires - no spam
    keyword, urgency and capital ratio at most 0.5, at most two
    exclamation marks, and no link unless banking terms are present - is
    scored ham, whatever its other features. *)
Theorem X2_no_spam_indicator_is_ham (f : Features) :
  no_spam_indicator f -> isSpam (score_features f) = false.
Proof.
  intros (Hk & Hu & Hc & He & Hurl).
  unfold score_features. cbn [isSpam]. apply Qgtb_le.
  unfold calculateSpamScore.
  rewrite Hk, (Qgtb_le _ _ Hu), (Qgtb_le _ _ Hc).
  replace (2 <? exclamationCount f)%nat with false
    by (symmetry; apply Nat.ltb_ge; exact He).
  replace (hasURL f && negb (hasBankingTerms f)) with false
    by (destruct Hurl as [-> | ->]; [reflexivity | now rewrite andb_false_r]).
  change (0 <? 0)%nat with false. cbv iota zeta.
  pose proof (Qnat_nonneg (legitPatternCount f)) as Hl.
  apply clamp_le_half.
  destruct (0 <? legitPatternCount f)%nat, (hasOTP f), (hasBankingTerms f),
    (hasMoneyAmount f); cbn [andb]; lra.
Qed.


Lemma Qgtb_true_lt (x y : Q) : Qgtb x y = true -> y < x.
Proof. apply Qgtb_lt. Qed.

Lemma ltb_Qnat (n : nat) : (0 <? n)%nat = true -> 1 <= Qnat n.
Proof.
  intros Hn. apply Nat.ltb_lt in Hn. unfold Qnat, Qle; cbn. lia.
Qed.

(** X3. On a feature set without legitimate pattern, OTP and banking
    terms, the scorer says spam exactly when at least one spam indicator
    fires: a spam keyword, urgency above 0.5, capital ratio above 0.5,
    more than two exclamation marks, or a link. *)
Theorem X3_spam_iff_indicator_without_legitimacy (f : Features) :
  no_legit_indicator f ->
  (isSpam (score_features f) = true <-> some_spam_indicator f).
Proof.
  intros (Hl & Ho & Hb).
  unfold score_features. cbn [isSpam]. rewrite Qgtb_lt.
  unfold calculateSpamScore, some_spam_indicator.
  rewrite Hl, Ho, Hb, andb_false_r, andb_true_r.
  change (0 <? 0)%nat with false. cbv iota zeta.
  pose proof (Qnat_nonneg (spamKeywordCount f)) as Hk0.
  destruct (0 <? spamKeywordCount f)%nat eqn:Ek;
    [pose proof (ltb_Qnat _ Ek) as Hk1; apply Nat.ltb_lt in Ek
    |apply Nat.ltb_ge in Ek];
  (destruct (Qgtb (urgencyScore f) (1 # 2)) eqn:Eu;
    [apply Qgtb_true_lt in Eu | apply Qgtb_false_le in Eu]);
  (destruct (Qgtb (capitalRatio f) (1 # 2)) eqn:Ec;
    [apply Qgtb_true_lt in Ec | apply Qgtb_false_le in Ec]);
  (destruct (2 <? exclamationCount f)%nat eqn:Ee;
    [apply Nat.ltb_lt in Ee | apply Nat.ltb_ge in Ee]);
  destruct (hasURL f) eqn:Eurl;
  (split;
   [ intros Hs;
     first [ left; assumption
           | right; left; assumption
           | right; right; left; assumption
           | right; right; right; left; assumption
           | right; right; right; right; reflexivity
           | exfalso; revert Hs; apply Qle_not_lt, clamp_le_half; lra ]
   | intros Hi;
     first [ apply clamp_gt_half; lra
           | exfalso; destruct Hi as [Hi|[Hi|[Hi|[Hi|Hi]]]];
             first [lia | lra | discriminate] ] ]).
Qed.

Lemma clamp_mono (x y : Q) : x <= y -> Qmax 0 (Qmin 1 x) <= Qmax 0 (Qmin 1 y).
Proof.
  intros Hxy. apply Q.max_le_compat_l. apply Q.min_le_compat_l. exact Hxy.
Qed.

Lemma if_plus_mono (b : bool) (x s s' : Q) :
  s <= s' -> (if b then s + x else s) <= (if b then s' + x else s').
Proof. intros Hs. destruct b; lra. Qed.

Lemma if_minus_mono (b : bool) (x s s' : Q) :
  s <= s' -> (if b then s - x else s) <= (if b then s' - x else s').
Proof. intros Hs. destruct b; lra. Qed.

(** X4. With the other features fixed, the spam score does not
    decrease when the number of spam keywords grows, and does not
    increase when the number of legitimate patterns grows. *)
Theorem X4_score_is_monotone_in_the_counts (f : Features) (n m : nat) :
  (n <= m)%nat ->
  calculateSpamScore (with_spamKeywordCount n f)
  <= calculateSpamScore (with_spamKeywordCount m f) /\
  calculateSpamScore (with_legitPatternCount m f)
  <= calculateSpamScore (with_legitPatternCount n f).
Proof.
  intros Hnm. pose proof (Qnat_le n m Hnm) as Hq.
  pose proof (Qnat_nonneg n) as Hn0.
  unfold calculateSpamScore, with_spamKeywordCount, with_legitPatternCount.
  cbn [hasURL hasPhoneNumber hasMoneyAmount urgencyScore sentimentScore
       spamKeywordCount legitPatternCount hasOTP hasBankingTerms capitalRatio
       exclamationCount questionCount wordCount].
  cbv zeta. split; apply clamp_mono.
  - repeat (apply if_minus_mono || apply if_plus_mono).
    destruct (0 <? n)%nat eqn:En, (0 <? m)%nat eqn:Em; try lra.
    apply Nat.ltb_lt in En. apply Nat.ltb_ge in Em. lia.
  - repeat (apply if_minus_mono || apply if_plus_mono).
    destruct (0 <? n)%nat eqn:En, (0 <? m)%nat eqn:Em; try lra.
    apply Nat.ltb_lt in En. apply Nat.ltb_ge in Em. lia.
Qed.

Context `{Host}.

(** X1. Whatever the message and the state of the service object, the
    reason of the result of the scorer's [classifyMessage] is not the
    empty string. *)
Theorem X1_scorer_reason_is_never_empty
    (svc : NLPClassifierService) (message : jstr) :
  (1 <= length (reason (fst (classifyMessage svc message))))%nat.
Proof.
  unfold classifyMessage. destruct (extractFeatures svc message) as [f svc'].
  cbn [fst]. unfold score_features. cbn [reason].
  pose proof (generateReason_nonempty f
                (Qgtb (calculateSpamScore f) (1 # 2)) (calculateSpamScore f))
    as Hne.
  destruct (generateReason _ _ _); [congruence | cbn [length]; lia].
Qed.

End Verdicts.

(** ** The scorer: what the detectors find has been counted *)

Section Overlap.
Import Nlp.

Lemma execAt_start r prev s pos : execAt r prev s pos 0 = searchFrom r prev s pos.
Proof. now destruct s. Qed.

(** A search that finds a match means a scan that collects one. *)
Lemma search_scan r s : forall prev pos,
  searchFrom r prev s pos <> None -> scan r prev s pos 0 <> [].
Proof.
  induction s as [|c s IH]; intros prev pos; cbn [searchFrom scan].
  - destruct (matchHere r prev []); [discriminate | congruence].
  - destruct (matchHere r prev (c :: s)); [discriminate | apply IH].
Qed.

Lemma test_rewound_scan p text :
  fst (test (rewind p) text) = true ->
  scan (source p) None text 0 0 <> [].
Proof.
  unfold test, exec, rewind. cbn [global lastIndex source setLastIndex].
  replace (if global p then 0 else 0) with 0 by now destruct (global p).
  rewrite execAt_start. intros Ht. apply search_scan.
  destruct (searchFrom (source p) None text 0); [discriminate|].
  cbn in Ht. discriminate.
Qed.

Lemma some_test_rewound ps text :
  fst (some_test (List.map rewind ps) text) = true ->
  Exists (matches_somewhere text) ps.
Proof.
  induction ps as [|p ps IH]; cbn [List.map some_test]; [discriminate|].
  pose proof (test_rewound_scan p text) as Hp.
  destruct (test (rewind p) text) as [hit p']. cbn [fst] in Hp.
  destruct hit.
  - intros _. left. now apply Hp.
  - destruct (some_test (List.map rewind ps) text) as [found rest].
    cbn [fst] in *. intros Hf. right. now apply IH.
Qed.

Lemma match_count_some text p :
  global p = true -> matches_somewhere text p ->
  1 <= fst (match_count text p).
Proof.
  unfold matches_somewhere, match_count, str_match. intros -> Hs.
  destruct (scan (source p) None text 0 0); [congruence|]. cbn. lia.
Qed.

Lemma forEach_count_grows ps text : forall c,
  c <= fst (forEach_count ps text c).
Proof.
  induction ps as [|p ps IH]; intros c; cbn [forEach_count]; [cbn; lia|].
  destruct (match_count text p) as [n p'].
  specialize (IH (c + n)).
  destruct (forEach_count ps text (c + n)) as [total rest]. cbn [fst] in *. lia.
Qed.

Lemma forEach_count_some ps text : forall c,
  all_global ps -> Exists (matches_somewhere text) ps ->
  S c <= fst (forEach_count ps text c).
Proof.
  induction ps as [|p ps IH]; intros c Hg Hex; [inversion Hex|].
  cbn [forEach_count]. inversion Hg as [|? ? Hp Hps]; subst.
  pose proof (match_count_some text p Hp) as Hm.
  destruct (match_count text p) as [n p']. cbn [fst] in Hm.
  pose proof (forEach_count_grows ps text (c + n)) as Hgr.
  inversion Hex as [? ? Hhit | ? ? Hlater]; subst.
  - specialize (Hm Hhit).
    destruct (forEach_count ps text (c + n)) as [total rest]. cbn [fst] in *. lia.
  - specialize (IH (c + n) Hps Hlater).
    destruct (forEach_count ps text (c + n)) as [total rest]. cbn [fst] in *. lia.
Qed.

Lemma countLegitimatePatterns_some lp text :
  legit_global lp ->
  Exists (matches_somewhere text) (banking lp) \/
  Exists (matches_somewhere text) (otp lp) ->
  1 <= fst (countLegitimatePatterns lp text).
Proof.
  intros (H1 & H2 & H3 & H4 & H5) Hex. unfold countLegitimatePatterns.
  pose proof (forEach_count_grows (banking lp) text 0) as G1.
  pose proof (fun E => forEach_count_some (banking lp) text 0 H1 E) as S1.
  destruct (forEach_count (banking lp) text 0) as [c1 f1].
  pose proof (forEach_count_grows (otp lp) text c1) as G2.
  pose proof (fun E => forEach_count_some (otp lp) text c1 H2 E) as S2.
  destruct (forEach_count (otp lp) text c1) as [c2 f2].
  pose proof (forEach_count_grows (delivery lp) text c2) as G3.
  destruct (forEach_count (delivery lp) text c2) as [c3 f3].
  pose proof (forEach_count_grows (booking lp) text c3) as G4.
  destruct (forEach_count (booking lp) text c3) as [c4 f4].
  pose proof (forEach_count_grows (service lp) text c4) as G5.
  destruct (forEach_count (service lp) text c4) as [c5 f5].
  cbn [fst] in *.
  destruct Hex as [E|E]; [specialize (S1 E) | specialize (S2 E)]; lia.
Qed.

Lemma Exists_rewind text ps :
  Exists (matches_somewhere text) (List.map rewind ps) ->
  Exists (matches_somewhere text) ps.
Proof.
  induction ps as [|p ps IH]; cbn [List.map]; intros Hex; inversion Hex; subst.
  - left. assumption.
  - right. now apply IH.
Qed.

Context `{Host}.

Lemma detectors_imply_count svc message :
  service_global svc ->
  let f := fst (extractFeatures svc message) in
  (hasOTP f = true -> 1 <= legitPatternCount f) /\
  (hasBankingTerms f = true -> 1 <= legitPatternCount f).
Proof.
  intros [Hs Hl]. cbn zeta. unfold extractFeatures.
  destruct (countSpamKeywords _ _) as [n1 sp].
  pose proof (countLegitimatePatterns_global _ (toLowerCase message) Hl)
    as [_ El].
  pose proof (countLegitimatePatterns_some _ (toLowerCase message) Hl) as Hc.
  destruct (countLegitimatePatterns _ _) as [n2 lp].
  cbn [snd fst] in El, Hc. subst lp.
  unfold detectOTP. cbn [otp rewind_legit].
  pose proof (some_test_rewound (otp (legitimatePatterns svc))
                (toLowerCase message)) as Ho.
  destruct (some_test (List.map rewind (otp (legitimatePatterns svc))) _)
    as [b1 ps1]. cbn [fst] in Ho.
  unfold detectBankingTerms. cbn [banking otp rewind_legit].
  pose proof (some_test_rewound (banking (legitimatePatterns svc))
                (toLowerCase message)) as Hb.
  destruct (some_test (List.map rewind (banking (legitimatePatterns svc))) _)
    as [b2 ps2]. cbn [fst] in Hb.
  cbn [fst hasOTP hasBankingTerms legitPatternCount].
  split; intros ->; apply Hc; [right | left]; auto.
Qed.

(** X5. After any history of calls, when the features of a message
    have [hasOTP] or [hasBankingTerms] set, their [legitPatternCount] is
    at least 1: the OTP and banking patterns are among the patterns that
    [countLegitimatePatterns] counts, so such a message is discounted
    twice. *)
Theorem X5_detected_patterns_are_counted (history : list jstr) (message : jstr) :
  let f := fst (extractFeatures (after_calls history) message) in
  (hasOTP f = true -> 1 <= legitPatternCount f) /\
  (hasBankingTerms f = true -> 1 <= legitPatternCount f).
Proof.
  apply detectors_imply_count. apply after_calls_invariant.
Qed.

End Overlap.

(** ** The tokenizer *)

Section Tokens.
Import TextPreprocessing.

Lemma in_ranges_app c rs1 rs2 :
  in_ranges c (rs1 ++ rs2) = in_ranges c rs1 || in_ranges c rs2.
Proof. unfold in_ranges. apply existsb_app. Qed.

(** Replacing what a negated class matches leaves units of the class and
    units of the replacement. *)
Lemma replace_complement_units rs repl s : forall prev,
  Forall (fun c => in_ranges c rs = true) repl ->
  Forall (fun c => in_ranges c rs = true)
         (replaceScan (Cls true rs) repl prev s 0).
Proof.
  intros prev Hrepl. revert prev.
  induction s as [|c s IH]; intros prev.
  - cbn. constructor.
  - cbn [replaceScan]. rewrite matchHere_cls_cons.
    destruct (in_ranges c rs) eqn:Hc; cbn [xorb negb].
    + constructor; [exact Hc | apply IH].
    + apply Forall_app. split; [exact Hrepl | apply IH].
Qed.

(** A greedy run over a one-unit class always succeeds, within what is
    left of the string. *)
Lemma rmatch_cls_nil neg rs p k : rmatch (Cls neg rs) p [] k = None.
Proof. reflexivity. Qed.

Lemma rmatch_cls_cons neg rs p c s k :
  rmatch (Cls neg rs) p (c :: s) k
  = if xorb neg (in_ranges c rs) then k (Some c) s else None.
Proof. reflexivity. Qed.

Lemma rmatch_rep min extra r p s k :
  rmatch (Rep min extra r) p s k = mandatory (rmatch r) k extra min p s.
Proof. reflexivity. Qed.

Lemma optional_class_consumes rs n : forall p t,
  exists e,
    optional (rmatch (Cls false rs)) (fun _ rest => Some (length rest)) n p t
    = Some e /\ e <= length t.
Proof.
  induction n as [|n IH]; intros p t; cbn [optional].
  - eexists; split; [reflexivity | lia].
  - destruct t as [|c t].
    + rewrite rmatch_cls_nil. eexists; split; [reflexivity | cbn; lia].
    + rewrite rmatch_cls_cons. cbn [xorb]. destruct (in_ranges c rs).
      * destruct (progress (c :: t) t).
        -- destruct (IH (Some c) t) as (e & -> & He).
           exists e. split; [reflexivity | cbn; lia].
        -- eexists; split; [reflexivity | lia].
      * eexists; split; [reflexivity | lia].
Qed.

Lemma matchHere_plus_class rs prev c s :
  matchHere (plus (Cls false rs)) prev (c :: s) =
  if in_ranges c rs
  then match matchHere (plus (Cls false rs)) prev (c :: s) with
       | Some (S m) => Some (S m)
       | _ => Some 1
       end
  else None.
Proof.
  unfold matchHere, plus. rewrite !rmatch_rep. cbn [mandatory].
  rewrite !rmatch_cls_cons. cbn [xorb].
  destruct (in_ranges c rs); [|reflexivity].
  destruct (optional_class_consumes rs (length s) (Some c) s) as (e & -> & He).
  cbn [length]. rewrite Nat.sub_succ_l by exact He. reflexivity.
Qed.

Lemma replace_runs_units rs repl (P : N -> Prop) s : forall prev skip,
  Forall P repl ->
  Forall (fun c => in_ranges c rs = false -> P c) s ->
  Forall P (replaceScan (plus (Cls false rs)) repl prev s skip).
Proof.
  intros prev skip Hrepl Hs. revert prev skip.
  induction Hs as [|c s Hc Hs IH]; intros prev skip.
  - destruct skip; cbn; constructor.
  - destruct skip as [|skip]; cbn [replaceScan]; [|apply IH].
    rewrite matchHere_plus_class.
    destruct (in_ranges c rs) eqn:Ec.
    + destruct (matchHere _ _ _) as [[|m]|].
      * apply Forall_app; split; [exact Hrepl|]. cbn. apply IH.
      * apply Forall_app; split; [exact Hrepl|]. cbn [Nat.eqb Nat.sub].
        rewrite Nat.sub_0_r. apply IH.
      * apply Forall_app; split; [exact Hrepl|]. cbn. apply IH.
    + constructor; [now apply Hc | apply IH].
Qed.


Lemma trimStart_units (P : N -> Prop) s : Forall P s -> Forall P (trimStart s).
Proof.
  induction 1 as [|c s Hc Hs IH]; cbn [trimStart]; [constructor|].
  destruct (isSpace c); [exact IH | now constructor].
Qed.

Lemma trim_units (P : N -> Prop) s : Forall P s -> Forall P (trim s).
Proof.
  intros Hs. unfold trim.
  apply Forall_rev, trimStart_units, Forall_rev, trimStart_units, Hs.
Qed.

Lemma split_space_units (Q : N -> Prop) s : forall piece,
  Forall (fun c => c = 32%N \/ Q c) s -> Forall Q piece ->
  Forall (Forall Q) (split_space s piece).
Proof.
  induction s as [|c s IH]; intros piece Hs Hp; cbn [split_space].
  - constructor; [now apply Forall_rev | constructor].
  - inversion Hs as [|? ? Hc Hs']; subst.
    unfold cu_eqb. destruct (N.eqb_spec c 32) as [E|E].
    + constructor; [now apply Forall_rev | apply IH; [exact Hs' | constructor]].
    + apply IH; [exact Hs'|]. constructor; [|exact Hp].
      destruct Hc as [Hc|Hc]; [contradiction | exact Hc].
Qed.

Lemma single_range c x : in_ranges c [(x, x)] = cu_eqb c x.
Proof.
  unfold in_ranges, cu_eqb. cbn. rewrite orb_false_r.
  destruct (N.eqb_spec c x) as [->|E].
  - now rewrite N.leb_refl.
  - destruct (N.leb_spec x c), (N.leb_spec c x); cbn; try reflexivity. lia.
Qed.

Context `{Host}.

Lemma preprocessText_units text :
  Forall (fun c => c = 32%N \/ isTokenUnit c = true) (preprocessText text).
Proof.
  destruct text as [|x t]; [constructor|].
  unfold preprocessText. cbv zeta. change (js " ") with [32%N].
  apply trim_units.
  unfold str_replace at 1. unfold spaces_re, space. cbn [source literal_g].
  apply (replace_runs_units space_ranges [32%N]
           (fun c => c = 32%N \/ isTokenUnit c = true));
    [constructor; [now left | constructor]|].
  unfold str_replace at 1. unfold punctuation_re. cbn [source literal_g].
  match goal with |- Forall _ (replaceScan (Cls true ?rs) ?repl ?prev ?s 0) =>
    assert (Hr : Forall (fun c => in_ranges c rs = true) repl)
      by (repeat constructor);
    pose proof (replace_complement_units rs repl s prev Hr) as Hu
  end.
  rewrite List.Forall_forall in Hu |- *.
  intros c Hin Hs. specialize (Hu c Hin). cbv beta in Hu.
  rename Hu into Hc. rewrite !in_ranges_app, Hs in Hc.
  right. unfold isTokenUnit.
  change (singles "'") with [(39%N, 39%N)] in Hc.
  rewrite single_range in Hc. exact Hc.
Qed.

(** X6. Every token of [tokenize] is non-empty and consists of word
    characters ([A-Za-z0-9_]) and apostrophes only: no white space and
    no punctuation survives the preprocessing. *)
Theorem X6_tokens_are_words (text : jstr) (token : jstr) :
  In token (tokenize text) ->
  token <> [] /\ forallb isTokenUnit token = true.
Proof.
  unfold tokenize. intros Hin. apply filter_In in Hin as [Hin Hlen].
  split.
  - intros ->. discriminate.
  - apply forallb_forall. 
    pose proof (split_space_units (fun c => isTokenUnit c = true)
                  (preprocessText text) [] (preprocessText_units text)
                  (List.Forall_nil _)) as Hall.
    rewrite List.Forall_forall in Hall. specialize (Hall token Hin).
    now rewrite List.Forall_forall in Hall.
Qed.

End Tokens.

Section KeywordScore.
Local Open Scope Q_scope.
Import TextPreprocessing.
Context `{Host}.

(** X7. For every text and every list of keywords the keyword score
    lies between 0 and 1; it is 0 for a text without tokens and for an
    empty list of keywords, for which [containsSpamKeywords] is false. *)
Theorem X7_keyword_score_range (text : jstr) (keywords : list jstr) :
  0 <= calculateKeywordSpamScore text keywords <= 1 /\
  (tokenize text = [] -> calculateKeywordSpamScore text keywords = 0) /\
  calculateKeywordSpamScore text [] == 0 /\
  containsSpamKeywords text [] = false.
Proof.
  unfold calculateKeywordSpamScore, containsSpamKeywords.
  destruct (tokenize text) as [|t ts] eqn:Et; cbn [length Nat.eqb].
  - repeat split; try reflexivity; discriminate.
  - cbv zeta. rewrite !fold_count_filter. cbn [Nat.add List.map existsb].
    split; [|split; [discriminate|split; [|reflexivity]]].
    + split.
      * apply Q.min_glb; [|discriminate].
        apply (ratio_in_unit _ (length (t :: ts)));
          [apply filter_length_bound | cbn; lia].
      * apply Q.le_min_r.
    + replace (List.filter (fun _ : jstr => false) (t :: ts)) with (@nil jstr).
      * cbn [length]. rewrite Q.min_l; [|].
        -- unfold Qdiv. apply Qmult_0_l.
        -- unfold Qdiv. rewrite Qmult_0_l. discriminate.
      * symmetry. clear Et. generalize (t :: ts).
        intros l; induction l as [|x l IH]; [reflexivity | exact IH].
Qed.

End KeywordScore.

(** ** Truncation and the request *)

Section Truncation.
Import TextPreprocessing.

Lemma truncateText_short text n :
  length text <= n -> truncateText text n = text.
Proof.
  intros Hl. unfold truncateText.
  destruct (Nat.leb_spec (length text) n); [reflexivity | lia].
Qed.

Lemma truncateText_long text n :
  n < length text ->
  truncateText text n = firstn n text ++ js "...".
Proof.
  intros Hl. unfold truncateText, substring0.
  destruct (Nat.leb_spec (length text) n); [lia | reflexivity].
Qed.

Lemma truncateText_length text n : length (truncateText text n) <= n + 3.
Proof.
  destruct (Nat.le_gt_cases (length text) n) as [Hl|Hl].
  - rewrite truncateText_short by exact Hl. lia.
  - rewrite truncateText_long by exact Hl.
    rewrite length_app, length_firstn. cbn. lia.
Qed.

(** X8. [truncateText] returns a text of at most [maxLength] units
    unchanged; a longer one is cut to its first [maxLength] units
    followed by three dots, so the result has [maxLength + 3] units and
    can be longer than [maxLength].  The function of [helpers.ts] is the
    same. *)
Theorem X8_truncateText_keeps_a_prefix (text : jstr) (n : nat) :
  (length text <= n -> truncateText text n = text) /\
  (n < length text ->
   truncateText text n = firstn n text ++ js "..." /\
   length (truncateText text n) = n + 3) /\
  length (truncateText text n) <= n + 3 /\
  Telegram.truncateText text n = truncateText text n.
Proof.
  split; [apply truncateText_short|]. split.
  - intros Hl. split; [now apply truncateText_long|].
    rewrite truncateText_long by exact Hl.
    rewrite length_app, length_firstn. cbn. lia.
  - split; [apply truncateText_length | reflexivity].
Qed.

End Truncation.

Section Adjudicator.
Local Open Scope Q_scope.
Import Classification.
Context `{Host}.

Lemma prompt_length (t : jstr) :
  length (prompt_of t) = (length (prompt_of []) + length t)%nat.
Proof.
  unfold prompt_of. rewrite !length_app. cbn [length]. lia.
Qed.

(** X9. Whatever the length of the message, the request sent to the
    model has at most 1179 code units: the instructions and at most 503
    units of the preprocessed text. *)
Theorem X9_request_is_bounded (text : jstr) :
  (length (request_for text) <= 1179)%nat.
Proof.
  unfold request_for. rewrite prompt_length.
  pose proof (truncateText_length
                (TextPreprocessing.preprocessText text) 500) as Ht.
  assert (E : length (prompt_of []) = 676%nat) by (vm_compute; reflexivity).
  rewrite E. lia.
Qed.



Lemma requested_initialized net text w :
  isInitialized (svc (requested net text w)) = isInitialized (svc w).
Proof. reflexivity. Qed.

Lemma classifyMessage_returns (net : Network) (text : jstr) (w : World) :
  exists r,
    classifyMessage net text w
    = (Normal r, if isInitialized (svc w) then requested net text w else w) /\
    0 <= confidence r <= 1.
Proof.
  destruct (isInitialized (svc w)) eqn:Hi.
  - rewrite (classifyMessage_initialized net text w Hi).
    eexists; split; [reflexivity|].
    rewrite (classifyWithAI_unfold net text w (isInitialized_model _ Hi)).
    destruct (generateContent net (request_for text)) as [t|e];
      [|apply classifyWithKeywords_confidence].
    destruct (fst (parseResponse t tt)) as [r'|] eqn:Ep; cbn [fst].
    + now apply (parseResponse_confidence t).
    + apply classifyWithKeywords_confidence.
  - rewrite (classifyMessage_uninitialized net text w Hi).
    eexists; split; [reflexivity | apply classifyWithKeywords_confidence].
Qed.

Lemma classifyBatch_from_returns nets messages : forall acc w,
  exists fresh w',
    classifyBatch_from nets messages acc w = (Normal (acc ++ fresh), w') /\
    List.map res_id fresh = List.map msg_id messages /\
    Forall (fun b => 0 <= confidence (res_result b) <= 1) fresh /\
    isInitialized (svc w') = isInitialized (svc w) /\
    length (prompts w')
    = (length (prompts w)
       + if isInitialized (svc w) then length messages else 0)%nat.
Proof.
  induction messages as [|m rest IH]; intros acc w.
  - exists [], w. cbn. rewrite app_nil_r. repeat split; auto.
    destruct (isInitialized (svc w)); lia.
  - cbn [classifyBatch_from]. unfold bind at 1, get. unfold bind at 1.
    unfold try_catch, bind.
    destruct (classifyMessage_returns (nets (length (prompts w))) (msg_text m) w)
      as (r & -> & Hr).
    cbn [ret].
    destruct (IH (acc ++ [{| res_id := msg_id m; res_result := r |}])
                 (if isInitialized (svc w)
                  then requested (nets (length (prompts w))) (msg_text m) w
                  else w))
      as (fresh & w' & -> & Hids & Hconf & Hinit & Hlen).
    exists ({| res_id := msg_id m; res_result := r |} :: fresh), w'.
    split; [now rewrite <- app_assoc|].
    split; [cbn; now rewrite Hids|].
    split; [constructor; assumption|].
    destruct (isInitialized (svc w)) eqn:Hi.
    + rewrite requested_initialized, Hi in Hinit, Hlen.
      split; [exact Hinit|]. rewrite Hlen. cbn [requested prompts length].
      rewrite length_app. cbn. lia.
    + rewrite Hi in Hinit, Hlen. split; [exact Hinit|]. rewrite Hlen. lia.
Qed.

(** X12. [classifyBatch] does not throw and returns one result for
    every message, in the order of the messages and under their ids,
    each with a confidence between 0 and 1; it makes one request per
    message when the service is initialized and none otherwise. *)
Theorem X12_batch_answers_every_message (nets : nat -> Network) (messages : list BatchMessage)
    (w : World) :
  exists results w',
    classifyBatch nets messages w = (Normal results, w') /\
    List.map res_id results = List.map msg_id messages /\
    Forall (fun b => 0 <= confidence (res_result b) <= 1) results /\
    length (prompts w')
    = (length (prompts w)
       + if isInitialized (svc w) then length messages else 0)%nat.
Proof.
  unfold classifyBatch.
  destruct (classifyBatch_from_returns nets messages [] w)
    as (fresh & w' & E & Hids & Hconf & _ & Hlen).
  exists fresh, w'. auto.
Qed.

(** X13. [testClassification] reports success, with a result, in
    every state of the service and whatever the model does: when the
    model cannot be reached the result is the keyword fallback's. *)
Theorem X13_self_test_always_succeeds (net : Network) (w : World) :
  exists r w',
    testClassification net w
    = (Normal {| success := true; error := None; result := Some r |}, w') /\
    0 <= confidence r <= 1.
Proof.
  unfold testClassification, try_catch, bind.
  destruct (classifyMessage_returns net testMessage w) as (r & -> & Hr).
  now eexists _, _.
Qed.

Lemma no_opening_brace t : forall prev pos,
  lacks 123 t = true ->
  searchFrom (source json_re) prev t pos = None.
Proof.
  induction t as [|c t IH]; intros prev pos Hl.
  - reflexivity.
  - cbn [lacks forallb] in Hl. apply andb_true_iff in Hl as [Hc Ht].
    apply negb_true_iff in Hc. unfold cu_eqb in Hc.
    cbn [searchFrom]. 
    replace (matchHere (source json_re) prev (c :: t)) with (@None nat).
    + now apply IH.
    + unfold matchHere, json_re. cbn [source literal seqs lit js List.map list_ascii_of_string rmatch].
      unfold one. cbn [rmatch in_ranges existsb fst snd xorb].
      change (N_of_ascii "{") with 123%N.
      assert (E : ((123 <=? c)%N && (c <=? 123)%N || false) = false).
      { rewrite orb_false_r. apply N.eqb_neq in Hc.
        destruct (N.leb_spec 123 c), (N.leb_spec c 123); cbn; try reflexivity. lia. }
      now rewrite E.
Qed.


Lemma lacks_head c x s : lacks c (x :: s) = true -> in_ranges x [(c, c)] = false.
Proof.
  cbn [lacks forallb]. intros Hl. apply andb_true_iff in Hl as [Hc _].
  apply negb_true_iff in Hc. unfold cu_eqb in Hc. apply N.eqb_neq in Hc.
  unfold in_ranges. cbn. rewrite orb_false_r.
  destruct (N.leb_spec c x), (N.leb_spec x c); cbn; try reflexivity. lia.
Qed.

Lemma lacks_tail c x s : lacks c (x :: s) = true -> lacks c s = true.
Proof. cbn [lacks forallb]. intros Hl. now apply andb_true_iff in Hl as [_ Ht]. Qed.

Lemma rmatch_any_nil p k : rmatch (Cls true []) p [] k = None.
Proof. reflexivity. Qed.

Lemma rmatch_any_cons p x s k : rmatch (Cls true []) p (x :: s) k = k (Some x) s.
Proof. reflexivity. Qed.

Lemma closing_brace_needed k n : forall s p,
  lacks 125 s = true ->
  optional (rmatch (Cls true []))
           (fun p' s' => rmatch (one 125) p' s' k) n p s = None.
Proof.
  assert (K : forall s p, lacks 125 s = true -> rmatch (one 125) p s k = None).
  { intros [|x s] p Hl; [reflexivity|]. unfold one. cbn [rmatch xorb].
    now rewrite (lacks_head _ _ _ Hl). }
  induction n as [|n IH]; intros s p Hl; cbn [optional]; [now apply K|].
  destruct s as [|x s].
  - rewrite rmatch_any_nil. now apply K.
  - rewrite rmatch_any_cons.
    destruct (progress (x :: s) s).
    + rewrite (IH s (Some x) (lacks_tail _ _ _ Hl)). now apply K.
    + now apply K.
Qed.

Lemma no_closing_brace t : forall prev pos,
  lacks 125 t = true ->
  searchFrom (source json_re) prev t pos = None.
Proof.
  induction t as [|c t IH]; intros prev pos Hl.
  - reflexivity.
  - cbn [searchFrom].
    replace (matchHere (source json_re) prev (c :: t)) with (@None nat).
    + apply IH. exact (lacks_tail _ _ _ Hl).
    + unfold matchHere, json_re.
      cbn [source literal seqs lit js List.map list_ascii_of_string rmatch].
      change (N_of_ascii "{") with 123%N. change (N_of_ascii "}") with 125%N.
      unfold one at 1. cbn [rmatch xorb].
      destruct (in_ranges c [(123%N, 123%N)]); [|reflexivity].
      unfold star. cbn [rmatch mandatory].
      now rewrite (closing_brace_needed _ _ t (Some c) (lacks_tail _ _ _ Hl)).
Qed.

Lemma parseResponse_unbraced (t : jstr) :
  lacks 123 t = true \/ lacks 125 t = true ->
  fst (parseResponse t tt) = Throw (js "No JSON found in response").
Proof.
  intros Hl.
  assert (E : fst (exec json_re t) = None).
  { unfold exec. change (global json_re) with false. cbv iota.
    replace (execAt (source json_re) None t 0 0)
      with (searchFrom (source json_re) None t 0) by (now destruct t).
    destruct Hl as [Hl|Hl];
      [rewrite (no_opening_brace t None 0 Hl)
      |rewrite (no_closing_brace t None 0 Hl)]; reflexivity. }
  unfold parseResponse. now rewrite E.
Qed.

(** X10. When the service is initialized and the answer of the model
    contains no opening brace, or no closing brace, the answer is
    rejected and [classifyMessage] returns the result of the keyword
    fallback; the request has been made. *)
Theorem X10_answer_without_braces_falls_back (net : Network) (text : jstr) (w : World) (t : jstr) :
  isInitialized (svc w) = true ->
  generateContent net (request_for text) = ReplyText t ->
  lacks 123 t = true \/ lacks 125 t = true ->
  classifyMessage net text w
  = (Normal (classifyWithKeywords text), requested net text w).
Proof.
  intros Hi Hg Hl. rewrite (classifyMessage_initialized net text w Hi).
  rewrite (classifyWithAI_unfold net text w (isInitialized_model _ Hi)), Hg.
  now rewrite (parseResponse_unbraced t Hl).
Qed.

End Adjudicator.

(** ** The notification service *)

Section QueueMore.
Import Telegram.

Lemma enqueued_bounded m q : length q <= 50 -> length (enqueued m q) <= 50.
Proof.
  intros Hq. unfold enqueued. rewrite length_app. cbn [length].
  destruct (Nat.leb_spec 50 (length q)).
  - destruct q; cbn in *; lia.
  - lia.
Qed.

(** The contract of [sendSpamNotification] *)
Lemma sendSpamNotification_unfold (ch : Channel) (m : Types.SMSMessage) (w : World) :
  sendSpamNotification ch m w =
  if negb (notifying (tg w)) then (Normal false, w)
  else if acknowledges ch (posts w)
       then (Normal true, {| tg := tg w; posts := S (posts w) |})
       else (Normal false,
             {| tg := set_queue (enqueued m (queue (tg w))) (tg w);
                posts := S (posts w) |}).
Proof.
  unfold sendSpamNotification, bind, get, notifying.
  rewrite negb_andb.
  destruct (negb (isInitialized (tg w)) || negb (isEnabled (tg w))) eqn:Hg;
    [reflexivity|].
  apply orb_false_iff in Hg as [Hi _]. apply negb_false_iff in Hi.
  unfold isInitialized in Hi.
  unfold try_catch, sendMessage, bind, get.
  destruct (client (tg w)) eqn:Ec; [|destruct (config (tg w)); discriminate].
  destruct (config (tg w)) eqn:Ef; [|discriminate].
  cbn. destruct (acknowledges ch (posts w)); reflexivity.
Qed.

(** X14. [sendSpamNotification] never throws.  When the service is
    not initialized or not enabled it returns false, makes no request
    and does not queue the message.  Otherwise it makes exactly one
    request; if that is acknowledged it returns true and leaves the
    queue alone, and if not it returns false and the message is at the
    end of the queue with retries 0, the oldest entry having been
    dropped when 50 were waiting. *)
Theorem X14_notification_contract (ch : Channel) (m : Types.SMSMessage) (w : World) :
  (notifying (tg w) = false ->
   sendSpamNotification ch m w = (Normal false, w)) /\
  (notifying (tg w) = true -> acknowledges ch (posts w) = true ->
   sendSpamNotification ch m w
   = (Normal true, {| tg := tg w; posts := S (posts w) |})) /\
  (notifying (tg w) = true -> acknowledges ch (posts w) = false ->
   sendSpamNotification ch m w
   = (Normal false,
      {| tg := set_queue (enqueued m (queue (tg w))) (tg w);
         posts := S (posts w) |})).
Proof.
  rewrite sendSpamNotification_unfold.
  repeat split; intros Hn; rewrite Hn; cbn; try intros ->; reflexivity.
Qed.

Lemma sendSpamNotification_bounded ch m :
  triple queue_bounded (sendSpamNotification ch m)
         (fun _ => queue_bounded) (fun _ => False).
Proof.
  intros w Hw. rewrite sendSpamNotification_unfold.
  destruct (negb (notifying (tg w))); [exact Hw|].
  destruct (acknowledges ch (posts w)); [exact Hw|].
  unfold queue_bounded; cbn. now apply enqueued_bounded.
Qed.

Lemma processItem_bounded ch item c :
  triple queue_bounded (processItem ch item c)
         (fun _ => queue_bounded) (fun _ => False).
Proof.
  unfold processItem.
  apply (triple_try _ _ _ _ (fun _ => False)).
  - apply (triple_bind _ _ _ (fun _ => queue_bounded));
      [apply sendSpamNotification_bounded|].
    intros b. apply triple_ret. auto.
  - intros e s [].
Qed.

Lemma processItems_bounded ch items : forall c,
  triple queue_bounded (processItems ch items c)
         (fun _ => queue_bounded) (fun _ => False).
Proof.
  induction items as [|item rest IH]; intros c; cbn [processItems].
  - apply triple_ret. auto.
  - apply (triple_bind _ _ _ (fun _ => queue_bounded));
      [apply processItem_bounded | exact IH].
Qed.

Lemma triple_weaken {S A} (P : S -> Prop) (c : M S A) (Q Q' : A -> S -> Prop) (E E' : S -> Prop) :
  triple P c Q E -> (forall a s, Q a s -> Q' a s) -> (forall s, E s -> E' s) ->
  triple P c Q' E'.
Proof.
  intros Hc HQ HE s Hs. specialize (Hc s Hs).
  destruct (c s) as [[a|e] s']; auto.
Qed.

Lemma processQueue_bounded ch : keeps queue_bounded (processQueue ch).
Proof.
  intros w Hw. unfold processQueue, bind, processQueue_begin, bind, get.
  destruct (negb (isInitialized (tg w)) || negb (isEnabled (tg w))
            || isProcessing (tg w)); [exact Hw|].
  cbn -[processItems].
  match goal with |- context [processItems ch ?items ?c ?w0] =>
    pose proof (processItems_bounded ch items c w0) as Hp;
    destruct (processItems ch items c w0) as [[c'|e] w'] end.
  - cbn. apply Hp. unfold queue_bounded; cbn. lia.
  - exfalso. apply Hp. unfold queue_bounded; cbn. lia.
Qed.

(** X15. The queue of a new service is empty, and every method of
    the service keeps the queue at no more than 50 entries, however it
    ends. *)
Theorem X15_queue_never_exceeds_50 (ch : Channel) (m : Types.SMSMessage)
    (token chat : jstr) (enable : bool) :
  queue_bounded {| tg := newService; posts := 0 |} /\
  keeps queue_bounded (sendSpamNotification ch m) /\
  keeps queue_bounded (processQueue ch) /\
  keeps queue_bounded (initialize token chat enable) /\
  keeps queue_bounded (setEnabled enable) /\
  keeps queue_bounded (testNotification ch) /\
  keeps queue_bounded clearQueue /\
  keeps queue_bounded reset.
Proof.
  split; [unfold queue_bounded; cbn; lia|].
  split.
  { apply (triple_weaken _ _ _ _ _ _ (sendSpamNotification_bounded ch m));
      [auto | intros s []]. }
  split; [apply processQueue_bounded|].
  split.
  { intros w Hw. unfold initialize. destruct token, chat; cbn; exact Hw. }
  split.
  { intros w Hw. unfold setEnabled, modify, on_tg, queue_bounded. cbn.
    destruct (config (tg w)); exact Hw. }
  split.
  { intros w Hw. unfold testNotification, bind, get.
    destruct (negb (isInitialized (tg w))); [exact Hw|].
    unfold try_catch, sendMessage, bind, get.
    destruct (client (tg w)), (config (tg w)); cbn;
      try destruct (acknowledges ch (posts w)); cbn; exact Hw. }
  split.
  { intros w Hw. unfold queue_bounded; cbn. lia. }
  { intros w Hw. unfold queue_bounded; cbn. lia. }
Qed.


Lemma notifying_set_queue q s : notifying (set_queue q s) = notifying s.
Proof. reflexivity. Qed.

Lemma processItems_accounting ch items : forall c w,
  notifying (tg w) = true ->
  exists q',
    processItems ch items c w
    = (Normal {| sent := sent c + length items; failed := failed c |},
       {| tg := set_queue q' (tg w); posts := posts w + length items |}).
Proof.
  induction items as [|item rest IH]; intros c w Hn.
  - exists (queue (tg w)). cbn. unfold ret. rewrite !Nat.add_0_r.
    destruct c, w as [[? ? ? ?] ?]; reflexivity.
  - cbn [processItems]. unfold bind at 1. unfold processItem, try_catch, bind.
    rewrite sendSpamNotification_unfold, Hn. cbn [negb].
    destruct (acknowledges ch (posts w)); cbn [ret].
    + destruct (IH {| sent := S (sent c); failed := failed c |}
                   {| tg := tg w; posts := S (posts w) |} Hn) as (q' & ->).
      exists q'. cbn. do 2 f_equal; [f_equal; lia | f_equal; lia].
    + destruct (IH {| sent := S (sent c); failed := failed c |}
                   {| tg := set_queue (enqueued (message item) (queue (tg w)))
                              (tg w);
                      posts := S (posts w) |} Hn) as (q' & ->).
      exists q'. cbn. do 2 f_equal; [f_equal; lia | f_equal; lia].
Qed.

Lemma enqueued_room m q :
  length q < 50 ->
  enqueued m q = q ++ [{| message := m; retries := 0 |}].
Proof.
  intros Hq. unfold enqueued.
  destruct (Nat.leb_spec 50 (length q)); [lia | reflexivity].
Qed.

Lemma processItems_requeues ch items : forall c w,
  notifying (tg w) = true ->
  length (queue (tg w)) + length items <= 50 ->
  queue (tg (snd (processItems ch items c w)))
  = queue (tg w) ++ unacknowledged ch (posts w) items.
Proof.
  induction items as [|item rest IH]; intros c w Hn Hlen.
  - cbn. now rewrite app_nil_r.
  - cbn [processItems]. unfold bind at 1. unfold processItem, try_catch, bind.
    rewrite sendSpamNotification_unfold, Hn. cbn [negb length] in *.
    cbn [unacknowledged].
    destruct (acknowledges ch (posts w)); cbn [ret].
    + rewrite IH; [reflexivity | exact Hn | cbn; lia].
    + rewrite IH; [| exact Hn |]; cbn [tg queue posts set_queue];
        rewrite enqueued_room by lia.
      * now rewrite <- app_assoc.
      * rewrite length_app. cbn [length]. lia.
Qed.

Lemma guard_open w :
  notifying (tg w) = true -> isProcessing (tg w) = false ->
  (negb (isInitialized (tg w)) || negb (isEnabled (tg w))
   || isProcessing (tg w)) = false.
Proof.
  unfold notifying. intros Hn ->. apply andb_true_iff in Hn as [-> ->].
  reflexivity.
Qed.

(** X16. A drain that runs (service initialized and enabled, no
    drain in progress) reports as sent the number of entries that were
    queued, whether or not their requests were acknowledged, and no
    failure; it makes one request per entry, leaves the configuration
    alone and releases the flag. *)
Theorem X16_drain_counts_every_item_as_sent (ch : Channel) (w : World) :
  notifying (tg w) = true -> isProcessing (tg w) = false ->
  exists w',
    processQueue ch w
    = (Normal {| sent := length (queue (tg w)); failed := 0 |}, w') /\
    posts w' = posts w + length (queue (tg w)) /\
    isProcessing (tg w') = false /\
    config (tg w') = config (tg w) /\
    client (tg w') = client (tg w).
Proof.
  intros Hn Hp. unfold processQueue, bind, processQueue_begin, bind, get.
  rewrite (guard_open w Hn Hp). cbn -[processItems].
  match goal with |- context [processItems ch ?items ?c ?w0] =>
    destruct (processItems_accounting ch items c w0 Hn) as (q' & ->) end.
  cbn. eexists. split; [reflexivity|]. cbn. auto.
Qed.

(** X17. After a drain of a queue of at most 50 entries, the queue
    holds exactly the messages whose request was not acknowledged, in
    their old order, each with retries 0 again. *)
Theorem X17_drain_requeues_the_unacknowledged (ch : Channel) (w : World) :
  notifying (tg w) = true -> isProcessing (tg w) = false ->
  length (queue (tg w)) <= 50 ->
  queue (tg (snd (processQueue ch w)))
  = unacknowledged ch (posts w) (queue (tg w)).
Proof.
  intros Hn Hp Hlen. unfold processQueue, bind, processQueue_begin, bind, get.
  rewrite (guard_open w Hn Hp). cbn -[processItems].
  match goal with |- context [processItems ch ?items ?c ?w0] =>
    pose proof (processItems_requeues ch items c w0 Hn) as Hq;
    destruct (processItems ch items c w0) as [[c'|e] w'] end.
  - cbn in *. apply Hq. lia.
  - cbn in *. apply Hq. lia.
Qed.

(** X18. [testNotification] fails without a request when the service
    is not initialized.  Otherwise it makes exactly one request, also
    when notifications are disabled, reports whether it was
    acknowledged, and never queues anything. *)
Theorem X18_test_notification_ignores_enabled (ch : Channel) (w : World) :
  (isInitialized (tg w) = false ->
   testNotification ch w
   = (Normal {| success := false;
                error := Some (js "Service not initialized") |}, w)) /\
  (isInitialized (tg w) = true ->
   exists e,
     testNotification ch w
     = (Normal {| success := acknowledges ch (posts w); error := e |},
        {| tg := tg w; posts := S (posts w) |})).
Proof.
  unfold testNotification, bind, get. split; intros Hi; rewrite Hi; cbn [negb].
  - reflexivity.
  - unfold isInitialized in Hi.
    unfold try_catch, sendMessage, bind, get.
    destruct (client (tg w)); [|destruct (config (tg w)); discriminate].
    destruct (config (tg w)); [|discriminate].
    cbn. destruct (acknowledges ch (posts w)); cbn; eexists; reflexivity.
Qed.

End QueueMore.

Section Alert.

Lemma small_numerals (n : nat) :
  n <= 100 -> length (str_of_Z (Z.of_nat n)) <= 3.
Proof.
  intros Hn.
  assert (Hall : forallb (fun k => length (str_of_Z (Z.of_nat k)) <=? 3)
                         (seq 0 101) = true) by (vm_compute; reflexivity).
  rewrite forallb_forall in Hall.
  apply Nat.leb_le. apply Hall. apply in_seq. lia.
Qed.

Lemma percent_digits (c : Q) :
  (0 <= c <= 1)%Q -> length (str_of_Z (Math_round (c * 100))) <= 3.
Proof.
  intros [H0 H1]. unfold Math_round.
  assert (Hlo : (0 <= Qfloor (c * 100 + (1 # 2)))%Z).
  { change 0%Z with (Qfloor 0). apply Qfloor_resp_le. lra. }
  assert (Hhi : (Qfloor (c * 100 + (1 # 2)) <= 100)%Z).
  { apply (Z.le_trans _ (Qfloor (100 + (1 # 2)))); [|discriminate].
    apply Qfloor_resp_le. lra. }
  rewrite <- (Z2Nat.id _ Hlo). apply small_numerals. lia.
Qed.

Import Types Telegram.

(** X19. The alert for a message whose confidence, if any, lies
    between 0 and 1 has at most 413 code units besides the sender (or
    "Unknown") and the text of the time stamp, however long the body and
    the reason of the message are. *)
Theorem X19_alert_length (ch : Channel) (m : SMSMessage) :
  confidence_in_unit m ->
  length (formatSpamMessage ch m)
  <= 413 + Nat.max 7 (length (sender m))
     + length (formatTimestamp ch (timestamp m)).
Proof.
  intros Hc. unfold formatSpamMessage. cbv zeta.
  pose proof (truncateText_length (body m) 200) as Hb.
  change (TextPreprocessing.truncateText (body m) 200)
    with (truncateText (body m) 200) in Hb.
  unfold confidence_in_unit in Hc.
  rewrite !length_app.
  destruct (sender m) as [|s0 sr];
  (destruct (reason m) as [[|x r]|];
   [| pose proof (truncateText_length (x :: r) 100) as Hr;
      change (TextPreprocessing.truncateText (x :: r) 100)
        with (truncateText (x :: r) 100) in Hr |]);
  (destruct (confidence m) as [c|];
   [destruct (Qeq_bool c 0);
    [|rewrite length_app; pose proof (percent_digits c Hc) as Hd]|]);
  repeat match goal with
         | |- context [length (js ?s)] =>
             let n := eval vm_compute in (length (js s)) in
             change (length (js s)) with n
         end;
  change (length siren) with 2; change (length nl) with 1;
  cbn [length]; lia.
Qed.

End Alert.

(** ** The store: round trips and refusals *)

Section StoreMore.
Import Types Database.

Lemma ensureInitialized_available st w :
  available st w = true ->
  ensureInitialized st w = (Normal tt, open_with (sms_messages w)).
Proof.
  unfold available, ensureInitialized, bind, get. intros Ha.
  destruct w as [o rows]. cbn in *. destruct o; cbn; [reflexivity|].
  cbn in Ha. now rewrite Ha.
Qed.

Lemma ensureInitialized_unavailable st w :
  available st w = false ->
  ensureInitialized st w = (Throw (js "Database failed to initialize"), w).
Proof.
  unfold available, ensureInitialized, bind, get. intros Ha.
  apply orb_false_iff in Ha as [-> ->]. reflexivity.
Qed.

Lemma insertMessage_available st m w :
  available st w = true ->
  insertMessage st m w
  = (Normal tt, open_with (<[ id m := row_of st m ]> (sms_messages w))).
Proof.
  intros Ha. unfold insertMessage, bind.
  now rewrite (ensureInitialized_available st w Ha).
Qed.

Lemma getMessage_available st key w :
  available st w = true ->
  getMessage st key w
  = (Normal (option_map (mapRowToMessage key) (sms_messages w !! key)),
     open_with (sms_messages w)).
Proof.
  intros Ha. unfold getMessage, bind.
  rewrite (ensureInitialized_available st w Ha). cbn.
  unfold ret. now destruct (sms_messages w !! key).
Qed.

Lemma available_open st rows : available st (open_with rows) = true.
Proof. reflexivity. Qed.

Lemma mapRowToMessage_row_of st m : mapRowToMessage (id m) (row_of st m) = m.
Proof. now destruct m. Qed.

(** X20. On a database that is open or can be opened, [getMessage]
    after [insertMessage] returns the message that was inserted,
    whatever row its id had before; the rows of the other ids are
    untouched. *)
Theorem X20_insert_then_get (st : Storage) (m : SMSMessage) (w : World) :
  available st w = true ->
  exists w',
    (run insertMessage st m then getMessage st (id m)) w
    = (Normal (Some m), w') /\
    sms_messages w' !! id m = Some (row_of st m) /\
    (forall key, key <> id m -> sms_messages w' !! key = sms_messages w !! key).
Proof.
  intros Ha. unfold bind at 1.
  rewrite (insertMessage_available st m w Ha).
  rewrite (getMessage_available st (id m) _ (available_open st _)).
  cbn [sms_messages open_with]. rewrite lookup_insert_eq. cbn [option_map].
  rewrite mapRowToMessage_row_of.
  eexists. split; [reflexivity|]. cbn [sms_messages open_with].
  split; [apply lookup_insert_eq|].
  intros key Hne. now rewrite lookup_insert_ne.
Qed.


Lemma updateClassification_available st key spam conf why w :
  available st w = true ->
  updateClassification st key spam conf why w
  = (Normal tt,
     open_with (alter (verdict_row st spam conf why) key (sms_messages w))).
Proof.
  intros Ha. unfold updateClassification, bind.
  now rewrite (ensureInitialized_available st w Ha).
Qed.

(** X21. [updateClassification] of an id that has no row creates
    none and leaves the table as it was.  For an id that has a row,
    [getMessage] afterwards returns its sender, body and time stamp
    with the new verdict, confidence, reason and the time of the
    update.  The rows of the other ids are untouched. *)
Theorem X21_update_then_get (st : Storage) (key : jstr) (spam : bool) (conf : Q)
    (why : jstr) (w : World) :
  available st w = true ->
  let after := run updateClassification st key spam conf why
               then getMessage st key in
  (sms_messages w !! key = None ->
   fst (after w) = Normal None /\
   sms_messages (snd (after w)) = sms_messages w) /\
  (forall r, sms_messages w !! key = Some r ->
   fst (after w)
   = Normal (Some {| id := key; sender := r_sender r; body := r_body r;
                     timestamp := r_timestamp r; isSpam := Some spam;
                     confidence := Some conf; reason := Some why;
                     classifiedAt := Some (clock st) |})) /\
  (forall other, other <> key ->
   sms_messages (snd (after w)) !! other = sms_messages w !! other).
Proof.
  intros Ha. cbn zeta.
  assert (E : (run updateClassification st key spam conf why
               then getMessage st key) w
              = (Normal (option_map (mapRowToMessage key)
                           (verdict_row st spam conf why
                              <$> sms_messages w !! key)),
                 open_with (alter (verdict_row st spam conf why) key
                              (sms_messages w)))).
  { unfold bind at 1.
    rewrite (updateClassification_available st key spam conf why w Ha).
    rewrite (getMessage_available st key _ (available_open st _)).
    cbn [sms_messages open_with]. now rewrite lookup_alter_eq. }
  rewrite E. cbn [fst snd sms_messages open_with].
  split; [|split].
  - intros Hnone. rewrite Hnone. split; [reflexivity|].
    apply map_eq. intros k. destruct (decide (key = k)) as [<-|Hne].
    + rewrite lookup_alter_eq. unfold jstr in Hnone. now rewrite Hnone.
    + now rewrite lookup_alter_ne.
  - intros r Hr. now rewrite Hr.
  - intros other Hne. now rewrite lookup_alter_ne.
Qed.

Lemma deleteMessage_available st key w :
  available st w = true ->
  deleteMessage st key w
  = (Normal tt, open_with (delete key (sms_messages w))).
Proof.
  intros Ha. unfold deleteMessage, bind.
  now rewrite (ensureInitialized_available st w Ha).
Qed.

(** X22. After [deleteMessage], [getMessage] of that id returns
    null; the rows of the other ids are untouched, and deleting an id
    that has no row leaves the table as it was. *)
Theorem X22_delete_then_get (st : Storage) (key : jstr) (w : World) :
  available st w = true ->
  let after := run deleteMessage st key then getMessage st key in
  fst (after w) = Normal None /\
  (forall other, other <> key ->
   sms_messages (snd (after w)) !! other = sms_messages w !! other) /\
  (sms_messages w !! key = None ->
   sms_messages (snd (after w)) = sms_messages w).
Proof.
  intros Ha. cbn zeta.
  assert (E : (run deleteMessage st key then getMessage st key) w
              = (Normal None, open_with (delete key (sms_messages w)))).
  { unfold bind at 1.
    rewrite (deleteMessage_available st key w Ha).
    rewrite (getMessage_available st key _ (available_open st _)).
    cbn [sms_messages open_with]. now rewrite lookup_delete_eq. }
  rewrite E. cbn [fst snd sms_messages open_with].
  split; [reflexivity|]. split.
  - intros other Hne. now rewrite lookup_delete_ne.
  - intros Hnone. now apply delete_id.
Qed.


Lemma count_partition (l : list (jstr * Row)) :
  length l
  = length (List.filter (fun kr => match is_spam (snd kr) with
                                   | Some true => true | _ => false end) l)
    + length (List.filter (fun kr => match is_spam (snd kr) with
                                     | Some false => true | _ => false end) l)
    + length (List.filter (fun kr => match is_spam (snd kr) with
                                     | None => true | _ => false end) l).
Proof.
  induction l as [|[k r] l IH]; [reflexivity|].
  cbn [List.filter snd length]. destruct (is_spam r) as [[|]|]; cbn [length]; lia.
Qed.

(** X24. [getStats] leaves the table alone; its total is the number
    of rows and is the sum of its spam, ham and unclassified counts.
    After [clearAllMessages] all four are 0. *)
Theorem X24_stats_partition (st : Storage) (w : World) :
  available st w = true ->
  exists stats,
    getStats st w = (Normal stats, open_with (sms_messages w)) /\
    totalMessages stats
    = spamCount stats + hamCount stats + unclassifiedCount stats /\
    totalMessages stats = size (sms_messages w) /\
    fst ((run clearAllMessages st then getStats st) w)
    = Normal {| totalMessages := 0; spamCount := 0; hamCount := 0;
                unclassifiedCount := 0; lastUpdated := clock st |}.
Proof.
  intros Ha. unfold getStats at 1. unfold bind at 1.
  rewrite (ensureInitialized_available st w Ha).
  eexists. split; [reflexivity|]. cbn [totalMessages spamCount hamCount
    unclassifiedCount sms_messages open_with].
  split; [apply count_partition|]. split; [apply length_map_to_list|].
  unfold bind at 1. unfold clearAllMessages, bind.
  rewrite (ensureInitialized_available st w Ha). cbn [modify].
  unfold getStats, bind. rewrite ensureInitialized_available by reflexivity.
  cbn [get ret fst sms_messages set_rows open_with opened].
  unfold count_where. now rewrite map_to_list_empty.
Qed.

End StoreMore.

(** ** The coordinator: incoming messages and scans *)

Section Coordinator.
Import Types Monitoring.
Context `{Host}.
Variable env : Env.

Lemma classify_returns (text : jstr) (a : App) :
  exists r c',
    classify env text a = (Normal r, set_classifier c' a) /\
    Classification.classifyMessage
      (network env (length (Classification.prompts (classifier a))))
      text (classifier a) = (Normal r, c').
Proof.
  unfold classify, bind, get, in_classifier, zoom.
  destruct (classifyMessage_returns
              (network env (length (Classification.prompts (classifier a))))
              text (classifier a)) as (r & E & _).
  rewrite E. now eexists _, _.
Qed.

Lemma in_database_insert (m : SMSMessage) (a : App) :
  available (storage env) (database a) = true ->
  in_database (Database.insertMessage (storage env) m) a
  = (Normal tt,
     set_database (open_with (<[ id m := row_of (storage env) m ]> (rows_of a)))
                  a).
Proof.
  intros Ha. unfold in_database, zoom.
  now rewrite (insertMessage_available _ m _ Ha).
Qed.

Lemma in_database_update key spam conf why (a : App) :
  available (storage env) (database a) = true ->
  in_database (Database.updateClassification (storage env) key spam conf why) a
  = (Normal tt,
     set_database
       (open_with (alter (verdict_row (storage env) spam conf why) key
                         (rows_of a))) a).
Proof.
  intros Ha. unfold in_database, zoom.
  now rewrite (updateClassification_available _ key spam conf why _ Ha).
Qed.

Lemma in_telegram_send m (a : App) :
  exists b t',
    in_telegram (Telegram.sendSpamNotification (channel env) m) a
    = (Normal b, set_telegram t' a).
Proof.
  unfold in_telegram, zoom.
  destruct (sendSpamNotification_returns (channel env) m (telegram a))
    as (b & t' & ->).
  now eexists _, _.
Qed.

(** X25. When the database is available, [handleIncomingSms] does
    not throw and leaves the message stored under the generated id with
    the verdict, confidence and reason of [classifyMessage] on its body
    and the rows of the other ids untouched; a ham verdict leaves the
    Telegram service untouched; the message callback, if registered,
    has received the message twice, unclassified and classified, and
    the statistics callback has been called once. *)
Theorem X25_incoming_is_stored_and_classified (ev_sender ev_body : jstr) (ev_timestamp : Z) (a : App) :
  available (storage env) (database a) = true ->
  let m := incoming env ev_sender ev_body ev_timestamp in
  exists r a',
    handleIncomingSms env ev_sender ev_body ev_timestamp a = (Normal tt, a') /\
    fst (Classification.classifyMessage
           (network env (length (Classification.prompts (classifier a))))
           ev_body (classifier a)) = Normal r /\
    rows_of a' !! id m
    = Some (verdict_row (storage env) (Classification.isSpam r)
              (Classification.confidence r) (Classification.reason r)
              (row_of (storage env) m)) /\
    (forall key, key <> id m -> rows_of a' !! key = rows_of a !! key) /\
    (Classification.isSpam r = false -> telegram a' = telegram a) /\
    delivered a'
    = (if onMessageCallback a
       then delivered a ++ [m; classified env m r true] else delivered a) /\
    statsUpdates a'
    = (if onStatsUpdateCallback a then S (statsUpdates a) else statsUpdates a).
Proof.
  intros Ha. cbn zeta.
  set (m := incoming env ev_sender ev_body ev_timestamp).
  assert (Hstep : forall a1,
            available (storage env) (database a1) = true ->
            exists r a2,
              classifyAndNotify env m a1 = (Normal tt, a2) /\
              fst (Classification.classifyMessage
                     (network env
                        (length (Classification.prompts (classifier a1))))
                     ev_body (classifier a1)) = Normal r /\
              rows_of a2
              = alter (verdict_row (storage env) (Classification.isSpam r)
                         (Classification.confidence r)
                         (Classification.reason r)) (id m) (rows_of a1) /\
              (Classification.isSpam r = false -> telegram a2 = telegram a1) /\
              delivered a2
              = (if onMessageCallback a1
                 then delivered a1 ++ [classified env m r true]
                 else delivered a1) /\
              statsUpdates a2 = statsUpdates a1 /\
              onStatsUpdateCallback a2 = onStatsUpdateCallback a1).
  { intros a1 Ha1. unfold classifyAndNotify, try_catch. unfold bind at 1.
    destruct (classify_returns (body m) a1) as (r & c' & -> & Er).
    change (body m) with ev_body in Er.
    unfold bind at 1.
    rewrite in_database_update by exact Ha1.
    exists r. unfold bind at 1.
    destruct (Classification.isSpam r) eqn:Es.
    - unfold bind at 1.
      match goal with |- context [in_telegram ?c ?a2] =>
        destruct (in_telegram_send (classified env m r true) a2)
          as (b & t' & ->)
      end.
      cbn [ret]. eexists. split; [reflexivity|].
      split; [now rewrite Er|].
      unfold rows_of. destruct a1 as [d c t [] cbs dl su]; cbn;
        repeat split; try reflexivity; discriminate.
    - cbn [ret]. eexists. split; [reflexivity|].
      split; [now rewrite Er|].
      unfold rows_of. destruct a1 as [d c t [] cbs dl su]; cbn;
        repeat split; reflexivity. }
  change (handleIncomingSms env ev_sender ev_body ev_timestamp)
    with (try_catch
            (run in_database (Database.insertMessage (storage env) m)
             then run notifyMessage m
             then run classifyAndNotify env m
             then notifyStats)
            (fun error => ret tt)).
  unfold try_catch at 1. unfold bind at 1.
  rewrite (in_database_insert m a Ha).
  unfold bind at 1. unfold notifyMessage at 1. cbn [modify].
  unfold bind at 1. unfold rows_of in *.
  destruct a as [d c t cbm cbs dl su].
  cbn [set_database database classifier telegram onMessageCallback
       onStatsUpdateCallback delivered statsUpdates] in *.
  match goal with |- context [classifyAndNotify env m ?a1] =>
    destruct (Hstep a1) as (r & a2 & -> & Er & Hrows & Htg & Hdl & Hsu & Hcb);
      [destruct cbm; reflexivity|]
  end.
  exists r. eexists. split; [reflexivity|].
  unfold notifyStats. cbn [modify snd].
  assert (Hfin : forall a2 : App,
            let a3 := if onStatsUpdateCallback a2
                      then {| database := database a2;
                              classifier := classifier a2;
                              telegram := telegram a2;
                              onMessageCallback := onMessageCallback a2;
                              onStatsUpdateCallback := onStatsUpdateCallback a2;
                              delivered := delivered a2;
                              statsUpdates := S (statsUpdates a2) |}
                      else a2 in
            database a3 = database a2 /\ telegram a3 = telegram a2 /\
            delivered a3 = delivered a2 /\
            statsUpdates a3 = if onStatsUpdateCallback a2
                              then S (statsUpdates a2) else statsUpdates a2).
  { intros x. cbn zeta. destruct (onStatsUpdateCallback x); cbn; auto. }
  destruct (Hfin a2) as (Fd & Ft & Fdl & Fsu). cbn zeta in *.
  rewrite Fd, Ft, Fdl, Fsu. clear Hfin Fd Ft Fdl Fsu.
  split; [rewrite <- Er; destruct cbm; reflexivity|].
  assert (Hr2 : Database.sms_messages (database a2)
                = alter (verdict_row (storage env) (Classification.isSpam r)
                           (Classification.confidence r)
                           (Classification.reason r)) (id m)
                    (<[ id m := row_of (storage env) m ]>
                       (Database.sms_messages d))).
  { rewrite Hrows. destruct cbm; reflexivity. }
  split; [rewrite Hr2, lookup_alter_eq, lookup_insert_eq; reflexivity|].
  split.
  { intros key Hk.
    rewrite Hr2, lookup_alter_ne, lookup_insert_ne by congruence.
    reflexivity. }
  split; [intros Hs; rewrite (Htg Hs); destruct cbm; reflexivity|].
  split.
  { rewrite Hdl. destruct cbm; cbn; [now rewrite <- app_assoc | reflexivity]. }
  rewrite Hcb, Hsu. destruct cbm; reflexivity.
Qed.

(** X26. When the database cannot be opened, [handleIncomingSms]
    returns without throwing and without any effect: the message is not
    classified, no request is made, nothing is notified and no callback
    is called. *)
Theorem X26_incoming_is_dropped_without_store
    (ev_sender ev_body : jstr) (ev_timestamp : Z) (a : App) :
  available (storage env) (database a) = false ->
  handleIncomingSms env ev_sender ev_body ev_timestamp a = (Normal tt, a).
Proof.
  intros Ha. unfold handleIncomingSms, try_catch. unfold bind at 1.
  unfold in_database, zoom, Database.insertMessage. unfold bind at 1.
  rewrite (ensureInitialized_unavailable _ _ Ha).
  destruct a; reflexivity.
Qed.

(** *** The scan of the inbox *)

Lemma in_database_get key (a : App) :
  available (storage env) (database a) = true ->
  in_database (Database.getMessage (storage env) key) a
  = (Normal (option_map (Database.mapRowToMessage key) (rows_of a !! key)),
     set_database (open_with (rows_of a)) a).
Proof.
  intros Ha. unfold in_database, zoom.
  now rewrite (getMessage_available _ key _ Ha).
Qed.

Lemma ingestNative_available nativeMsg count (a : App) :
  available (storage env) (database a) = true ->
  exists count' a',
    ingestNative env nativeMsg count a = (Normal count', a') /\
    Database.opened (database a') = true /\
    match rows_of a !! n_id nativeMsg with
    | Some _ => count' = count /\ rows_of a' = rows_of a /\
                classifier a' = classifier a /\ telegram a' = telegram a /\
                delivered a' = delivered a
    | None =>
        count' = S count /\
        exists r,
          rows_of a'
          = <[ n_id nativeMsg :=
               verdict_row (storage env) (Classification.isSpam r)
                 (Classification.confidence r) (Classification.reason r)
                 (row_of (storage env) (unstamped nativeMsg)) ]> (rows_of a)
    end /\
    statsUpdates a' = statsUpdates a /\
    onStatsUpdateCallback a' = onStatsUpdateCallback a.
Proof.
  intros Ha. unfold ingestNative, try_catch. unfold bind at 1.
  rewrite (in_database_get _ a Ha).
  destruct (rows_of a !! n_id nativeMsg) as [row|] eqn:Erow; cbn [option_map].
  - cbn [ret]. eexists _, _. split; [reflexivity|].
    destruct a; cbn. repeat split; reflexivity.
  - fold (unstamped nativeMsg).
    unfold bind at 1. rewrite in_database_insert by (destruct a; reflexivity).
    unfold bind at 1.
    match goal with |- context [classify env ?text ?a1] =>
      destruct (classify_returns text a1) as (r & c' & -> & Er) end.
    unfold bind at 1.
    rewrite in_database_update by (destruct a; reflexivity).
    unfold bind at 1.
    assert (Hrows : forall x y, alter x (id (unstamped nativeMsg))
                      (<[ id (unstamped nativeMsg) := y ]> (rows_of a))
                    = <[ n_id nativeMsg := x y ]> (rows_of a))
      by (intros; apply alter_insert_eq).
    destruct (Classification.isSpam r) eqn:Es.
    + unfold bind at 1.
      match goal with |- context [in_telegram ?c ?a2] =>
        destruct (in_telegram_send
                    (classified env (unstamped nativeMsg) r false) a2)
          as (b & t' & ->)
      end.
      cbn [ret]. unfold bind at 1. unfold notifyMessage. cbn [modify ret].
      eexists _, _. split; [reflexivity|].
      destruct a as [d c t [] cbs dl su]; unfold rows_of in *; cbn in *;
        (split; [reflexivity|]); (split; [|split; reflexivity]);
        (split; [reflexivity|]); exists r; rewrite Es; apply Hrows.
    + cbn [ret].
      unfold bind at 1. unfold notifyMessage. cbn [modify ret].
      eexists _, _. split; [reflexivity|].
      destruct a as [d c t [] cbs dl su]; unfold rows_of in *; cbn in *;
        (split; [reflexivity|]); (split; [|split; reflexivity]);
        (split; [reflexivity|]); exists r; rewrite Es; apply Hrows.
Qed.

Lemma opened_available (a : App) :
  Database.opened (database a) = true ->
  available (storage env) (database a) = true.
Proof. unfold available. now intros ->. Qed.

Lemma ingestAll_available msgs : forall count (a : App),
  available (storage env) (database a) = true ->
  exists count' a',
    ingestAll env msgs count a = (Normal count', a') /\
    available (storage env) (database a') = true /\
    size (rows_of a') + count = size (rows_of a) + count' /\
    count <= count' <= count + length msgs /\
    (forall key, is_Some (rows_of a !! key) -> is_Some (rows_of a' !! key)) /\
    Forall (fun nativeMsg => is_Some (rows_of a' !! n_id nativeMsg)) msgs /\
    statsUpdates a' = statsUpdates a /\
    onStatsUpdateCallback a' = onStatsUpdateCallback a.
Proof.
  induction msgs as [|nativeMsg rest IH]; intros count a Ha.
  - exists count, a. cbn.
    split; [reflexivity|]. split; [exact Ha|]. split; [lia|].
    split; [lia|]. split; [auto|]. split; [constructor|]. split; reflexivity.
  - cbn [ingestAll]. unfold bind at 1.
    destruct (ingestNative_available nativeMsg count a Ha)
      as (c1 & a1 & -> & Ho1 & Hcase & Hsu1 & Hcb1).
    destruct (IH c1 a1 (opened_available a1 Ho1))
      as (c2 & a2 & -> & Ha2 & Hsize & Hc & Hkeep & Hall & Hsu2 & Hcb2).
    exists c2, a2. split; [reflexivity|]. split; [exact Ha2|].
    assert (Hfirst : size (rows_of a1) + count = size (rows_of a) + c1 /\
                     count <= c1 <= S count /\
                     (forall key, is_Some (rows_of a !! key) ->
                                  is_Some (rows_of a1 !! key)) /\
                     is_Some (rows_of a1 !! n_id nativeMsg)).
    { destruct (rows_of a !! n_id nativeMsg) as [row|] eqn:Erow.
      - destruct Hcase as (-> & -> & _).
        split; [lia|]. split; [lia|]. split; [auto|].
        rewrite Erow. now eexists.
      - destruct Hcase as (-> & r & ->).
        rewrite map_size_insert_None by exact Erow.
        split; [lia|]. split; [lia|]. split.
        + intros key Hk. destruct (decide (n_id nativeMsg = key)) as [<-|Hne].
          * rewrite lookup_insert_eq. now eexists.
          * now rewrite lookup_insert_ne.
        + rewrite lookup_insert_eq. now eexists. }
    destruct Hfirst as (Hs1 & Hc1 & Hk1 & Hin1).
    cbn [length]. split; [lia|]. split; [lia|]. split; [auto|].
    split; [constructor; [now apply Hkeep | exact Hall]|].
    split; congruence.
Qed.

(** X27. When the database is available and the inbox can be read,
    [loadAndClassifyInbox] returns the number of rows it has added to
    the table, which is at most the number of messages of the inbox;
    afterwards every message of the inbox has a row, and so has every id
    that had one. *)
Theorem X27_scan_counts_new_rows (limit : nat) (a : App) (msgs : list NativeSmsMessage) :
  available (storage env) (database a) = true ->
  getAllMessages env limit = Normal msgs ->
  exists n a',
    loadAndClassifyInbox env limit a = (Normal n, a') /\
    size (rows_of a') = size (rows_of a) + n /\
    n <= length msgs /\
    Forall (fun nativeMsg => is_Some (rows_of a' !! n_id nativeMsg)) msgs /\
    (forall key, is_Some (rows_of a !! key) -> is_Some (rows_of a' !! key)).
Proof.
  intros Ha Hget. unfold loadAndClassifyInbox. rewrite Hget.
  unfold bind at 1.
  destruct (ingestAll_available msgs 0 a Ha)
    as (n & a1 & -> & Ha1 & Hsize & Hc & Hkeep & Hall & _).
  unfold bind at 1. unfold notifyStats. cbn [modify ret].
  exists n. eexists. split; [reflexivity|].
  assert (E : rows_of (if onStatsUpdateCallback a1
                       then {| database := database a1;
                               classifier := classifier a1;
                               telegram := telegram a1;
                               onMessageCallback := onMessageCallback a1;
                               onStatsUpdateCallback :=
                                 onStatsUpdateCallback a1;
                               delivered := delivered a1;
                               statsUpdates := S (statsUpdates a1) |}
                       else a1) = rows_of a1)
    by (destruct (onStatsUpdateCallback a1); reflexivity).
  rewrite E. split; [lia|]. split; [cbn in Hc; lia|]. split; assumption.
Qed.

Lemma ingestAll_stored msgs : forall count (a : App),
  available (storage env) (database a) = true ->
  Forall (fun nativeMsg => is_Some (rows_of a !! n_id nativeMsg)) msgs ->
  exists a',
    ingestAll env msgs count a = (Normal count, a') /\
    available (storage env) (database a') = true /\
    rows_of a' = rows_of a /\ classifier a' = classifier a /\
    telegram a' = telegram a /\ delivered a' = delivered a.
Proof.
  induction msgs as [|nativeMsg rest IH]; intros count a Ha Hall.
  - exists a. cbn. split; [reflexivity|]. split; [exact Ha|]. auto.
  - cbn [ingestAll]. unfold bind at 1.
    inversion Hall as [|? ? [row Hrow] Hrest]; subst.
    destruct (ingestNative_available nativeMsg count a Ha)
      as (c1 & a1 & -> & Ho1 & Hcase & _).
    rewrite Hrow in Hcase. destruct Hcase as (-> & Hr & Hc & Ht & Hd).
    destruct (IH count a1 (opened_available a1 Ho1)) as (a2 & -> & Ha2 & Hr2 & Hc2 & Ht2 & Hd2).
    { now rewrite Hr. }
    exists a2. split; [reflexivity|]. split; [exact Ha2|].
    split; [congruence|]. split; [congruence|]. split; congruence.
Qed.

Lemma loadAndClassifyInbox_unfold limit (a : App) msgs n a1 :
  getAllMessages env limit = Normal msgs ->
  ingestAll env msgs 0 a = (Normal n, a1) ->
  loadAndClassifyInbox env limit a = (Normal n, snd (notifyStats a1)).
Proof.
  intros Hget E. unfold loadAndClassifyInbox. rewrite Hget.
  unfold bind at 1. rewrite E. reflexivity.
Qed.

Lemma notifyStats_frame (x : App) :
  let y := snd (notifyStats x) in
  database y = database x /\ classifier y = classifier x /\
  telegram y = telegram x /\ delivered y = delivered x.
Proof.
  unfold notifyStats. cbn. destruct (onStatsUpdateCallback x); cbn; auto.
Qed.

(** X28. Scanning the same inbox a second time returns 0 and leaves
    the table, the classifier, the Telegram service and what the message
    callback has received as the first scan left them. *)
Theorem X28_rescan_is_idempotent (limit : nat) (a : App) (msgs : list NativeSmsMessage) :
  available (storage env) (database a) = true ->
  getAllMessages env limit = Normal msgs ->
  let a1 := snd (loadAndClassifyInbox env limit a) in
  exists a2,
    loadAndClassifyInbox env limit a1 = (Normal 0, a2) /\
    rows_of a2 = rows_of a1 /\ classifier a2 = classifier a1 /\
    telegram a2 = telegram a1 /\ delivered a2 = delivered a1.
Proof.
  intros Ha Hget. cbn zeta.
  destruct (ingestAll_available msgs 0 a Ha)
    as (n & a1 & E1 & Ha1 & _ & _ & _ & Hall & _).
  rewrite (loadAndClassifyInbox_unfold limit a msgs n a1 Hget E1).
  cbn [snd].
  destruct (notifyStats_frame a1) as (Hd & Hc & Ht & Hdl). cbn zeta in *.
  set (a1' := snd (notifyStats a1)) in *.
  destruct (ingestAll_stored msgs 0 a1')
    as (a2 & E2 & Ha2 & Hr2 & Hc2 & Ht2 & Hd2).
  { unfold available. rewrite Hd. exact Ha1. }
  { unfold rows_of. rewrite Hd. exact Hall. }
  rewrite (loadAndClassifyInbox_unfold limit a1' msgs 0 a2 Hget E2).
  destruct (notifyStats_frame a2) as (Hd3 & Hc3 & Ht3 & Hdl3). cbn zeta in *.
  eexists. split; [reflexivity|].
  unfold rows_of in *. rewrite Hd3, Hc3, Ht3, Hdl3. auto.
Qed.

End Coordinator.

(** ** The backlog of unclassified messages *)

Section Pending.
Import Types Database.










End Pending.

Section PendingLoop.
Import Types Monitoring.
Context `{Host}.
Variable env : Env.




End PendingLoop.

(** ** Worked examples *)

#[local] Existing Instance Examples.asciiHost.

(** The three scorer scenarios of the specification *)
Example scenario_A_otp :
  let r := fst (Nlp.classifyMessage Nlp.newService Examples.otp_message) in
  Nlp.isSpam r = false /\ (7 # 10 <= Nlp.confidence r)%Q /\
  Nlp.reason r
  = js "Legitimate: OTP/verification code, 2 legitimate pattern(s)".
Proof. vm_compute. repeat split; try reflexivity. discriminate. Qed.

Example scenario_B_prize :
  let r := fst (Nlp.classifyMessage Nlp.newService Examples.prize_message) in
  Nlp.isSpam r = true /\ (6 # 10 <= Nlp.confidence r)%Q /\
  Nlp.reason r
  = js "Spam detected: 3 spam keyword(s), multiple exclamation marks".
Proof. vm_compute. repeat split; try reflexivity. discriminate. Qed.

Example scenario_C_banking :
  Nlp.isSpam
    (fst (Nlp.classifyMessage Nlp.newService
            (js "Rs.1500 debited from A/c XX1234. Available bal: Rs.5000")))
  = false.
Proof. vm_compute. reflexivity. Qed.

(** A neutral message, for C9 *)
Lemma C9_witness :
  neutral (fst (Nlp.extractFeatures Nlp.newService Examples.plain_message)) /\
  Nlp.isSpam (fst (Nlp.classifyMessage Nlp.newService Examples.plain_message))
  = false.
Proof.
  assert (Hn : neutral (fst (Nlp.extractFeatures Nlp.newService
                               Examples.plain_message))).
  { unfold neutral. vm_compute.
    repeat split; try reflexivity; try discriminate; try lia. }
  split; [exact Hn|].
  exact (proj1 (C9_no_indicator_is_neutral_ham
                  Nlp.newService Examples.plain_message Hn)).
Defined.

(** After an OTP message the first OTP pattern is left at index 8, the
    end of its match: the shared objects do carry state from one call to
    the next. *)
Lemma C5_counterexample :
  List.map lastIndex
    (Nlp.otp (Nlp.legitimatePatterns
                (snd (Nlp.classifyMessage Nlp.newService
                        Examples.otp_message))))
  = [8; 0; 0; 0] /\
  snd (Nlp.classifyMessage Nlp.newService Examples.otp_message)
  <> Nlp.newService.
Proof.
  split; [vm_compute; reflexivity|].
  intros E.
  assert (E' : List.map lastIndex
                 (Nlp.otp (Nlp.legitimatePatterns
                    (snd (Nlp.classifyMessage Nlp.newService
                            Examples.otp_message))))
               = List.map lastIndex
                   (Nlp.otp (Nlp.legitimatePatterns Nlp.newService)))
    by now rewrite E.
  vm_compute in E'. discriminate.
Qed.

(** The state that is left behind is live: tested without the rewind of
    [countLegitimatePatterns], the same patterns miss an OTP. *)
Example stale_position_changes_detectOTP :
  let used := Nlp.legitimatePatterns
                (snd (Nlp.classifyMessage Nlp.newService
                        Examples.otp_message)) in
  fst (Nlp.detectOTP (Nlp.legitimatePatterns Nlp.newService) (js "otp 42"))
  = true /\
  fst (Nlp.detectOTP used (js "otp 42")) = false.
Proof. vm_compute. split; reflexivity. Qed.

(** The model answers in the agreed shape with an empty explanation: the
    result of [classifyMessage] has an empty reason. *)
Lemma C1_counterexample :
  fst (Classification.classifyMessage
         (Examples.answering Examples.reply_empty_reason)
         Examples.otp_message Examples.initialized)
  = Normal {| Classification.isSpam := true;
              Classification.confidence := 9 # 10;
              Classification.reason := [] |}.
Proof. vm_compute. reflexivity. Qed.

(** The scorer is as sure as it can be that the OTP message is ham
    (confidence 1, below no threshold), and still the initialized
    adjudicator is asked and its verdict, spam, is the result. *)
Lemma C2_counterexample :
  Nlp.isSpam (fst (Nlp.classifyMessage Nlp.newService Examples.otp_message))
  = false /\
  (Nlp.confidence
     (fst (Nlp.classifyMessage Nlp.newService Examples.otp_message)) == 1)%Q /\
  length (Classification.prompts
            (snd (Classification.classifyMessage
                    (Examples.answering Examples.reply_spam)
                    Examples.otp_message Examples.initialized))) = 1 /\
  fst (Classification.classifyMessage
         (Examples.answering Examples.reply_spam)
         Examples.otp_message Examples.initialized)
  = Normal {| Classification.isSpam := true;
              Classification.confidence := 9 # 10;
              Classification.reason := js "prize scam" |}.
Proof. vm_compute. repeat split; reflexivity. Qed.

(** Scenario D of the specification: the model times out. *)
Example scenario_D_timeout :
  fst (Classification.classifyMessage Examples.unreachable
         Examples.prize_message Examples.initialized)
  = Normal (Classification.classifyWithKeywords Examples.prize_message).
Proof. vm_compute. reflexivity. Qed.

(** C3. One notification is queued and the channel is down.  Four
    drains in a row each report sent = 1 and failed = 0, and afterwards
    the entry is still queued with its retry counter at 0: the counter
    is never incremented, the entry is never dropped and never counted
    as failed, and it has been retried a fourth time. *)
Theorem C3_failed_sends_are_requeued_forever :
  let after := Examples.drains Examples.dead_channel 4 Examples.one_queued in
  fst after
  = [ {| Telegram.sent := 1; Telegram.failed := 0 |};
      {| Telegram.sent := 1; Telegram.failed := 0 |};
      {| Telegram.sent := 1; Telegram.failed := 0 |};
      {| Telegram.sent := 1; Telegram.failed := 0 |} ] /\
  Telegram.queue (Telegram.tg (snd after))
  = [ {| Telegram.message := Examples.spam_sms; Telegram.retries := 0 |} ] /\
  Telegram.posts (snd after) = 4.
Proof. vm_compute. repeat split; reflexivity. Qed.

(** A drain has begun (the flag is set, the queue has been taken):
    another call returns zero counts and changes nothing. *)
Lemma C7_witness :
  Telegram.isProcessing
    (Telegram.tg (snd (Telegram.processQueue_begin Examples.one_queued)))
  = true /\
  Telegram.processQueue Examples.dead_channel
    (snd (Telegram.processQueue_begin Examples.one_queued))
  = (Normal {| Telegram.sent := 0; Telegram.failed := 0 |},
     snd (Telegram.processQueue_begin Examples.one_queued)).
Proof.
  split; [reflexivity|].
  apply (C7_drain_is_not_reentrant Examples.dead_channel
           (snd (Telegram.processQueue_begin Examples.one_queued))).
  reflexivity.
Defined.

(** The inbox offers [m1] again, with another body, next to a new
    message: the row of [m1] is the one that was stored. *)
Lemma C6_witness :
  stored (js "m1") Examples.stored_row Examples.app_with_m1 /\
  stored (js "m1") Examples.stored_row
    (snd (Monitoring.loadAndClassifyInbox Examples.inbox_env 50
            Examples.app_with_m1)).
Proof.
  assert (Hs : stored (js "m1") Examples.stored_row Examples.app_with_m1)
    by (vm_compute; reflexivity).
  split; [exact Hs|].
  exact (proj2 (C6_reingestion_is_a_storage_noop Examples.inbox_env
                  (js "m1") Examples.stored_row 50 Examples.app_with_m1 Hs)).
Defined.

(** In that scan the new message is stored, classified by the fallback
    and, its notification failing, queued. *)
Example scan_ingests_the_new_message :
  let out := Monitoring.loadAndClassifyInbox Examples.inbox_env 50
               Examples.app_with_m1 in
  fst out = Normal 1 /\
  option_map Database.is_spam
    (Database.sms_messages (Monitoring.database (snd out)) !! js "m2")
  = Some (Some true) /\
  length (Telegram.queue (Telegram.tg (Monitoring.telegram (snd out)))) = 2.
Proof. vm_compute. repeat split; reflexivity. Qed.

(** ** Worked examples for the further properties *)

(** The OTP message fires no spam indicator, for X2 *)
Lemma X2_witness :
  no_spam_indicator
    (fst (Nlp.extractFeatures Nlp.newService Examples.otp_message)) /\
  Nlp.isSpam
    (Nlp.score_features
       (fst (Nlp.extractFeatures Nlp.newService Examples.otp_message)))
  = false.
Proof.
  assert (Hn : no_spam_indicator
                 (fst (Nlp.extractFeatures Nlp.newService
                         Examples.otp_message))).
  { unfold no_spam_indicator. vm_compute.
    repeat split; try reflexivity; try discriminate; try lia. }
  split; [exact Hn|].
  exact (X2_no_spam_indicator_is_ham _ Hn).
Defined.

(** The prize message fires no legitimacy indicator, for X3 *)
Lemma X3_witness :
  no_legit_indicator
    (fst (Nlp.extractFeatures Nlp.newService Examples.prize_message)) /\
  (Nlp.isSpam
     (Nlp.score_features
        (fst (Nlp.extractFeatures Nlp.newService Examples.prize_message)))
   = true <->
   some_spam_indicator
     (fst (Nlp.extractFeatures Nlp.newService Examples.prize_message))).
Proof.
  assert (Hn : no_legit_indicator
                 (fst (Nlp.extractFeatures Nlp.newService
                         Examples.prize_message))).
  { unfold no_legit_indicator. vm_compute. repeat split; reflexivity. }
  split; [exact Hn|].
  exact (X3_spam_iff_indicator_without_legitimacy _ Hn).
Defined.

(** One spam keyword against two, one legitimate pattern against two,
    for X4 *)
Lemma X4_witness :
  1 <= 2 /\
  (Nlp.calculateSpamScore
     (with_spamKeywordCount 1
        (fst (Nlp.extractFeatures Nlp.newService Examples.prize_message)))
   <= Nlp.calculateSpamScore
        (with_spamKeywordCount 2
           (fst (Nlp.extractFeatures Nlp.newService
                   Examples.prize_message))))%Q /\
  (Nlp.calculateSpamScore
     (with_legitPatternCount 2
        (fst (Nlp.extractFeatures Nlp.newService Examples.prize_message)))
   <= Nlp.calculateSpamScore
        (with_legitPatternCount 1
           (fst (Nlp.extractFeatures Nlp.newService
                   Examples.prize_message))))%Q.
Proof.
  assert (Hle : 1 <= 2) by lia.
  split; [exact Hle|].
  exact (X4_score_is_monotone_in_the_counts _ 1 2 Hle).
Defined.

(** [hi] is a token of [Hi, there!], for X6 *)
Lemma X6_witness :
  In (js "hi") (TextPreprocessing.tokenize (js "Hi, there!")) /\
  (js "hi" <> [] /\ forallb isTokenUnit (js "hi") = true).
Proof.
  assert (Hin : In (js "hi") (TextPreprocessing.tokenize (js "Hi, there!")))
    by (vm_compute; left; reflexivity).
  split; [exact Hin|].
  exact (X6_tokens_are_words (js "Hi, there!") (js "hi") Hin).
Defined.

(** The model answers in plain words, for X10 *)
Lemma X10_witness :
  Classification.isInitialized (Classification.svc Examples.initialized)
  = true /\
  lacks 123 Examples.plain_answer = true /\
  Classification.classifyMessage (Examples.answering Examples.plain_answer)
    Examples.prize_message Examples.initialized
  = (Normal (Classification.classifyWithKeywords Examples.prize_message),
     requested (Examples.answering Examples.plain_answer)
       Examples.prize_message Examples.initialized).
Proof.
  split; [reflexivity|]. split; [reflexivity|].
  apply (X10_answer_without_braces_falls_back
           (Examples.answering Examples.plain_answer) Examples.prize_message
           Examples.initialized Examples.plain_answer);
    [reflexivity | reflexivity | left; reflexivity].
Defined.

(** An enabled service and a channel that is down, for X14 *)
Lemma X14_witness :
  notifying (Telegram.tg Examples.one_queued) = true /\
  Telegram.acknowledges Examples.dead_channel
    (Telegram.posts Examples.one_queued) = false /\
  Telegram.sendSpamNotification Examples.dead_channel Examples.spam_sms
    Examples.one_queued
  = (Normal false,
     {| Telegram.tg :=
          Telegram.set_queue
            (enqueued Examples.spam_sms
               (Telegram.queue (Telegram.tg Examples.one_queued)))
            (Telegram.tg Examples.one_queued);
        Telegram.posts := S (Telegram.posts Examples.one_queued) |}).
Proof.
  split; [reflexivity|]. split; [reflexivity|].
  apply (proj2 (proj2 (X14_notification_contract Examples.dead_channel
                         Examples.spam_sms Examples.one_queued)));
    reflexivity.
Defined.

(** One notification is queued and no drain is running, for X16 *)
Lemma X16_witness :
  notifying (Telegram.tg Examples.one_queued) = true /\
  Telegram.isProcessing (Telegram.tg Examples.one_queued) = false /\
  exists w',
    Telegram.processQueue Examples.dead_channel Examples.one_queued
    = (Normal {| Telegram.sent :=
                   length (Telegram.queue (Telegram.tg Examples.one_queued));
                 Telegram.failed := 0 |}, w') /\
    Telegram.posts w'
    = Telegram.posts Examples.one_queued
      + length (Telegram.queue (Telegram.tg Examples.one_queued)) /\
    Telegram.isProcessing (Telegram.tg w') = false /\
    Telegram.config (Telegram.tg w')
    = Telegram.config (Telegram.tg Examples.one_queued) /\
    Telegram.client (Telegram.tg w')
    = Telegram.client (Telegram.tg Examples.one_queued).
Proof.
  split; [reflexivity|]. split; [reflexivity|].
  apply (X16_drain_counts_every_item_as_sent Examples.dead_channel
           Examples.one_queued); reflexivity.
Defined.

(** The channel is down: the queued notification is queued again, for
    X17 *)
Lemma X17_witness :
  notifying (Telegram.tg Examples.one_queued) = true /\
  Telegram.isProcessing (Telegram.tg Examples.one_queued) = false /\
  length (Telegram.queue (Telegram.tg Examples.one_queued)) <= 50 /\
  Telegram.queue
    (Telegram.tg (snd (Telegram.processQueue Examples.dead_channel
                         Examples.one_queued)))
  = unacknowledged Examples.dead_channel (Telegram.posts Examples.one_queued)
      (Telegram.queue (Telegram.tg Examples.one_queued)).
Proof.
  assert (Hlen : length (Telegram.queue (Telegram.tg Examples.one_queued))
                 <= 50) by (vm_compute; lia).
  split; [reflexivity|]. split; [reflexivity|]. split; [exact Hlen|].
  apply (X17_drain_requeues_the_unacknowledged Examples.dead_channel
           Examples.one_queued); [reflexivity | reflexivity | exact Hlen].
Defined.

(** An initialized service, for X18 *)
Lemma X18_witness :
  Telegram.isInitialized (Telegram.tg Examples.one_queued) = true /\
  exists e,
    Telegram.testNotification Examples.live_channel Examples.one_queued
    = (Normal {| Telegram.success :=
                   Telegram.acknowledges Examples.live_channel
                     (Telegram.posts Examples.one_queued);
                 Telegram.error := e |},
       {| Telegram.tg := Telegram.tg Examples.one_queued;
          Telegram.posts := S (Telegram.posts Examples.one_queued) |}).
Proof.
  split; [reflexivity|].
  apply (proj2 (X18_test_notification_ignores_enabled Examples.live_channel
                  Examples.one_queued)).
  reflexivity.
Defined.

(** A message with confidence 0.9, for X19 *)
Lemma X19_witness :
  confidence_in_unit Examples.spam_sms /\
  length (Telegram.formatSpamMessage Examples.live_channel Examples.spam_sms)
  <= 413 + Nat.max 7 (length (Types.sender Examples.spam_sms))
     + length (Telegram.formatTimestamp Examples.live_channel
                 (Types.timestamp Examples.spam_sms)).
Proof.
  assert (Hc : confidence_in_unit Examples.spam_sms)
    by (vm_compute; split; discriminate).
  split; [exact Hc|].
  exact (X19_alert_length Examples.live_channel Examples.spam_sms Hc).
Defined.

(** A store that can be opened, for X20 *)
Lemma X20_witness :
  available Examples.disk Examples.closed_store = true /\
  exists w',
    (run Database.insertMessage Examples.disk Examples.spam_sms
     then Database.getMessage Examples.disk (Types.id Examples.spam_sms))
      Examples.closed_store
    = (Normal (Some Examples.spam_sms), w') /\
    Database.sms_messages w' !! Types.id Examples.spam_sms
    = Some (row_of Examples.disk Examples.spam_sms) /\
    (forall key : jstr,
       key <> Types.id Examples.spam_sms ->
       Database.sms_messages w' !! key
       = Database.sms_messages Examples.closed_store !! key).
Proof.
  split; [reflexivity|].
  apply (X20_insert_then_get Examples.disk Examples.spam_sms
           Examples.closed_store).
  reflexivity.
Defined.

(** The unclassified row [m3] receives a verdict, for X21 *)
Lemma X21_witness :
  available Examples.disk Examples.closed_store = true /\
  Database.sms_messages Examples.closed_store !! js "m3"
  = Some Examples.pending_row /\
  fst ((run Database.updateClassification Examples.disk (js "m3") false
              (1 # 10) (js "greeting")
        then Database.getMessage Examples.disk (js "m3"))
         Examples.closed_store)
  = Normal
      (Some {| Types.id := js "m3";
               Types.sender := Database.r_sender Examples.pending_row;
               Types.body := Database.r_body Examples.pending_row;
               Types.timestamp := Database.r_timestamp Examples.pending_row;
               Types.isSpam := Some false;
               Types.confidence := Some (1 # 10);
               Types.reason := Some (js "greeting");
               Types.classifiedAt := Some (Database.clock Examples.disk) |}).
Proof.
  assert (Hr : Database.sms_messages Examples.closed_store !! js "m3"
               = Some Examples.pending_row) by (vm_compute; reflexivity).
  split; [reflexivity|]. split; [exact Hr|].
  exact (proj1 (proj2 (X21_update_then_get Examples.disk (js "m3") false
                         (1 # 10) (js "greeting") Examples.closed_store
                         eq_refl))
           Examples.pending_row Hr).
Defined.

(** The row [m1] is deleted, for X22 *)
Lemma X22_witness :
  available Examples.disk Examples.closed_store = true /\
  fst ((run Database.deleteMessage Examples.disk (js "m1")
        then Database.getMessage Examples.disk (js "m1"))
         Examples.closed_store)
  = Normal None.
Proof.
  split; [reflexivity|].
  exact (proj1 (X22_delete_then_get Examples.disk (js "m1")
                  Examples.closed_store eq_refl)).
Defined.


(** The store holds one spam message and one unclassified message, for
    X24 *)
Lemma X24_witness :
  available Examples.disk Examples.closed_store = true /\
  exists stats,
    Database.getStats Examples.disk Examples.closed_store
    = (Normal stats,
       open_with (Database.sms_messages Examples.closed_store)) /\
    Types.totalMessages stats
    = Types.spamCount stats + Types.hamCount stats
      + Types.unclassifiedCount stats /\
    Types.totalMessages stats
    = size (Database.sms_messages Examples.closed_store) /\
    fst ((run Database.clearAllMessages Examples.disk
          then Database.getStats Examples.disk) Examples.closed_store)
    = Normal {| Types.totalMessages := 0; Types.spamCount := 0;
                Types.hamCount := 0; Types.unclassifiedCount := 0;
                Types.lastUpdated := Database.clock Examples.disk |}.
Proof.
  split; [reflexivity|].
  apply (X24_stats_partition Examples.disk Examples.closed_store).
  reflexivity.
Defined.

(** A message arrives while the model cannot be reached, for X25 *)
Lemma X25_witness :
  available (Monitoring.storage Examples.inbox_env)
    (Monitoring.database Examples.app_with_backlog) = true /\
  exists r a',
    Monitoring.handleIncomingSms Examples.inbox_env (js "+15550103")
      Examples.prize_message 3000 Examples.app_with_backlog
    = (Normal tt, a') /\
    rows_of a' !! Monitoring.generateId Examples.inbox_env
    = Some (verdict_row (Monitoring.storage Examples.inbox_env)
              (Classification.isSpam r) (Classification.confidence r)
              (Classification.reason r)
              (row_of (Monitoring.storage Examples.inbox_env)
                 (incoming Examples.inbox_env (js "+15550103")
                    Examples.prize_message 3000))).
Proof.
  split; [reflexivity|].
  destruct (X25_incoming_is_stored_and_classified Examples.inbox_env
              (js "+15550103") Examples.prize_message 3000
              Examples.app_with_backlog eq_refl)
    as (r & a' & Hrun & _ & Hrow & _).
  exists r, a'. split; [exact Hrun | exact Hrow].
Defined.

(** A message arrives while the disk cannot be opened, for X26 *)
Lemma X26_witness :
  available (Monitoring.storage Examples.offline_env)
    (Monitoring.database Examples.app_with_backlog) = false /\
  Monitoring.handleIncomingSms Examples.offline_env (js "+15550103")
    Examples.prize_message 3000 Examples.app_with_backlog
  = (Normal tt, Examples.app_with_backlog).
Proof.
  split; [reflexivity|].
  apply (X26_incoming_is_dropped_without_store Examples.offline_env).
  reflexivity.
Defined.

(** The inbox of two messages, one of them stored already, for X27 *)
Lemma X27_witness :
  available (Monitoring.storage Examples.inbox_env)
    (Monitoring.database Examples.app_with_backlog) = true /\
  Monitoring.getAllMessages Examples.inbox_env 50
  = Normal Examples.inbox_messages /\
  exists n a',
    Monitoring.loadAndClassifyInbox Examples.inbox_env 50
      Examples.app_with_backlog = (Normal n, a') /\
    size (rows_of a') = size (rows_of Examples.app_with_backlog) + n /\
    n <= length Examples.inbox_messages.
Proof.
  split; [reflexivity|]. split; [reflexivity|].
  destruct (X27_scan_counts_new_rows Examples.inbox_env 50
              Examples.app_with_backlog Examples.inbox_messages
              eq_refl eq_refl)
    as (n & a' & Hrun & Hsize & Hn & _).
  exists n, a'. split; [exact Hrun|]. split; [exact Hsize | exact Hn].
Defined.

(** The same inbox scanned twice, for X28 *)
Lemma X28_witness :
  available (Monitoring.storage Examples.inbox_env)
    (Monitoring.database Examples.app_with_backlog) = true /\
  Monitoring.getAllMessages Examples.inbox_env 50
  = Normal Examples.inbox_messages /\
  exists a2,
    Monitoring.loadAndClassifyInbox Examples.inbox_env 50
      (snd (Monitoring.loadAndClassifyInbox Examples.inbox_env 50
              Examples.app_with_backlog))
    = (Normal 0, a2) /\
    rows_of a2
    = rows_of (snd (Monitoring.loadAndClassifyInbox Examples.inbox_env 50
                      Examples.app_with_backlog)).
Proof.
  split; [reflexivity|]. split; [reflexivity|].
  destruct (X28_rescan_is_idempotent Examples.inbox_env 50
              Examples.app_with_backlog Examples.inbox_messages
              eq_refl eq_refl)
    as (a2 & Hrun & Hrows & _).
  exists a2. split; [exact Hrun | exact Hrows].
Defined.


(** In that store the backlog is the one message [m3]: it is classified
    by the fallback, as ham, and no row is left unclassified. *)
Example backlog_is_cleared :
  let out := Monitoring.classifyPendingMessages Examples.inbox_env 10
               Examples.app_with_backlog in
  fst out = Normal 1 /\
  pending (rows_of Examples.app_with_backlog) = 1 /\
  pending (rows_of (snd out)) = 0 /\
  option_map Database.is_spam (rows_of (snd out) !! js "m3")
  = Some (Some false).
Proof. vm_compute. repeat split; reflexivity. Qed.
